(** * Groupchat Wrapped front end: chart-dataset assembly and navigation

    A shallow embedding of the logic of [src/App.js]: the helpers
    [isValidArray], [safeGet], [sortBarData], [getRandomColor],
    [generateDistinctColors], [wrapText] and [groupBySender], the assembler
    [buildChartDataSets], and the [App] handlers [handleScroll],
    [handleYearChange], [handleDaySummaryClick] and [handleFileUpload]
    together with the phase-indexed render function.

    Modelling conventions.
    - A payload is a parsed JSON tree ([JS.value]); [VUndefined] only arises
      from reading a property that is not there.  Being a tree, a payload
      has no two places that hold the same object: an object or array is
      identified by the place it sits at ([JS.cell]).
    - A number is the rational its numeral denotes, in lowest terms
      ([Qc]).  Numerals of up to 15 significant digits are held exactly by
      a double, and on them order, equality and printing are those of
      JavaScript; the rounding of longer numerals, overflow and the sign of
      zero are not modelled.  [NaN] and the infinities appear only as
      results of a coercion ([JS.number]).
    - A string is a sequence of code units below 256; string order is the
      lexicographic order on code units.
    - Objects are association lists looked up by first match.  Only own
      properties are read: the members that objects, arrays and strings
      inherit from their prototypes ([constructor], [toString], ...) are
      functions, which are not values of the model.  No key that the
      program reads names one; statements about arbitrary keys exclude
      them by hypothesis ([JS.inherited]).
    - [Array.prototype.sort] is stable, and on a comparator that is not
      consistent the order it leaves is implementation-defined; stable
      insertion sort is the implementation used here, and what is stated
      about a sort with such a comparator does not depend on the order.
    - A raised exception is a [Throw] result; state that was updated before
      the exception is kept, as in the source.
    - The console and [Math.random] make up the [world] a computation runs
      in; console entries keep the message and drop its arguments.
    - An event handler reads the state cells as the render that installed
      it saw them, and its updates go to the cells themselves ([page]). *)

From Stdlib Require Import List ZArith String Ascii Bool Lia QArith Qround Qcanon.
From Stdlib Require Import DecimalString Sorted Permutation.
Import ListNotations.

Local Open Scope string_scope.
Local Open Scope Z_scope.

(* ================================================================== *)
(** * JavaScript values and the coercions the program relies on *)
(* ================================================================== *)

Module JS.

(** An integer as a number. *)
Definition num (z : Z) : Qc := Q2Qc (inject_Z z).
Coercion num : Z >-> Qc.

(** A rational as a number, in lowest terms. *)
Definition rational (q : Q) : Qc := Q2Qc (Qred q).

#[warnings="-register-all"]
Inductive value : Type :=
| VUndefined
| VNull
| VBool (b : bool)
| VNum (n : Qc)
| VStr (s : string)
| VArr (elems : list value)
| VObj (fields : list (string * value)).

Inductive exn : Type :=
| TypeError
| SyntaxError
| Error (msg : string).

Inductive result (A : Type) : Type :=
| Ok (a : A)
| Throw (e : exn).
Arguments Ok {A} a.
Arguments Throw {A} e.

(** The outcome of a numeric coercion or subtraction. *)
Inductive number : Type :=
| NaN
| Inf (negative : bool)
| Fin (q : Qc).

Definition rbind {A B} (r : result A) (k : A -> result B) : result B :=
  match r with
  | Ok a => k a
  | Throw e => Throw e
  end.

Fixpoint rmap {A B} (f : A -> result B) (l : list A) : result (list B) :=
  match l with
  | [] => Ok []
  | x :: l' => rbind (f x) (fun y => rbind (rmap f l') (fun ys => Ok (y :: ys)))
  end.

Definition num_eqb (a b : Qc) : bool := Qeq_bool a b.

(** [a < b] on numbers *)
Definition num_ltb (a b : Qc) : bool := negb (Qle_bool b a).

(** [!!v] *)
Definition truthy (v : value) : bool :=
  match v with
  | VUndefined | VNull => false
  | VBool b => b
  | VNum n => negb (num_eqb n 0)
  | VStr s => negb (s =? EmptyString)%string
  | VArr _ | VObj _ => true
  end.

Definition nullish (v : value) : bool :=
  match v with
  | VUndefined | VNull => true
  | _ => false
  end.

(** [a || b] *)
Definition or_else (a b : value) : value := if truthy a then a else b.

(** [a ?? b] *)
Definition coalesce (a b : value) : value := if nullish a then b else a.

Definition is_array (v : value) : bool :=
  match v with
  | VArr _ => true
  | _ => false
  end.

Definition elems_of (v : value) : list value :=
  match v with
  | VArr l => l
  | _ => []
  end.

(** A value that is not an object: it is compared by what it is, not by
    where it is. *)
Definition scalar (v : value) : bool :=
  match v with
  | VArr _ | VObj _ => false
  | _ => true
  end.

Fixpoint assoc (k : string) (fields : list (string * value)) : option value :=
  match fields with
  | [] => None
  | (k', v) :: rest => if (k =? k')%string then Some v else assoc k rest
  end.

Definition has_own (k : string) (fields : list (string * value)) : bool :=
  match assoc k fields with
  | Some _ => true
  | None => false
  end.

(** The names every object inherits from [Object.prototype]. *)
Definition Object_prototype : list string :=
  [ "constructor"; "__defineGetter__"; "__defineSetter__"; "hasOwnProperty";
    "__lookupGetter__"; "__lookupSetter__"; "isPrototypeOf";
    "propertyIsEnumerable"; "toString"; "valueOf"; "__proto__";
    "toLocaleString" ].

Definition inherited (k : string) : bool :=
  existsb (String.eqb k) Object_prototype.

Definition decimal (z : Z) : string := NilZero.string_of_int (Z.to_int z).

(** The element whose canonical index string is [k], if any. *)
Fixpoint at_index {A} (k : string) (i : nat) (l : list A) : option A :=
  match l with
  | [] => None
  | x :: l' =>
      if (k =? decimal (Z.of_nat i))%string then Some x else at_index k (S i) l'
  end.

Fixpoint chars (s : string) : list string :=
  match s with
  | EmptyString => []
  | String c s' => String c EmptyString :: chars s'
  end.

(** [v[k]] / [v.k], own properties.  Reading a property of [undefined] or
    [null] raises a [TypeError].  Arrays and strings have [length] and
    their indices. *)
Definition get_prop (v : value) (k : string) : result value :=
  match v with
  | VUndefined | VNull => Throw TypeError
  | VObj fields =>
      Ok (match assoc k fields with Some x => x | None => VUndefined end)
  | VArr l =>
      if (k =? "length")%string then Ok (VNum (Z.of_nat (List.length l)))
      else Ok (match at_index k 0 l with Some x => x | None => VUndefined end)
  | VStr s =>
      if (k =? "length")%string then Ok (VNum (Z.of_nat (String.length s)))
      else Ok (match at_index k 0 (chars s) with
               | Some c => VStr c
               | None => VUndefined
               end)
  | VBool _ | VNum _ => Ok VUndefined
  end.

(** [v?.[k]] *)
Definition opt_get (v : value) (k : string) : value :=
  match get_prop v k with
  | Ok x => x
  | Throw _ => VUndefined
  end.

(** [s.split(c)] for a one-character separator. *)
Fixpoint split_on (c : ascii) (s : string) : list string :=
  match s with
  | EmptyString => [EmptyString]
  | String a s' =>
      if Ascii.eqb a c then EmptyString :: split_on c s'
      else match split_on c s' with
           | [] => [String a EmptyString]
           | w :: ws => String a w :: ws
           end
  end.

(** ** Numbers and strings *)

Fixpoint zeros (n : nat) : string :=
  match n with
  | O => EmptyString
  | S n' => String "0" (zeros n')
  end.

Fixpoint strip_zeros (fuel : nat) (s : Z) : Z :=
  match fuel with
  | O => s
  | S fuel' =>
      if (0 <? s) && (s mod 10 =? 0) then strip_zeros fuel' (s / 10) else s
  end.

(** The digits [s] and the exponent [n] of [p/d > 0]: [p/d] is [0.s] times
    [10^n], with [s] rounded to 17 significant digits and without trailing
    zeros. *)
Definition significand (p d : Z) : Z * Z :=
  let n0 := Z.of_nat (String.length (decimal p))
            - Z.of_nat (String.length (decimal d)) in
  let n := if (if 0 <=? n0 then d * 10 ^ n0 <=? p else d <=? p * 10 ^ (- n0))
           then n0 + 1 else n0 in
  let e := 17 - n in
  let s := if 0 <=? e then (2 * p * 10 ^ e + d) / (2 * d)
           else (2 * p + d * 10 ^ (- e)) / (2 * d * 10 ^ (- e)) in
  if s =? 10 ^ 17 then (1, n + 1) else (strip_zeros 17 s, n).

(** [Number::toString]: positional notation for exponents from -6 to 21,
    exponential notation beyond. *)
Definition number_to_string (q : Qc) : string :=
  let p := Qnum q in
  if p =? 0 then "0"
  else
    let '(s, n) := significand (Z.abs p) (Z.pos (Qden q)) in
    let ds := decimal s in
    let k := Z.of_nat (String.length ds) in
    let body :=
      if (k <=? n) && (n <=? 21) then ds ++ zeros (Z.to_nat (n - k))
      else if (0 <? n) && (n <=? 21)
      then substring 0 (Z.to_nat n) ds ++ "."
           ++ substring (Z.to_nat n) (Z.to_nat (k - n)) ds
      else if (-6 <? n) && (n <=? 0) then "0." ++ zeros (Z.to_nat (- n)) ++ ds
      else
        (if k =? 1 then ds
         else substring 0 1 ds ++ "." ++ substring 1 (Z.to_nat (k - 1)) ds)
        ++ "e" ++ (if n - 1 <? 0 then "-" else "+") ++ decimal (Z.abs (n - 1)) in
    if p <? 0 then "-" ++ body else body.

(** [ToString].  An array joins its elements with commas, [null] and
    [undefined] elements printing as the empty string; a plain object prints
    as [[object Object]] unless it carries an own [toString] key, which in a
    JSON tree is never callable, so that the conversion raises. *)
Fixpoint to_string (v : value) : result string :=
  match v with
  | VUndefined => Ok "undefined"
  | VNull => Ok "null"
  | VBool true => Ok "true"
  | VBool false => Ok "false"
  | VNum n => Ok (number_to_string n)
  | VStr s => Ok s
  | VArr l =>
      (fix join (l : list value) : result string :=
         match l with
         | [] => Ok EmptyString
         | x :: l' =>
             rbind (if nullish x then Ok EmptyString else to_string x) (fun s =>
             match l' with
             | [] => Ok s
             | _ :: _ => rbind (join l') (fun r => Ok (s ++ "," ++ r))
             end)
         end) l
  | VObj fields =>
      if has_own "toString" fields then Throw TypeError
      else Ok "[object Object]"
  end.

(** White space and line terminators among the code units below 256. *)
Definition is_space (c : ascii) : bool :=
  let n := nat_of_ascii c in
  ((9 <=? n) && (n <=? 13))%nat || (n =? 32)%nat || (n =? 160)%nat.

Fixpoint drop_spaces (s : string) : string :=
  match s with
  | EmptyString => EmptyString
  | String c s' => if is_space c then drop_spaces s' else s
  end.

Fixpoint rev_string (s acc : string) : string :=
  match s with
  | EmptyString => acc
  | String c s' => rev_string s' (String c acc)
  end.

Definition trim (s : string) : string :=
  rev_string (drop_spaces (rev_string (drop_spaces s) EmptyString)) EmptyString.

Definition digit_of (c : ascii) : option Z :=
  let n := nat_of_ascii c in
  if ((48 <=? n) && (n <=? 57))%nat then Some (Z.of_nat (n - 48))
  else if ((97 <=? n) && (n <=? 102))%nat then Some (Z.of_nat (n - 87))
  else if ((65 <=? n) && (n <=? 70))%nat then Some (Z.of_nat (n - 55))
  else None.

(** The value of a run of digits in a radix; [None] when a character is not
    a digit of that radix. *)
Fixpoint digits (radix : Z) (s : string) (acc : Z) : option Z :=
  match s with
  | EmptyString => Some acc
  | String c s' =>
      match digit_of c with
      | Some d => if d <? radix then digits radix s' (radix * acc + d) else None
      | None => None
      end
  end.

(** The longest prefix of decimal digits, and what follows it. *)
Fixpoint span_digits (s : string) : string * string :=
  match s with
  | EmptyString => (EmptyString, EmptyString)
  | String c s' =>
      match digit_of c with
      | Some d =>
          if d <? 10 then let '(ds, rest) := span_digits s' in (String c ds, rest)
          else (EmptyString, s)
      | None => (EmptyString, s)
      end
  end.

Definition digits_value (s : string) : Z :=
  match digits 10 s 0 with
  | Some z => z
  | None => 0
  end.

(** [0x...], [0o...], [0b...] *)
Definition radix_literal (radix : Z) (s : string) : number :=
  match s with
  | EmptyString => NaN
  | _ => match digits radix s 0 with
         | Some z => Fin z
         | None => NaN
         end
  end.

(** The exponent part that ends a decimal literal: nothing, or [e] or [E],
    an optional sign and at least one digit. *)
Definition exponent_part (s : string) : option Z :=
  match s with
  | EmptyString => Some 0
  | String c s' =>
      if Ascii.eqb c "e" || Ascii.eqb c "E" then
        let '(negative, t) :=
          match s' with
          | String "-" t => (true, t)
          | String "+" t => (false, t)
          | _ => (false, s')
          end in
        match span_digits t with
        | (EmptyString, _) => None
        | (ds, EmptyString) =>
            Some (if negative then - digits_value ds else digits_value ds)
        | (_, _) => None
        end
      else None
  end.

(** An unsigned decimal literal: [Infinity], or digits with an optional
    fraction and an optional exponent, at least one digit before or after
    the point. *)
Definition unsigned_decimal (s : string) : number :=
  if (s =? "Infinity")%string then Inf false
  else
    let '(int_part, r1) := span_digits s in
    let '(frac_part, r2) :=
      match r1 with
      | String "." t => span_digits t
      | _ => (EmptyString, r1)
      end in
    if (int_part =? EmptyString)%string && (frac_part =? EmptyString)%string
    then NaN
    else
      match exponent_part r2 with
      | Some e =>
          Fin (rational (inject_Z (digits_value (int_part ++ frac_part))
                         * inject_Z 10 ^ (e - Z.of_nat (String.length frac_part))))
      | None => NaN
      end.

Definition negate (n : number) : number :=
  match n with
  | NaN => NaN
  | Inf negative => Inf (negb negative)
  | Fin q => Fin (- q)%Qc
  end.

(** [StringToNumber]: surrounding white space is dropped; the empty string
    is [0]; a signed decimal literal or an unsigned literal with a radix
    prefix is its value; anything else is [NaN]. *)
Definition string_to_number (s : string) : number :=
  match trim s with
  | EmptyString => Fin 0
  | String "-" t => negate (unsigned_decimal t)
  | String "+" t => unsigned_decimal t
  | String "0" (String c t) as u =>
      if Ascii.eqb c "x" || Ascii.eqb c "X" then radix_literal 16 t
      else if Ascii.eqb c "o" || Ascii.eqb c "O" then radix_literal 8 t
      else if Ascii.eqb c "b" || Ascii.eqb c "B" then radix_literal 2 t
      else unsigned_decimal u
  | u => unsigned_decimal u
  end.

(** [ToNumber] *)
Definition to_number (v : value) : result number :=
  match v with
  | VUndefined => Ok NaN
  | VNull => Ok (Fin 0)
  | VBool true => Ok (Fin 1)
  | VBool false => Ok (Fin 0)
  | VNum n => Ok (Fin n)
  | VStr s => Ok (string_to_number s)
  | VArr _ | VObj _ => rbind (to_string v) (fun s => Ok (string_to_number s))
  end.

(** [a - b] on numbers.  The difference of two doubles is rounded, which
    changes neither its sign nor whether it is zero; a comparator result is
    only ever asked for its sign. *)
Definition sub (a b : number) : number :=
  match a, b with
  | Fin x, Fin y => Fin (x - y)%Qc
  | Fin _, Inf negative => Inf (negb negative)
  | Inf negative, Fin _ => Inf negative
  | Inf n1, Inf n2 => if Bool.eqb n1 n2 then NaN else Inf n1
  | _, _ => NaN
  end.

(** A comparator result asks for a swap only when it is positive; [NaN]
    counts as [0]. *)
Definition positive (c : number) : bool :=
  match c with
  | Fin q => num_ltb 0 q
  | Inf negative => negb negative
  | NaN => false
  end.

(** [v === w] on values of which one at least is not an object. *)
Definition scalar_eq (v w : value) : bool :=
  match v, w with
  | VUndefined, VUndefined => true
  | VNull, VNull => true
  | VBool a, VBool b => Bool.eqb a b
  | VNum a, VNum b => num_eqb a b
  | VStr a, VStr b => (a =? b)%string
  | _, _ => false
  end.

(** What is held at a place of the payload.  Two objects of a payload are
    the same object exactly when they sit at the same place. *)
Record cell : Type := {
  place : nat;
  held : value
}.

(** [a === b], which on the values of a payload is also the equality of
    [Set]: scalars by value, objects and arrays by identity. *)
Definition same_cell (a b : cell) : bool :=
  if scalar (held a) || scalar (held b) then scalar_eq (held a) (held b)
  else (place a =? place b)%nat.

(** [[...new Set(l)]]: the first occurrence of every element, in order. *)
Definition new_Set (l : list cell) : list cell :=
  fold_left
    (fun seen x => if existsb (same_cell x) seen then seen else (seen ++ [x])%list)
    l [].

(** Insertion of [x] in front of a sorted suffix: [x] moves right past the
    elements it must follow, and stays in front of the ones it ties with. *)
Fixpoint insert_by {A} (cmp : A -> A -> result number) (x : A) (l : list A)
  : result (list A) :=
  match l with
  | [] => Ok [x]
  | y :: l' =>
      rbind (cmp x y) (fun c =>
        if positive c
        then rbind (insert_by cmp x l') (fun r => Ok (y :: r))
        else Ok (x :: y :: l'))
  end.

(** [l.sort(cmp)] *)
Fixpoint sort_by {A} (cmp : A -> A -> result number) (l : list A)
  : result (list A) :=
  match l with
  | [] => Ok []
  | x :: l' => rbind (sort_by cmp l') (insert_by cmp x)
  end.

Definition of_comparison (c : comparison) : number :=
  match c with
  | Lt => Fin (-1)
  | Eq => Fin 0
  | Gt => Fin 1
  end.

(** The comparator of [l.sort()] without an argument: compare the string
    forms. *)
Definition default_compare (x y : value) : result number :=
  rbind (to_string x) (fun xs =>
  rbind (to_string y) (fun ys =>
  Ok (of_comparison (String.compare xs ys)))).

(** [l.map((x, i) => f x i)] *)
Fixpoint mapi_from {A B} (i : nat) (f : A -> nat -> B) (l : list A) : list B :=
  match l with
  | [] => []
  | x :: l' => f x i :: mapi_from (S i) f l'
  end.

Definition mapi {A B} (f : A -> nat -> B) (l : list A) : list B :=
  mapi_from 0 f l.

(** [arr[i]] *)
Definition index (arr : list value) (i : nat) : value :=
  nth i arr VUndefined.

End JS.

Export JS.

Notation "'let?' x ':=' c 'in' k" := (rbind c (fun x => k))
  (at level 10, x pattern, c at level 100, k at level 200).
(* ================================================================== *)
(** * Computations with state that may raise *)
(* ================================================================== *)

(** A computation over a state [S]: it returns or raises, and in both cases
    leaves a state behind. *)
Definition M (S A : Type) : Type := S -> result A * S.

Definition ret {S A} (a : A) : M S A := fun s => (Ok a, s).

Definition bind {S A B} (m : M S A) (k : A -> M S B) : M S B :=
  fun s =>
    match m s with
    | (Ok a, s') => k a s'
    | (Throw e, s') => (Throw e, s')
    end.

Definition lift {S A} (r : result A) : M S A := fun s => (r, s).

(** [try { body } catch (e) { handler e }] *)
Definition try_catch {S A} (body : M S A) (handler : exn -> M S A) : M S A :=
  fun s =>
    match body s with
    | (Ok a, s') => (Ok a, s')
    | (Throw e, s') => handler e s'
    end.

Notation "x <- c ;; k" := (bind c (fun x => k))
  (at level 61, c at next level, right associativity).
Notation "c ;; k" := (bind c (fun _ => k))
  (at level 61, right associativity).

(** The ambient state of the page: what was written to the console, and the
    numbers [Math.random] is going to return. *)
Inductive log_level : Type := LogInfo | LogWarn | LogError.

Record world : Type := {
  console : list (log_level * string);
  entropy : nat -> Q;
  drawn : nat
}.

Definition console_write (lvl : log_level) (msg : string) : M world unit :=
  fun w =>
    (Ok tt, {| console := (console w ++ [(lvl, msg)])%list;
               entropy := entropy w;
               drawn := drawn w |}).

Definition console_log := console_write LogInfo.
Definition console_error := console_write LogError.

(** [Math.random()] *)
Definition Math_random : M world Q :=
  fun w =>
    (Ok (entropy w (drawn w)),
     {| console := console w; entropy := entropy w; drawn := S (drawn w) |}).

(* ================================================================== *)
(** * Chart items *)
(* ================================================================== *)

(** A colour is a CSS string.  The [hsla] template of
    [generateDistinctColors] interpolates a computed hue; [Hsla h] stands
    for [hsla(h, 70%, 60%, 0.6)]. *)
Inductive color : Type :=
| Css (s : string)
| Hsla (hue : Q).

Inductive chart_type : Type := Bar | Line.

Record dataset : Type := {
  ds_label : value;
  ds_data : value;
  ds_backgroundColor : option color;
  ds_borderColor : option color;
  ds_fill : option bool
}.

Record chart_data : Type := {
  cd_labels : value;
  cd_datasets : list dataset
}.

Record day_summary : Type := {
  title : string;
  summary : string;
  chat_logs : value
}.

Inductive item : Type :=
| Chart (chart_title : string) (type : chart_type) (data : chart_data)
        (commentary : value)
| SummaryGrid (summaries : list day_summary)
| TextSummaryCard (card_title : string) (card_summary : string).

(* ================================================================== *)
(** * Helper functions of App.js *)
(* ================================================================== *)

Definition isValidArray (arr : value) : bool :=
  is_array arr && (0 <? Z.of_nat (List.length (elems_of arr))).

(** The body of [safeGet] cannot raise: every step is an optional access.
    Its [catch] branch is therefore never entered. *)
Definition safeGet (obj : value) (path : string) (defaultValue : value)
  : value :=
  coalesce (fold_left opt_get (split_on "." path) obj) defaultValue.

Record sorted_bar : Type := {
  sortedLabels : value;
  sortedData : value
}.

(** [(a, b) => b[1] - a[1]] *)
Definition by_value_desc (a b : value * value) : result number :=
  let? y := to_number (snd b) in
  let? x := to_number (snd a) in
  Ok (sub y x).

Definition sortBarData (labels data : value) : result sorted_bar :=
  if negb (isValidArray labels) || negb (isValidArray data)
     || negb (List.length (elems_of labels) =? List.length (elems_of data))%nat
  then Ok {| sortedLabels := or_else labels (VArr []);
             sortedData := or_else data (VArr []) |}
  else
    let pairs :=
      mapi (fun label i => (label, index (elems_of data) i)) (elems_of labels) in
    let? pairs := sort_by by_value_desc pairs in
    Ok {| sortedLabels := VArr (map fst pairs);
          sortedData := VArr (map snd pairs) |}.

Definition rgba (r g b : Z) : color :=
  Css ("rgba(" ++ decimal r ++ ", " ++ decimal g ++ ", " ++ decimal b ++ ", 0.6)").

Definition getRandomColor : M world color :=
  x <- Math_random ;;
  y <- Math_random ;;
  z <- Math_random ;;
  let r := Qfloor (x * 255) in
  let g := Qfloor (y * 255) in
  let b := Qfloor (z * 255) in
  ret (rgba r g b).

Definition generateDistinctColors (count : nat) : list color :=
  let hueStep := (360 / inject_Z (Z.of_nat count))%Q in
  map (fun i => let hue := (inject_Z (Z.of_nat i) * hueStep)%Q in Hsla hue)
      (seq 0 count).

Record grouped : Type := {
  dates : list value;
  datasets : list dataset
}.

Definition no_groups : grouped := {| dates := []; datasets := [] |}.

(** The rows of a list, each at its place. *)
Definition placed (data : list value) : list cell :=
  mapi (fun d i => {| place := i; held := d |}) data.

(** [safeGet(d, field)] for the row [d]: what that row holds in the field,
    at the place of the row. *)
Definition field_cell (field : string) (d : cell) : cell :=
  {| place := place d; held := safeGet (held d) field (VStr EmptyString) |}.

Definition truthy_cell (c : cell) : bool := truthy (held c).

(** [dates.sort()] *)
Definition compare_cells (a b : cell) : result number :=
  default_compare (held a) (held b).

(** The [try] block of [groupBySender]. *)
Definition groupBySender_try (data : list value) (dateField valueField : string)
  : result grouped :=
  let rows := placed data in
  let senders :=
    filter truthy_cell (new_Set (map (field_cell "sender") rows)) in
  let? dates :=
    sort_by compare_cells
      (filter truthy_cell (new_Set (map (field_cell dateField) rows))) in
  let colors := generateDistinctColors (List.length senders) in
  let datasets :=
    mapi (fun sender index =>
      let senderData :=
        filter (fun d => same_cell (field_cell "sender" d) sender) rows in
      let values :=
        map (fun dt =>
          let entry :=
            match find (fun x => same_cell (field_cell dateField x) dt)
                       senderData with
            | Some x => held x
            | None => VUndefined
            end in
          safeGet entry valueField (VNum 0)) dates in
      let color := nth_error colors index in
      {| ds_label := held sender;
         ds_data := VArr values;
         ds_borderColor := color;
         ds_backgroundColor := color;
         ds_fill := Some true |}) senders in
  Ok {| dates := map held dates; datasets := datasets |}.

Definition groupBySender (data : value) (dateField valueField : string)
  : M world grouped :=
  if negb (isValidArray data) then ret no_groups
  else
    try_catch
      (lift (groupBySender_try (elems_of data) dateField valueField))
      (fun error =>
         console_error "Error in groupBySender:" ;;
         ret no_groups).

(* ================================================================== *)
(** * The assembler *)
(* ================================================================== *)

(** Inside the [try] block the state is the array [chartDataSets] built so
    far, next to the ambient world. *)
Definition Build (A : Type) : Type := M (list item * world) A.

(** [chartDataSets.push(it)] *)
Definition push (it : item) : Build unit :=
  fun s => (Ok tt, ((fst s ++ [it])%list, snd s)).

Definition in_world {A} (m : M world A) : Build A :=
  fun s => let '(r, w) := m (snd s) in (r, (fst s, w)).

(** The shape shared by the sorted bar charts:
    [if (isValidArray(analysisData.metric.data)) { ... push ... }]. *)
Definition barChart (analysisData : value)
    (metric labelField valueField chartTitle seriesLabel background : string)
  : Build unit :=
  m <- lift (get_prop analysisData metric) ;;
  d <- lift (get_prop m "data") ;;
  if isValidArray d then
    let labels :=
      map (fun d => safeGet d labelField (VStr EmptyString)) (elems_of d) in
    let values := map (fun d => safeGet d valueField (VNum 0)) (elems_of d) in
    s <- lift (sortBarData (VArr labels) (VArr values)) ;;
    caption <- lift (get_prop m "caption") ;;
    push (Chart chartTitle Bar
            {| cd_labels := sortedLabels s;
               cd_datasets :=
                 [ {| ds_label := VStr seriesLabel;
                      ds_data := sortedData s;
                      ds_backgroundColor := Some (Css background);
                      ds_borderColor := None;
                      ds_fill := None |} ] |}
            caption)
  else ret tt.

(** The shape shared by the unsorted line charts. *)
Definition lineChart (analysisData : value)
    (metric labelField valueField chartTitle seriesLabel border : string)
  : Build unit :=
  m <- lift (get_prop analysisData metric) ;;
  d <- lift (get_prop m "data") ;;
  if isValidArray d then
    caption <- lift (get_prop m "caption") ;;
    push (Chart chartTitle Line
            {| cd_labels :=
                 VArr (map (fun d => safeGet d labelField (VStr EmptyString))
                           (elems_of d));
               cd_datasets :=
                 [ {| ds_label := VStr seriesLabel;
                      ds_data :=
                        VArr (map (fun d => safeGet d valueField (VNum 0))
                                  (elems_of d));
                      ds_backgroundColor := None;
                      ds_borderColor := Some (Css border);
                      ds_fill := Some false |} ] |}
            caption)
  else ret tt.

Definition dayOfWeekChart (analysisData : value) : Build unit :=
  barChart analysisData "day_of_week" "day_of_week" "avg_messages"
    "Average Messages by Day of Week" "Avg Messages by Day of Week"
    "rgba(54, 162, 235, 0.6)".

Definition monthlyMessagesChart (analysisData : value) : Build unit :=
  lineChart analysisData "monthly_messages" "date" "message_count"
    "Monthly Message Count" "Messages per Month" "rgba(255, 99, 132, 1)".

Definition avgMessagesSentChart (analysisData : value) : Build unit :=
  lineChart analysisData "avg_messages_sent" "month" "avg_messages_sent"
    "Average Messages Sent per Month" "Avg Messages per Month"
    "rgba(75, 192, 192, 1)".

Definition quarterlyContributionChart (analysisData : value) : Build unit :=
  m <- lift (get_prop analysisData "quarterly_contribution") ;;
  d <- lift (get_prop m "data") ;;
  if isValidArray d then
    quarterData <- in_world (groupBySender d "date" "message_count") ;;
    if (0 <? Z.of_nat (List.length (dates quarterData)))
       && (0 <? Z.of_nat (List.length (datasets quarterData)))
    then
      caption <- lift (get_prop m "caption") ;;
      push (Chart "Quarterly Message Contribution by Sender" Line
              {| cd_labels := VArr (dates quarterData);
                 cd_datasets := datasets quarterData |}
              caption)
    else ret tt
  else ret tt.

Definition yearlyComparisonChart (analysisData : value) : Build unit :=
  barChart analysisData "yearly_comparison" "sender" "percent_change"
    "Year-Over-Year Message Change" "YoY % Change" "rgba(153, 102, 255, 0.6)".

Definition topTenDaysChart (analysisData : value) : Build unit :=
  barChart analysisData "top_ten_days" "day" "chats"
    "Top 10 Most Active Days" "Number of Messages" "rgba(255, 206, 86, 0.6)".

(** [dayData => ({ title: String(dayData.date || ''),
                   summary: String(dayData.content.summary || ''),
                   chat_logs: dayData.chat_logs || [] })] *)
Definition daySummary (dayData : value) : result day_summary :=
  let? date := get_prop dayData "date" in
  let? title := to_string (or_else date (VStr EmptyString)) in
  let? content := get_prop dayData "content" in
  let? text := get_prop content "summary" in
  let? summary := to_string (or_else text (VStr EmptyString)) in
  let? logs := get_prop dayData "chat_logs" in
  Ok {| title := title; summary := summary; chat_logs := or_else logs (VArr []) |}.

Definition nonempty (s : string) : bool := negb (s =? EmptyString)%string.

Definition daySummariesGrid (analysisData : value) : Build unit :=
  top <- lift (get_prop analysisData "top_ten_days") ;;
  let day_summaries := opt_get top "day_summaries" in
  if truthy day_summaries && is_array day_summaries then
    mapped <- lift (rmap daySummary (elems_of day_summaries)) ;;
    let summaries :=
      filter (fun s => nonempty (title s) && nonempty (summary s)) mapped in
    if 0 <? Z.of_nat (List.length summaries)
    then push (SummaryGrid summaries)
    else ret tt
  else ret tt.

Definition manicChart (analysisData : value) : Build unit :=
  barChart analysisData "manic" "sender" "percent_manic"
    "Most Manic Award" "% Messages (10pm-4am)" "rgba(54, 162, 235, 0.6)".

Definition mostIgnoredChart (analysisData : value) : Build unit :=
  barChart analysisData "most_ignored" "sender" "average_time_to_respond"
    "Most Ignored Member :(" "Average Minutes Until Response"
    "rgba(54, 162, 235, 0.6)".

Definition novelistChart (analysisData : value) : Build unit :=
  barChart analysisData "novelist" "sender" "average_message_length"
    "Groupchat Novelist Award" "Average Characters per Message"
    "rgba(54, 162, 235, 0.6)".

Definition swearsChart (analysisData : value) : Build unit :=
  barChart analysisData "swears" "sender" "swears_per_message"
    "Swear Word Frequency" "Swears per Message" "rgba(255, 99, 132, 0.6)".

Definition hangoutChart (analysisData : value) : Build unit :=
  barChart analysisData "hangout" "sender" "hangouts_per_message"
    "Hangout Discussion Frequency" "Hangout References per Message"
    "rgba(75, 192, 192, 0.6)".

Definition closingCard : item :=
  TextSummaryCard "That's all folks!"
    "We wish you and your groupchat the happiest of New Years! We like to have fun around here but all jokes aside, everyone in the groupchat is special, whether it's the guy who always posts videos you're not going to watch, or the old college bud with three kids that hasn't posted since the last one was born (cute pics though.) Shoot 'em a message and let em know you care. Share this Wrapped. Help us keep the lights on <3".

(** The charts that come before the closing card, in source order. *)
Definition metricCharts (analysisData : value) : Build unit :=
  dayOfWeekChart analysisData ;;
  monthlyMessagesChart analysisData ;;
  avgMessagesSentChart analysisData ;;
  quarterlyContributionChart analysisData ;;
  yearlyComparisonChart analysisData ;;
  topTenDaysChart analysisData ;;
  daySummariesGrid analysisData ;;
  manicChart analysisData ;;
  mostIgnoredChart analysisData ;;
  novelistChart analysisData ;;
  swearsChart analysisData ;;
  hangoutChart analysisData.

(** The [try] block of [buildChartDataSets]: the closing card is pushed
    inside it, after the last chart. *)
Definition buildChartDataSets_try (analysisData : value) : Build unit :=
  metricCharts analysisData ;;
  push closingCard.

Definition buildChartDataSets (analysisData : value) : M world (list item) :=
  if negb (truthy analysisData) then ret []
  else
    fun w =>
      let '(_, (chartDataSets, w')) :=
        try_catch
          (buildChartDataSets_try analysisData)
          (fun error => in_world (console_error "Error building chart datasets:"))
          ([], w) in
      (Ok chartDataSets, w').

(** The value a computation returns, when it returns. *)
Definition returned {S A} (m : M S A) (s : S) (default : A) : A :=
  match fst (m s) with
  | Ok a => a
  | Throw _ => default
  end.

(* ================================================================== *)
(** * The App component: state, handlers, render *)
(* ================================================================== *)

Inductive phase_t : Type :=
| PhUpload
| PhLoading
| PhVisualize
| PhError.

(** The [useState] cells of [App] that the handlers below read or write.
    [error] is [None] for [null]. *)
Record app_state : Type := {
  phase : phase_t;
  analysisData : value;
  selectedYear : value;
  transcript : value;
  currentChartIndex : Z;
  isScrolling : bool;
  error : option string
}.

Definition initial_state : app_state :=
  {| phase := PhUpload;
     analysisData := VNull;
     selectedYear := VNull;
     transcript := VNull;
     currentChartIndex := 0;
     isScrolling := false;
     error := None |}.

Definition setPhase (p : phase_t) (st : app_state) : app_state :=
  {| phase := p; analysisData := analysisData st; selectedYear := selectedYear st;
     transcript := transcript st; currentChartIndex := currentChartIndex st;
     isScrolling := isScrolling st; error := error st |}.

Definition setAnalysisData (v : value) (st : app_state) : app_state :=
  {| phase := phase st; analysisData := v; selectedYear := selectedYear st;
     transcript := transcript st; currentChartIndex := currentChartIndex st;
     isScrolling := isScrolling st; error := error st |}.

Definition setSelectedYear (y : value) (st : app_state) : app_state :=
  {| phase := phase st; analysisData := analysisData st; selectedYear := y;
     transcript := transcript st; currentChartIndex := currentChartIndex st;
     isScrolling := isScrolling st; error := error st |}.

(** [setCurrentChartIndex] with a constant or with an updater [prev => ...]. *)
Definition setCurrentChartIndex (f : Z -> Z) (st : app_state) : app_state :=
  {| phase := phase st; analysisData := analysisData st;
     selectedYear := selectedYear st; transcript := transcript st;
     currentChartIndex := f (currentChartIndex st);
     isScrolling := isScrolling st; error := error st |}.

Definition setIsScrolling (b : bool) (st : app_state) : app_state :=
  {| phase := phase st; analysisData := analysisData st;
     selectedYear := selectedYear st; transcript := transcript st;
     currentChartIndex := currentChartIndex st;
     isScrolling := b; error := error st |}.

Definition setError (msg : string) (st : app_state) : app_state :=
  {| phase := phase st; analysisData := analysisData st;
     selectedYear := selectedYear st; transcript := transcript st;
     currentChartIndex := currentChartIndex st;
     isScrolling := isScrolling st; error := Some msg |}.

(** What [await fetch(...)] followed by [await response.json()] can do. *)
Inductive body_t : Type :=
| Json (v : value)
| Malformed.

Inductive fetch_outcome : Type :=
| Rejected
| Response (ok : bool) (body : body_t).

(** The part of [handleYearChange] before the first [await]. *)
Definition handleYearChange_begin (year : value) (st : app_state)
  : M world app_state :=
  console_log "Year selected:" ;;
  ret (setPhase PhLoading (setSelectedYear year st)).

(** The [try] block of [handleYearChange], once the request has settled. *)
Definition handleYearChange_try (outcome : fetch_outcome) (st : app_state)
  : M world app_state :=
  match outcome with
  | Rejected => lift (Throw TypeError)
  | Response ok body =>
      if negb ok
      then lift (Throw (Error "Failed to fetch analysis data for year"))
      else
        match body with
        | Malformed => lift (Throw SyntaxError)
        | Json json =>
            console_log "Analysis data for selected year:" ;;
            ret (setCurrentChartIndex (fun _ => 0)
                   (setPhase PhVisualize (setAnalysisData json st)))
        end
  end.

Definition handleYearChange_settle (outcome : fetch_outcome) (st : app_state)
  : M world app_state :=
  try_catch
    (handleYearChange_try outcome st)
    (fun error =>
       console_error "Error fetching data for year:" ;;
       ret (setPhase PhError (setError "Failed to fetch data for year" st))).

Definition handleYearChange (year : value) (outcome : fetch_outcome)
    (st : app_state) : M world app_state :=
  st' <- handleYearChange_begin year st ;;
  handleYearChange_settle outcome st'.

(** [Math.max(0, Math.min(currentChartIndex, chartDataSets.length - 1))] *)
Definition safeCurrentIndex (currentChartIndex length : Z) : Z :=
  Z.max 0 (Z.min currentChartIndex (length - 1)).

Inductive view : Type :=
| UploadScreen (message : option string)
| LoadingScreen
| NoDataScreen
| Visualization (index : Z) (currentItem : option item)
                (showScrollIndicator : bool) (count : Z)
| ErrorScreen (message : string).

(** The render logic of [App], by phase. *)
Definition render (st : app_state) : M world view :=
  match phase st with
  | PhUpload => ret (UploadScreen (error st))
  | PhLoading => ret LoadingScreen
  | PhVisualize =>
      chartDataSets <- buildChartDataSets (analysisData st) ;;
      let length := Z.of_nat (List.length chartDataSets) in
      if length =? 0 then ret NoDataScreen
      else
        let safe := safeCurrentIndex (currentChartIndex st) length in
        ret (Visualization safe
               (nth_error chartDataSets (Z.to_nat safe))
               (safe <? length - 1)
               length)
  | PhError =>
      ret (ErrorScreen (match error st with
                        | Some msg => if nonempty msg then msg
                                      else "An error occurred."
                        | None => "An error occurred."
                        end))
  end.

(** [App] between two events: the [useState] cells, with every update
    applied so far, and the state the last render read.  The handlers that
    render installed close over what it read ([seen]); their updates go to
    the cells. *)
Record page : Type := {
  cells : app_state;
  seen : app_state
}.

(** The page right after a render of the state [st]. *)
Definition rendered (st : app_state) : page := {| cells := st; seen := st |}.

(** What can happen to the cursor: a wheel event with its [deltaY], the
    expiry of a 700 ms timer armed by an accepted wheel event, and a
    re-render of the component. *)
Inductive scroll_event : Type :=
| Wheel (deltaY : Q)
| DebounceElapsed
| Render.

(** [handleScroll]: the guards read [isScrolling], [analysisData] and
    [currentChartIndex] as the handler's render saw them; [setIsScrolling]
    and the updaters [prev => prev + 1], [prev => prev - 1] act on the
    cells. *)
Definition handleScroll (deltaY : Q) (seen st : app_state) : M world app_state :=
  if isScrolling seen || negb (truthy (analysisData seen)) then ret st
  else
    chartDataSets <- buildChartDataSets (analysisData seen) ;;
    let length := Z.of_nat (List.length chartDataSets) in
    if length =? 0 then ret st
    else
      let st := setIsScrolling true st in
      if negb (Qle_bool deltaY 0) && (currentChartIndex seen <? length - 1)
      then ret (setCurrentChartIndex (fun prev => prev + 1) st)
      else if negb (Qle_bool 0 deltaY) && (0 <? currentChartIndex seen)
      then ret (setCurrentChartIndex (fun prev => prev - 1) st)
      else ret st.

Definition step (ev : scroll_event) (pg : page) : M world page :=
  match ev with
  | Wheel deltaY =>
      st <- handleScroll deltaY (seen pg) (cells pg) ;;
      ret {| cells := st; seen := seen pg |}
  | DebounceElapsed =>
      ret {| cells := setIsScrolling false (cells pg); seen := seen pg |}
  | Render =>
      render (cells pg) ;;
      ret (rendered (cells pg))
  end.

Fixpoint run (evs : list scroll_event) (pg : page) : M world page :=
  match evs with
  | [] => ret pg
  | ev :: evs' => pg' <- step ev pg ;; run evs' pg'
  end.

(* ================================================================== *)
(** * Vocabulary of the statements *)
(* ================================================================== *)

(** The world a page starts in; any world would do, see
    [buildChartDataSets_returns]. *)
Definition blank_world : world :=
  {| console := []; entropy := fun _ => 0%Q; drawn := 0%nat |}.

(** The sequence the assembler returns for a payload. *)
Definition assemble (analysisData : value) : list item :=
  returned (buildChartDataSets analysisData) blank_world [].

(** Stable insertion sort with a comparator that cannot raise: [after x y]
    says that [x] has to come after [y]. *)
Section PureSort.
Context {A : Type}.
Variable after : A -> A -> bool.

Fixpoint insert (x : A) (l : list A) : list A :=
  match l with
  | [] => [x]
  | y :: l' => if after x y then y :: insert x l' else x :: y :: l'
  end.

Fixpoint isort (l : list A) : list A :=
  match l with
  | [] => []
  | x :: l' => insert x (isort l')
  end.

(** [x] may stand in front of [y]. *)
Definition before (x y : A) : Prop := after x y = false.
End PureSort.

(** The metric keys the assembler reads. *)
Definition metric_keys : list string :=
  [ "day_of_week"; "monthly_messages"; "avg_messages_sent";
    "quarterly_contribution"; "yearly_comparison"; "top_ten_days";
    "manic"; "most_ignored"; "novelist"; "swears"; "hangout" ].

(** Two worlds agree on the random numbers still to come. *)
Definition same_random (w w' : world) : Prop :=
  entropy w = entropy w' /\ drawn w = drawn w'.

(** A computation whose outcome does not depend on the world it starts in,
    and which draws no random number. *)
Definition world_blind {A} (m : M world A) : Prop :=
  forall w1 w2,
    fst (m w1) = fst (m w2) /\ same_random w1 (snd (m w1)).

(** The same for a computation of the [try] block of the assembler, whose
    state also holds the items pushed so far. *)
Definition blind {A} (m : Build A) : Prop :=
  forall ds w1 w2,
    fst (m (ds, w1)) = fst (m (ds, w2))
    /\ fst (snd (m (ds, w1))) = fst (snd (m (ds, w2)))
    /\ same_random w1 (snd (snd (m (ds, w1)))).

(** ** Sample payloads *)

Definition row (fields : list (string * value)) : value := VObj fields.

(** [{day_of_week: {data: [{day_of_week: "Mon", avg_messages: 5},
                           {day_of_week: "Tue", avg_messages: 10}]}}] *)
Definition payload_day_of_week_only : value :=
  VObj [ ("day_of_week",
          VObj [ ("data",
                  VArr [ row [ ("day_of_week", VStr "Mon");
                               ("avg_messages", VNum 5) ];
                         row [ ("day_of_week", VStr "Tue");
                               ("avg_messages", VNum 10) ] ]) ]) ].

(** Every metric other than [day_of_week], each present; only
    [monthly_messages] has rows. *)
Definition other_metrics : list (string * value) :=
  [ ("monthly_messages",
     VObj [ ("data",
             VArr [ row [("date", VStr "2024-01"); ("message_count", VNum 42)] ]);
            ("caption", VStr "A busy January") ]);
    ("avg_messages_sent", VObj []);
    ("quarterly_contribution", VObj []);
    ("yearly_comparison", VObj []);
    ("top_ten_days", VObj []);
    ("manic", VObj []);
    ("most_ignored", VObj []);
    ("novelist", VObj []);
    ("swears", VObj []);
    ("hangout", VObj []) ].

(** The payload in which the key [day_of_week] is absent, and the one in
    which it is present with an empty row list. *)
Definition payload_without_day_of_week : value := VObj other_metrics.

Definition payload_with_empty_day_of_week : value :=
  VObj (("day_of_week", VObj [("data", VArr [])]) :: other_metrics).

Definition monthlyMessagesItem : item :=
  Chart "Monthly Message Count" Line
    {| cd_labels := VArr [VStr "2024-01"];
       cd_datasets :=
         [ {| ds_label := VStr "Messages per Month";
              ds_data := VArr [VNum 42];
              ds_backgroundColor := None;
              ds_borderColor := Some (Css "rgba(255, 99, 132, 1)");
              ds_fill := Some false |} ] |}
    (VStr "A busy January").

(** Every metric key present, none with rows. *)
Definition payload_all_empty : value :=
  VObj (map (fun k => (k, VObj [("data", VArr [])])) metric_keys).

(** A key is present when reading it gives neither [undefined] nor [null]. *)
Definition present (analysisData : value) (k : string) : bool :=
  negb (nullish (opt_get analysisData k)).

(** The rows of a metric, as the assembler's guard sees them. *)
Definition has_rows (analysisData : value) (k : string) : bool :=
  isValidArray (opt_get (opt_get analysisData k) "data").

(** The [try] block ran to its end: no exception reached the handler. *)
Definition completes (analysisData : value) (w : world) : Prop :=
  fst (buildChartDataSets_try analysisData ([], w)) = Ok tt.

(** ** Numeric series *)

(** A label with its numeric value, and the same pair as [sortBarData]
    sees it. *)
Definition numeric (p : value * Qc) : value * value := (fst p, VNum (snd p)).

(** In a descending sort a pair has to come after every pair of strictly
    greater value. *)
Definition smaller (a b : value * Qc) : bool := num_ltb (snd a) (snd b).

Definition has_value (v : Qc) (p : value * Qc) : bool := num_eqb (snd p) v.

(** ** Navigation *)

(** [chartDataSets.length] for the payload a state holds. *)
Definition item_count (st : app_state) : Z :=
  Z.of_nat (List.length (assemble (analysisData st))).

(** A wheel event is accepted when its handler saw no scroll in flight and
    a payload that yields items. *)
Definition accepts (seen : app_state) : bool :=
  negb (isScrolling seen || negb (truthy (analysisData seen))
        || (item_count seen =? 0)).

(** The step an accepted wheel event takes: forward, backward or none,
    decided on the cursor its handler saw. *)
Definition direction (deltaY : Q) (seen : app_state) : Z :=
  if negb (Qle_bool deltaY 0) && (currentChartIndex seen <? item_count seen - 1)
  then 1
  else if negb (Qle_bool 0 deltaY) && (0 <? currentChartIndex seen)
  then -1
  else 0.

(** The events of a list, each followed by a re-render. *)
Definition with_renders (evs : list scroll_event) : list scroll_event :=
  flat_map (fun ev => [ev; Render]) evs.

(** The state right after a successful upload of [payload]. *)
Definition visualizing (payload : value) : app_state :=
  {| phase := PhVisualize;
     analysisData := payload;
     selectedYear := VNum 2024;
     transcript := VStr "1/1/24, 10:00 - al: happy new year";
     currentChartIndex := 0;
     isScrolling := false;
     error := None |}.

(** ** Grouping by sender *)

Definition sender_of (d : value) : value :=
  safeGet d "sender" (VStr EmptyString).

Definition date_of (d : value) : value := safeGet d "date" (VStr EmptyString).

(** The order of [dates.sort()]: both values have a string form, and the
    first one's does not come after the second one's. *)
Definition date_le (a b : value) : Prop :=
  exists sa sb,
    to_string a = Ok sa /\ to_string b = Ok sb /\ String.compare sa sb <> Gt.

(** The sender and the date of a row, at the place of the row. *)
Definition sender_cell (d : cell) : cell := field_cell "sender" d.

Definition date_cell (d : cell) : cell := field_cell "date" d.

(** [String(v)] returns. *)
Definition has_string_form (v : value) : bool :=
  match to_string v with
  | Ok _ => true
  | Throw _ => false
  end.

(** [picked] holds the distinct truthy values among [all], each once: no
    two of its cells are the same value, each is a truthy cell of [all],
    and every truthy cell of [all] is the same value as one of them. *)
Definition distinct_truthy (all picked : list cell) : Prop :=
  ForallOrdPairs (fun a b => same_cell a b = false) picked
  /\ (forall c, In c picked -> In c all /\ truthy (held c) = true)
  /\ (forall c, In c all -> truthy (held c) = true ->
                exists c', In c' picked /\ same_cell c c' = true).

(** A sort by string form raises when there is something to compare and
    one of the values has no string form. *)
Definition sort_raises (l : list cell) : bool :=
  (2 <=? List.length l)%nat
  && negb (forallb (fun c => has_string_form (held c)) l).

(** The point of the series of [sender] at the date [dt]: the value field
    of the first row with that sender and that date, [0] without one. *)
Definition point (rows : list cell) (dateField valueField : string)
    (sender dt : cell) : value :=
  let senderData :=
    filter (fun d => same_cell (field_cell "sender" d) sender) rows in
  let entry :=
    match find (fun x => same_cell (field_cell dateField x) dt) senderData with
    | Some x => held x
    | None => VUndefined
    end in
  safeGet entry valueField (VNum 0).

(** One step of the construction of a [Set]. *)
Definition set_add (seen : list cell) (x : cell) : list cell :=
  if existsb (same_cell x) seen then seen else (seen ++ [x])%list.

(** Two quarterly rows, the first with an empty sender. *)
Definition rows_with_empty_sender : list value :=
  [ row [ ("sender", VStr EmptyString); ("date", VStr "2024-01");
          ("message_count", VNum 3) ];
    row [ ("sender", VStr "al"); ("date", VStr "2024-04");
          ("message_count", VNum 7) ] ].

(** ** Payloads on which assembly cannot raise *)

(** The sorted metrics, each with the field its values are read from. *)
Definition bar_metrics : list (string * string) :=
  [ ("day_of_week", "avg_messages"); ("yearly_comparison", "percent_change");
    ("top_ten_days", "chats"); ("manic", "percent_manic");
    ("most_ignored", "average_time_to_respond");
    ("novelist", "average_message_length");
    ("swears", "swears_per_message"); ("hangout", "hangouts_per_message") ].

Definition rows_of (analysisData : value) (k : string) : list value :=
  elems_of (opt_get (opt_get analysisData k) "data").

Definition day_summaries_of (analysisData : value) : list value :=
  elems_of (opt_get (opt_get analysisData "top_ten_days") "day_summaries").

(** A day summary that can be read: it is not null, its [content] is not
    null, and its date and the summary of its content are falsy or have a
    string form. *)
Definition day_ok (dayData : value) : bool :=
  negb (nullish dayData)
  && negb (nullish (opt_get dayData "content"))
  && has_string_form (or_else (opt_get dayData "date") (VStr EmptyString))
  && has_string_form
       (or_else (opt_get (opt_get dayData "content") "summary")
                (VStr EmptyString)).

(** The payload is not falsy, every metric key is present (not null), the
    values to be sorted are scalars, and every day summary can be read. *)
Definition well_formed (analysisData : value) : bool :=
  truthy analysisData
  && forallb (present analysisData) metric_keys
  && forallb (fun m => forallb (fun d => scalar (safeGet d (snd m) (VNum 0)))
                               (rows_of analysisData (fst m)))
             bar_metrics
  && forallb day_ok (day_summaries_of analysisData).

(** A block of the assembler that returns from every state. *)
Definition succeeds (m : Build unit) : Prop :=
  forall s, exists s', m s = (Ok tt, s').

(** Four quarterly rows of two senders over two quarters, one row without a
    sender. *)
Definition quarterly_rows : list value :=
  [ row [ ("sender", VStr "bo"); ("date", VStr "2024-04");
          ("message_count", VNum 3) ];
    row [ ("sender", VStr "al"); ("date", VStr "2024-01");
          ("message_count", VNum 7) ];
    row [ ("date", VStr "2024-07"); ("message_count", VNum 9) ];
    row [ ("sender", VStr "bo"); ("date", VStr "2024-01");
          ("message_count", VNum 1) ] ].

(** ** Paths *)

(** A key without a dot is a path of one segment. *)
Fixpoint dot_free (s : string) : bool :=
  match s with
  | EmptyString => true
  | String c s' => negb (Ascii.eqb c ".") && dot_free s'
  end.

(** The values at which the comparator of [sortBarData] is never positive:
    they coerce to [NaN]. *)
Definition not_a_number (v : value) : Prop := to_number v = Ok NaN.

(** ** Colours *)

(** The hue of the [i]-th of [count] colours, as the source computes it. *)
Definition hue_of (count i : nat) : Q :=
  (inject_Z (Z.of_nat i) * (360 / inject_Z (Z.of_nat count)))%Q.

Definition is_prefix {A} (l m : list A) : Prop := exists extra, m = (l ++ extra)%list.

(** ** Shape of the assembled sequence *)

(** What an item is: the title of a chart or card, or the grid. *)
Definition item_name (it : item) : string :=
  match it with
  | Chart t _ _ _ => t
  | SummaryGrid _ => "SummaryGrid"
  | TextSummaryCard t _ => t
  end.

(** The items in the order of the blocks of the assembler. *)
Definition fixed_order : list string :=
  [ "Average Messages by Day of Week"; "Monthly Message Count";
    "Average Messages Sent per Month";
    "Quarterly Message Contribution by Sender";
    "Year-Over-Year Message Change"; "Top 10 Most Active Days";
    "SummaryGrid"; "Most Manic Award"; "Most Ignored Member :(";
    "Groupchat Novelist Award"; "Swear Word Frequency";
    "Hangout Discussion Frequency"; "That's all folks!" ].

Fixpoint index_of (s : string) (l : list string) : nat :=
  match l with
  | [] => 0
  | x :: l' => if (s =? x)%string then 0 else S (index_of s l')
  end.

(** The position of an item in the fixed order (13 for a foreign item). *)
Definition slot (it : item) : nat := index_of (item_name it) fixed_order.

(** A series that a chart can draw: its values are an array as long as the
    labels. *)
Definition series_ok (n : nat) (ds : dataset) : Prop :=
  exists values, ds_data ds = VArr values /\ List.length values = n.

(** An item that is not an empty placeholder: a chart has at least one
    label, at least one series, and every series has one value per label; a
    grid has at least one day, and every day has a title and a summary; a
    card has a text. *)
Definition item_ok (it : item) : Prop :=
  match it with
  | Chart _ _ d _ =>
      exists ls,
        cd_labels d = VArr ls /\ ls <> [] /\ cd_datasets d <> []
        /\ Forall (series_ok (List.length ls)) (cd_datasets d)
  | SummaryGrid ss =>
      ss <> []
      /\ Forall (fun s => title s <> EmptyString /\ summary s <> EmptyString) ss
  | TextSummaryCard _ s => s <> EmptyString
  end.

(** What holds of the items pushed before the block of slot [k] runs. *)
Definition pushed_before (k : nat) (ds : list item) : Prop :=
  StronglySorted lt (map slot ds)
  /\ Forall (fun it => (slot it < k)%nat /\ item_ok it) ds.

(** A block that pushes nothing, or one well-formed item of slot [k]. *)
Definition emits (k : nat) (m : Build unit) : Prop :=
  forall s,
    fst (snd (m s)) = fst s
    \/ exists it,
         fst (snd (m s)) = (fst s ++ [it])%list /\ slot it = k /\ item_ok it.

(** A computation that takes the state from before slot [a] to before slot
    [b], whether it returns or raises. *)
Definition advances (a b : nat) (m : Build unit) : Prop :=
  forall s, pushed_before a (fst s) -> pushed_before b (fst (snd (m s))).

(** ** The blocks of the assembler, one by one *)

(** Blocks run one after the other; the first that raises ends the run. *)
Fixpoint chain (blocks : list (Build unit)) : Build unit :=
  match blocks with
  | [] => ret tt
  | [b] => b
  | b :: rest => b ;; chain rest
  end.

Definition blocks (analysisData : value) : list (Build unit) :=
  [ dayOfWeekChart analysisData; monthlyMessagesChart analysisData;
    avgMessagesSentChart analysisData; quarterlyContributionChart analysisData;
    yearlyComparisonChart analysisData; topTenDaysChart analysisData;
    daySummariesGrid analysisData; manicChart analysisData;
    mostIgnoredChart analysisData; novelistChart analysisData;
    swearsChart analysisData; hangoutChart analysisData ].

(** The constants of a chart block: metric key, label field, value field,
    title, series label, colour. *)
Record chart_spec : Type := {
  cs_metric : string;
  cs_labelField : string;
  cs_valueField : string;
  cs_title : string;
  cs_seriesLabel : string;
  cs_colour : string
}.

Definition bar_specs : list chart_spec :=
  [ {| cs_metric := "day_of_week"; cs_labelField := "day_of_week";
       cs_valueField := "avg_messages";
       cs_title := "Average Messages by Day of Week";
       cs_seriesLabel := "Avg Messages by Day of Week";
       cs_colour := "rgba(54, 162, 235, 0.6)" |};
    {| cs_metric := "yearly_comparison"; cs_labelField := "sender";
       cs_valueField := "percent_change";
       cs_title := "Year-Over-Year Message Change";
       cs_seriesLabel := "YoY % Change";
       cs_colour := "rgba(153, 102, 255, 0.6)" |};
    {| cs_metric := "top_ten_days"; cs_labelField := "day";
       cs_valueField := "chats";
       cs_title := "Top 10 Most Active Days";
       cs_seriesLabel := "Number of Messages";
       cs_colour := "rgba(255, 206, 86, 0.6)" |};
    {| cs_metric := "manic"; cs_labelField := "sender";
       cs_valueField := "percent_manic";
       cs_title := "Most Manic Award";
       cs_seriesLabel := "% Messages (10pm-4am)";
       cs_colour := "rgba(54, 162, 235, 0.6)" |};
    {| cs_metric := "most_ignored"; cs_labelField := "sender";
       cs_valueField := "average_time_to_respond";
       cs_title := "Most Ignored Member :(";
       cs_seriesLabel := "Average Minutes Until Response";
       cs_colour := "rgba(54, 162, 235, 0.6)" |};
    {| cs_metric := "novelist"; cs_labelField := "sender";
       cs_valueField := "average_message_length";
       cs_title := "Groupchat Novelist Award";
       cs_seriesLabel := "Average Characters per Message";
       cs_colour := "rgba(54, 162, 235, 0.6)" |};
    {| cs_metric := "swears"; cs_labelField := "sender";
       cs_valueField := "swears_per_message";
       cs_title := "Swear Word Frequency";
       cs_seriesLabel := "Swears per Message";
       cs_colour := "rgba(255, 99, 132, 0.6)" |};
    {| cs_metric := "hangout"; cs_labelField := "sender";
       cs_valueField := "hangouts_per_message";
       cs_title := "Hangout Discussion Frequency";
       cs_seriesLabel := "Hangout References per Message";
       cs_colour := "rgba(75, 192, 192, 0.6)" |} ].

Definition line_specs : list chart_spec :=
  [ {| cs_metric := "monthly_messages"; cs_labelField := "date";
       cs_valueField := "message_count";
       cs_title := "Monthly Message Count";
       cs_seriesLabel := "Messages per Month";
       cs_colour := "rgba(255, 99, 132, 1)" |};
    {| cs_metric := "avg_messages_sent"; cs_labelField := "month";
       cs_valueField := "avg_messages_sent";
       cs_title := "Average Messages Sent per Month";
       cs_seriesLabel := "Avg Messages per Month";
       cs_colour := "rgba(75, 192, 192, 1)" |} ].

Definition barChartOf (analysisData : value) (s : chart_spec) : Build unit :=
  barChart analysisData (cs_metric s) (cs_labelField s) (cs_valueField s)
    (cs_title s) (cs_seriesLabel s) (cs_colour s).

Definition lineChartOf (analysisData : value) (s : chart_spec) : Build unit :=
  lineChart analysisData (cs_metric s) (cs_labelField s) (cs_valueField s)
    (cs_title s) (cs_seriesLabel s) (cs_colour s).

(** The labels and the values of a metric's rows, in row order. *)
Definition labels_of (analysisData : value) (s : chart_spec) : list value :=
  map (fun d => safeGet d (cs_labelField s) (VStr EmptyString))
      (rows_of analysisData (cs_metric s)).

Definition values_of (analysisData : value) (s : chart_spec) : list value :=
  map (fun d => safeGet d (cs_valueField s) (VNum 0))
      (rows_of analysisData (cs_metric s)).

(** A block that only ever appends to the items pushed so far. *)
Definition keeps (m : Build unit) : Prop :=
  forall s, is_prefix (fst s) (fst (snd (m s))).

(** A payload with every metric key: rows for four metrics, and three day
    summaries of which the second has no text. *)
Definition payload_full : value :=
  VObj
    [ ("day_of_week",
       VObj [ ("data",
               VArr [ row [("day_of_week", VStr "Mon"); ("avg_messages", VNum 5)];
                      row [("day_of_week", VStr "Tue"); ("avg_messages", VNum 10)] ]);
              ("caption", VStr "Tuesdays are loud") ]);
      ("monthly_messages",
       VObj [ ("data",
               VArr [ row [("date", VStr "2024-02"); ("message_count", VNum 42)];
                      row [("date", VStr "2024-01"); ("message_count", VNum 17)] ]) ]);
      ("avg_messages_sent", VObj []);
      ("quarterly_contribution", VObj [("data", VArr quarterly_rows)]);
      ("yearly_comparison", VObj []);
      ("top_ten_days",
       VObj [ ("data",
               VArr [ row [("day", VStr "2024-03-09"); ("chats", VNum 5)];
                      row [("day", VStr "2024-07-04"); ("chats", VNum 9)];
                      row [("day", VStr "2024-05-01"); ("chats", VNum 5)] ]);
              ("day_summaries",
               VArr [ row [ ("date", VStr "2024-03-09");
                            ("content", row [("summary", VStr "The trip was planned.")]);
                            ("chat_logs",
                             VArr [ row [ ("sender", VStr "al");
                                          ("date", VStr "2024-03-09 10:00");
                                          ("message", VStr "who is in?") ] ]) ];
                      row [ ("date", VStr "2024-05-01");
                            ("content", row [("summary", VStr EmptyString)]) ];
                      row [ ("date", VStr "2024-07-04");
                            ("content", row [("summary", VStr "Fireworks.")]) ] ]) ]);
      ("manic", VObj []);
      ("most_ignored", VObj []);
      ("novelist", VObj []);
      ("swears", VObj []);
      ("hangout", VObj []) ].

Definition top_ten_days_spec : chart_spec :=
  {| cs_metric := "top_ten_days"; cs_labelField := "day";
     cs_valueField := "chats";
     cs_title := "Top 10 Most Active Days";
     cs_seriesLabel := "Number of Messages";
     cs_colour := "rgba(255, 206, 86, 0.6)" |}.

Definition manic_spec : chart_spec :=
  {| cs_metric := "manic"; cs_labelField := "sender";
     cs_valueField := "percent_manic";
     cs_title := "Most Manic Award";
     cs_seriesLabel := "% Messages (10pm-4am)";
     cs_colour := "rgba(54, 162, 235, 0.6)" |}.

(** Every metric key present; only [manic] has rows, with the share of
    night-time messages of three senders: 12.5, 31.25 and 12.5 per cent. *)
Definition payload_with_ratios : value :=
  VObj (map (fun k =>
               (k, if (k =? "manic")%string
                   then VObj [ ("data",
                                VArr [ row [ ("sender", VStr "al");
                                             ("percent_manic", VNum (rational 12.5)) ];
                                       row [ ("sender", VStr "bo");
                                             ("percent_manic", VNum (rational 31.25)) ];
                                       row [ ("sender", VStr "cy");
                                             ("percent_manic", VNum (rational 12.5)) ] ]) ]
                   else VObj [("data", VArr [])]))
            metric_keys).

Definition monthly_messages_spec : chart_spec :=
  {| cs_metric := "monthly_messages"; cs_labelField := "date";
     cs_valueField := "message_count";
     cs_title := "Monthly Message Count";
     cs_seriesLabel := "Messages per Month";
     cs_colour := "rgba(255, 99, 132, 1)" |}.

(** ** The day drawer *)

(** The two [useState] cells of the drawer. *)
Record drawer : Type := {
  drawerOpen : bool;
  dayLogs : value
}.

Definition is_grid (c : item) : bool :=
  match c with
  | SummaryGrid _ => true
  | _ => false
  end.

(** [handleDaySummaryClick]: the grid is looked up in a fresh assembly of
    the payload, and the index is the position of the card in that grid. *)
Definition handleDaySummaryClick
    (dayIndex : nat) (analysisData : value) (dr : drawer) : M world drawer :=
  chartDataSets <- buildChartDataSets analysisData ;;
  match find is_grid chartDataSets with
  | Some (SummaryGrid summaries) =>
      match nth_error summaries dayIndex with
      | Some s =>
          let logsForDay := or_else (chat_logs s) (VArr []) in
          console_log "Opening drawer with logs:" ;;
          ret {| drawerOpen := true; dayLogs := logsForDay |}
      | None => ret dr
      end
  | _ => ret dr
  end.

(** The cells of a state that scrolling has no business with. *)
Definition same_session (st st' : app_state) : Prop :=
  phase st' = phase st
  /\ analysisData st' = analysisData st
  /\ selectedYear st' = selectedYear st
  /\ transcript st' = transcript st
  /\ error st' = error st.

(** ** File upload *)

(** The state of [App] during ingestion: the cells of [app_state], the
    list of years, and the selected file (by name). *)
Record upload_state : Type := {
  app : app_state;
  availableYears : value;
  selectedFile : option string
}.

Definition setTranscript (t : value) (st : app_state) : app_state :=
  {| phase := phase st; analysisData := analysisData st;
     selectedYear := selectedYear st; transcript := t;
     currentChartIndex := currentChartIndex st;
     isScrolling := isScrolling st; error := error st |}.

(** A handler whose state updates survive an exception. *)
Definition Upload (A : Type) : Type := M (upload_state * world) A.

Definition update (f : app_state -> app_state) : Upload unit :=
  fun s =>
    (Ok tt, ({| app := f (app (fst s));
                availableYears := availableYears (fst s);
                selectedFile := selectedFile (fst s) |}, snd s)).

Definition setAvailableYears (years : value) : Upload unit :=
  fun s =>
    (Ok tt, ({| app := app (fst s);
                availableYears := years;
                selectedFile := selectedFile (fst s) |}, snd s)).

Definition with_world {S A} (m : M world A) : M (S * world) A :=
  fun s => let '(r, w) := m (snd s) in (r, (fst s, w)).

Definition console_warn := console_write LogWarn.

(** [handleFileChange]: the first of the chosen files, if any, becomes the
    selected file. *)
Definition handleFileChange (files : list string) (st : upload_state)
  : upload_state :=
  match files with
  | f :: _ =>
      {| app := app st; availableYears := availableYears st;
         selectedFile := Some f |}
  | [] => st
  end.

(** [await fetch(...)], the [ok] check, and [await response.json()]. *)
Definition fetch_json (outcome : fetch_outcome) (not_ok : string) : Upload value :=
  match outcome with
  | Rejected => lift (Throw TypeError)
  | Response ok body =>
      if negb ok then lift (Throw (Error not_ok))
      else match body with
           | Malformed => lift (Throw SyntaxError)
           | Json v => ret v
           end
  end.

Inductive read_outcome : Type :=
| ReadOk (text : string)
| ReadError.

(** The [try] block of [reader.onload]. *)
Definition onload_try (fileTranscript : string) (years analysis : fetch_outcome)
  : Upload unit :=
  update (setTranscript (VStr fileTranscript)) ;;
  yearsJson <- fetch_json years "Available years fetch not ok" ;;
  available_years <- lift (get_prop yearsJson "available_years") ;;
  with_world (console_log "Available years received:") ;;
  with_world (console_log "Full response:") ;;
  with_world (console_log "Type of yearsJson.available_years:") ;;
  with_world (console_log "Is array?") ;;
  if negb (truthy available_years) || negb (is_array available_years)
     || (Z.of_nat (List.length (elems_of available_years)) =? 0)
  then lift (Throw (Error "No available years found"))
  else
    setAvailableYears available_years ;;
    let initialYear := index (elems_of available_years) 0 in
    update (setSelectedYear initialYear) ;;
    analysisJson <- fetch_json analysis "Initial analysis fetch not ok" ;;
    with_world (console_log "Initial analysis data received:") ;;
    update (setAnalysisData analysisJson) ;;
    update (setPhase PhVisualize) ;;
    update (setCurrentChartIndex (fun _ => 0)).

Definition handleFileUpload
    (read : read_outcome) (years analysis : fetch_outcome) : Upload unit :=
  fun s =>
    match selectedFile (fst s) with
    | None =>
        with_world (console_warn "No file selected when attempting upload.") s
    | Some _ =>
        (with_world (console_log "Starting file read and available-years fetch...") ;;
         update (setPhase PhLoading) ;;
         match read with
         | ReadOk fileTranscript =>
             try_catch
               (onload_try fileTranscript years analysis)
               (fun error =>
                  with_world (console_error "Error processing file:") ;;
                  update (setError "Analysis failed") ;;
                  update (setPhase PhUpload))
         | ReadError =>
             with_world (console_error "Error reading file") ;;
             update (setError "Failed to read file") ;;
             update (setPhase PhUpload)
         end) s
    end.

(** What a successful ingestion has received: the text of the file, the
    years (at least one) and the analysis of the first year. *)
Definition ingested (read : read_outcome) (years analysis : fetch_outcome)
  : option (string * value * list value * value) :=
  match read, years, analysis with
  | ReadOk text, Response true (Json y), Response true (Json json) =>
      match get_prop y "available_years" with
      | Ok (VArr (first :: rest)) => Some (text, first, first :: rest, json)
      | _ => None
      end
  | _, _, _ => None
  end.

(** ** Text wrapping on the export canvas *)

(** The 2D context, as far as [wrapText] uses it: the width it measures
    for a string ([ctx.measureText(s).width]), and the [fillText] calls made
    so far.  Widths and coordinates are rationals.  Of a [console.log] call
    the console keeps the first argument. *)
Record canvas : Type := {
  measureText : string -> Q;
  fillTexts : list (string * Q * Q)
}.

Definition Canvas (A : Type) : Type := M (canvas * world) A.

(** [ctx.fillText(line, x, y)] *)
Definition fillText (line : string) (x y : Q) : Canvas unit :=
  fun s =>
    (Ok tt, ({| measureText := measureText (fst s);
                fillTexts := (fillTexts (fst s) ++ [(line, x, y)])%list |},
             snd s)).

(** The [for (const word of words)] loop: [line] is the line being filled,
    [lines] the lines already closed. *)
Fixpoint wrap_words (maxWidth : Q) (words : list string)
    (line : string) (lines : list string) : Canvas (string * list string) :=
  match words with
  | [] => ret (line, lines)
  | word :: rest =>
      fun s =>
        let testLine := line ++ word ++ " " in
        let testWidth := measureText (fst s) testLine in
        (if negb (Qle_bool testWidth maxWidth) && negb (line =? EmptyString)%string
         then
           with_world (console_log "Line exceeds maxWidth:") ;;
           wrap_words maxWidth rest (word ++ " ") (lines ++ [trim line])%list
         else wrap_words maxWidth rest testLine lines) s
  end.

(** [lines.forEach((line, index) => ...)] *)
Fixpoint draw_lines (lines : list string) (index : nat) (x y lineHeight : Q)
  : Canvas unit :=
  match lines with
  | [] => ret tt
  | line :: rest =>
      with_world (console_log "Drawing line:") ;;
      fillText line x (y + inject_Z (Z.of_nat index) * lineHeight)%Q ;;
      draw_lines rest (S index) x y lineHeight
  end.

Definition wrapText (text : string) (x y maxWidth lineHeight : Q) : Canvas unit :=
  with_world (console_log "Wrapping text:") ;;
  let words := split_on " " text in
  r <- wrap_words maxWidth words EmptyString [] ;;
  let lines := (snd r ++ [trim (fst r)])%list in
  with_world (console_log "Final wrapped lines:") ;;
  draw_lines lines 0 x y lineHeight.

(** The lines of the loop before they are trimmed. *)
Fixpoint raw_lines (measure : string -> Q) (maxWidth : Q)
    (words : list string) (line : string) : list string :=
  match words with
  | [] => [line]
  | word :: rest =>
      if negb (Qle_bool (measure (line ++ word ++ " ")) maxWidth)
         && negb (line =? EmptyString)%string
      then line :: raw_lines measure maxWidth rest (word ++ " ")
      else raw_lines measure maxWidth rest (line ++ word ++ " ")
  end.

(** The [index]-th draw call for a raw line. *)
Definition draw_call (x y lineHeight : Q) (raw : string) (index : nat)
  : string * Q * Q :=
  (trim raw, x, (y + inject_Z (Z.of_nat index) * lineHeight)%Q).

(** A line fits, or holds a single word that does not. *)
Definition fits_or_single (measure : string -> Q) (maxWidth : Q)
    (words : list string) (raw : string) : Prop :=
  (measure raw <= maxWidth)%Q \/ exists word, In word words /\ raw = word ++ " ".

(** [Math.random] returns numbers of [[0, 1)]. *)
Definition unit_interval (w : world) : Prop :=
  forall k : nat, (0 <= entropy w k /\ entropy w k < 1)%Q.

Definition channel (c : Z) : Prop := 0 <= c <= 254.

(** A world whose random numbers alternate between 0 and 999/1000. *)
Definition two_tone_world : world :=
  {| console := [];
     entropy := fun k => if Nat.even k then 0%Q else (999 # 1000)%Q;
     drawn := 0 |}.

(* ================================================================== *)
(** * Facts about values *)
(* ================================================================== *)

Lemma num_eqb_eq (a b : Qc) : num_eqb a b = true <-> a = b.
Proof.
  unfold num_eqb. rewrite Qeq_bool_iff. split.
  - apply Qc_is_canon.
  - intros ->. reflexivity.
Qed.

Lemma num_eqb_refl (a : Qc) : num_eqb a a = true.
Proof. now apply num_eqb_eq. Qed.

Lemma num_ltb_lt (a b : Qc) : num_ltb a b = true <-> (a < b)%Qc.
Proof.
  unfold num_ltb, Qclt. rewrite negb_true_iff.
  destruct (Qle_bool b a) eqn:E.
  - apply Qle_bool_iff in E. split; [discriminate|].
    intros H. now apply Qlt_not_le in H.
  - split; [|reflexivity]. intros _. apply Qnot_le_lt. intros H.
    apply Qle_bool_iff in H. congruence.
Qed.

Lemma num_ltb_ge (a b : Qc) : num_ltb a b = false <-> (b <= a)%Qc.
Proof.
  unfold num_ltb, Qcle. rewrite negb_false_iff. apply Qle_bool_iff.
Qed.

Lemma positive_sub (x y : Qc) : positive (sub (Fin y) (Fin x)) = num_ltb x y.
Proof.
  simpl. destruct (num_ltb x y) eqn:E.
  - apply num_ltb_lt. apply num_ltb_lt in E. apply Qclt_minus_iff in E. exact E.
  - apply num_ltb_ge. apply num_ltb_ge in E. apply Qcnot_lt_le. intros H.
    apply (Qcle_not_lt _ _ E). apply Qclt_minus_iff. exact H.
Qed.

Lemma scalar_eq_true (v w : value) : scalar_eq v w = true -> v = w.
Proof.
  destruct v, w; simpl; try discriminate; auto.
  - intros E. apply Bool.eqb_prop in E. now subst.
  - intros E. apply num_eqb_eq in E. now subst.
  - intros E. apply String.eqb_eq in E. now subst.
Qed.

Lemma scalar_eq_scalar (v w : value) :
  scalar_eq v w = true -> scalar v = true /\ scalar w = true.
Proof. destruct v, w; simpl; try discriminate; auto. Qed.

Lemma scalar_eq_refl (v : value) : scalar v = true -> scalar_eq v v = true.
Proof.
  destruct v; simpl; try discriminate; auto; intros _.
  - apply Bool.eqb_reflx.
  - apply num_eqb_refl.
  - apply String.eqb_refl.
Qed.

(** Two cells are the same value when they hold the same scalar, or hold
    objects and sit at the same place. *)
Lemma same_cell_spec (a b : cell) :
  same_cell a b = true <->
  scalar (held a) = true /\ held a = held b
  \/ scalar (held a) = false /\ scalar (held b) = false /\ place a = place b.
Proof.
  unfold same_cell.
  destruct (scalar (held a)) eqn:A, (scalar (held b)) eqn:B; simpl.
  - split.
    + intros E. left. split; [reflexivity | now apply scalar_eq_true].
    + intros [[_ E]|[E _]]; [|discriminate]. rewrite <- E. now apply scalar_eq_refl.
  - split.
    + intros E. apply scalar_eq_scalar in E as [_ E]. congruence.
    + intros [[_ E]|[E _]]; [|discriminate]. rewrite <- E in B. congruence.
  - split.
    + intros E. apply scalar_eq_scalar in E as [E _]. congruence.
    + intros [[E _]|(_ & E & _)]; discriminate.
  - rewrite Nat.eqb_eq. split.
    + intros E. right. auto.
    + intros [[E _]|(_ & _ & E)]; [discriminate | exact E].
Qed.

Lemma same_cell_refl (a : cell) : same_cell a a = true.
Proof.
  apply same_cell_spec. destruct (scalar (held a)); [left | right]; auto.
Qed.

Lemma same_cell_sym (a b : cell) : same_cell a b = same_cell b a.
Proof.
  destruct (same_cell a b) eqn:E, (same_cell b a) eqn:F; auto.
  - apply same_cell_spec in E. rewrite <- F. symmetry. apply same_cell_spec.
    destruct E as [[S E]|(S & T & E)]; [left | right]; auto.
    split; [congruence | now symmetry].
  - apply same_cell_spec in F. rewrite <- E. apply same_cell_spec.
    destruct F as [[S F]|(S & T & F)]; [left | right]; auto.
    split; [congruence | now symmetry].
Qed.

Lemma same_cell_trans (a b c : cell) :
  same_cell a b = true -> same_cell b c = true -> same_cell a c = true.
Proof.
  rewrite !same_cell_spec.
  intros [[S E]|(S & T & E)] [[S' E']|(S' & T' & E')]; try congruence.
  - left. split; congruence.
  - right. repeat split; congruence.
Qed.

(* ================================================================== *)
(** * Stable insertion sort *)
(* ================================================================== *)

Section PureSortFacts.
Context {A : Type}.
Variable after : A -> A -> bool.

Lemma insert_perm (x : A) (l : list A) : Permutation (insert after x l) (x :: l).
Proof.
  induction l as [|y l IH]; simpl; [reflexivity|].
  destruct (after x y); [|reflexivity].
  rewrite IH. apply perm_swap.
Qed.

Lemma isort_perm (l : list A) : Permutation (isort after l) l.
Proof.
  induction l as [|x l IH]; simpl; [reflexivity|].
  rewrite insert_perm. now constructor.
Qed.

(** Elements that never have to come after one another keep their order. *)
Section Stability.
Variable f : A -> bool.
Hypothesis tied : forall x y, f x = true -> f y = true -> after x y = false.

Lemma insert_filter (x : A) (l : list A) :
  filter f (insert after x l) = filter f (x :: l).
Proof.
  induction l as [|y l IH]; [reflexivity|].
  simpl insert. destruct (after x y) eqn:E; [|reflexivity].
  simpl in *. rewrite IH.
  destruct (f x) eqn:Fx, (f y) eqn:Fy; try reflexivity.
  rewrite (tied x y Fx Fy) in E. discriminate E.
Qed.

Lemma isort_filter (l : list A) : filter f (isort after l) = filter f l.
Proof.
  induction l as [|x l IH]; [reflexivity|].
  simpl isort. rewrite insert_filter. simpl. now rewrite IH.
Qed.
End Stability.

Section Sortedness.
Hypothesis after_asym : forall x y, after x y = true -> after y x = false.
Hypothesis before_trans : forall x y z, before after x y -> before after y z -> before after x z.

Lemma insert_sorted (x : A) (l : list A) :
  StronglySorted (before after) l -> StronglySorted (before after) (insert after x l).
Proof.
  induction 1 as [|y l Hl IH Hy]; simpl.
  - constructor; constructor.
  - destruct (after x y) eqn:E.
    + constructor; [exact IH|].
      apply (Permutation_Forall (Permutation_sym (insert_perm x l))).
      constructor; [now apply after_asym | exact Hy].
    + constructor; [now constructor|].
      constructor; [exact E|].
      eapply Forall_impl; [|exact Hy].
      intros z Hz. now apply (before_trans x y z).
Qed.

Lemma isort_sorted (l : list A) : StronglySorted (before after) (isort after l).
Proof.
  induction l as [|x l IH]; simpl; [constructor | now apply insert_sorted].
Qed.
End Sortedness.

(** When the comparator never raises, [sort_by] is the pure sort. *)
Section Refinement.
Context {B : Type}.
Variable cmp : B -> B -> result number.
Variable f : A -> B.
Hypothesis cmp_after :
  forall x y, exists c, cmp (f x) (f y) = Ok c /\ positive c = after x y.

Lemma insert_by_pure (x : A) (l : list A) :
  insert_by cmp (f x) (map f l) = Ok (map f (insert after x l)).
Proof.
  induction l as [|y l IH]; [reflexivity|].
  simpl. destruct (cmp_after x y) as (c & -> & <-). simpl.
  destruct (positive c); [|reflexivity].
  now rewrite IH.
Qed.

Lemma sort_by_pure (l : list A) :
  sort_by cmp (map f l) = Ok (map f (isort after l)).
Proof.
  induction l as [|x l IH]; [reflexivity|].
  simpl. rewrite IH. simpl. apply insert_by_pure.
Qed.
End Refinement.
End PureSortFacts.

Lemma StronglySorted_nth {A} (R : A -> A -> Prop) (d : A) (l : list A) :
  StronglySorted R l ->
  forall i j, (i < j < List.length l)%nat -> R (nth i l d) (nth j l d).
Proof.
  induction 1 as [|x l Hl IH Hx]; intros i j [Hij Hj]; simpl in *; [lia|].
  destruct j as [|j]; [lia|]. destruct i as [|i].
  - rewrite Forall_forall in Hx. apply Hx. apply nth_In. lia.
  - apply IH. lia.
Qed.

(** A comparator that returns on the elements of a list sorts it. *)
Section SortTotal.
Context {A : Type}.
Variable cmp : A -> A -> result number.
Variable P : A -> Prop.
Hypothesis cmp_returns : forall x y, P x -> P y -> exists c, cmp x y = Ok c.

Lemma insert_by_total (x : A) (l : list A) :
  P x -> Forall P l -> exists r, insert_by cmp x l = Ok r /\ Forall P r.
Proof.
  intros Hx Hl. induction Hl as [|y l Hy Hl IH]; simpl.
  - exists [x]. auto.
  - destruct (cmp_returns x y Hx Hy) as [c ->]. simpl.
    destruct (positive c).
    + destruct IH as (r & -> & Hr). simpl. exists (y :: r). auto.
    + exists (x :: y :: l). auto.
Qed.

Lemma sort_by_total (l : list A) :
  Forall P l -> exists r, sort_by cmp l = Ok r /\ Forall P r.
Proof.
  induction 1 as [|x l Hx Hl IH]; simpl.
  - exists []. auto.
  - destruct IH as (s & -> & Hs). simpl. now apply insert_by_total.
Qed.
End SortTotal.

(* ================================================================== *)
(** * sortBarData *)
(* ================================================================== *)

Lemma mapi_from_combine (data pre : list value) (labels : list value) (i : nat) :
  List.length pre = i ->
  List.length labels = List.length data ->
  mapi_from i (fun label j => (label, index (pre ++ data) j)) labels
  = combine labels data.
Proof.
  revert data pre i.
  induction labels as [|x ls IH]; intros [|y ds] pre i Hi Hlen;
    try discriminate; [reflexivity|].
  simpl. f_equal.
  - unfold index. rewrite app_nth2 by lia.
    replace (i - List.length pre)%nat with 0%nat by lia. reflexivity.
  - replace (pre ++ y :: ds)%list with ((pre ++ [y]) ++ ds)%list
      by (rewrite <- app_assoc; reflexivity).
    apply IH.
    + rewrite length_app. simpl. lia.
    + simpl in Hlen. lia.
Qed.

Lemma mapi_combine (labels data : list value) :
  List.length labels = List.length data ->
  mapi (fun label i => (label, index data i)) labels = combine labels data.
Proof. intros H. exact (mapi_from_combine data [] labels 0 eq_refl H). Qed.

Lemma combine_numeric (labels : list value) (nums : list Qc) :
  combine labels (map VNum nums) = map numeric (combine labels nums).
Proof.
  revert nums. induction labels as [|x ls IH]; intros [|n ns]; simpl; auto.
  now rewrite IH.
Qed.

Lemma combine_fst_snd {A B} (l : list (A * B)) :
  combine (map fst l) (map snd l) = l.
Proof. induction l as [|[a b] l IH]; simpl; [|rewrite IH]; reflexivity. Qed.

Lemma by_value_desc_numeric (x y : value * Qc) :
  exists c, by_value_desc (numeric x) (numeric y) = Ok c
            /\ positive c = smaller x y.
Proof.
  exists (sub (Fin (snd y)) (Fin (snd x))). split; [reflexivity|].
  apply positive_sub.
Qed.

Lemma sortBarData_numeric (labels : list value) (nums : list Qc) :
  List.length labels = List.length nums ->
  (0 < List.length labels)%nat ->
  sortBarData (VArr labels) (VArr (map VNum nums))
  = Ok {| sortedLabels := VArr (map fst (isort smaller (combine labels nums)));
          sortedData :=
            VArr (map VNum (map snd (isort smaller (combine labels nums)))) |}.
Proof.
  intros Hlen Hpos. unfold sortBarData, isValidArray. simpl.
  rewrite length_map, <- Hlen, Nat.eqb_refl.
  replace (0 <? Z.of_nat (List.length labels)) with true
    by (symmetry; apply Z.ltb_lt; lia).
  simpl.
  rewrite mapi_combine by (rewrite length_map; exact Hlen).
  rewrite combine_numeric.
  rewrite (sort_by_pure smaller by_value_desc numeric by_value_desc_numeric).
  simpl. rewrite !map_map. reflexivity.
Qed.

Lemma smaller_asym (x y : value * Qc) : smaller x y = true -> smaller y x = false.
Proof.
  unfold smaller. rewrite num_ltb_lt, num_ltb_ge. apply Qclt_le_weak.
Qed.

Lemma before_smaller_trans (x y z : value * Qc) :
  before smaller x y -> before smaller y z -> before smaller x z.
Proof.
  unfold before, smaller. rewrite !num_ltb_ge. intros H1 H2.
  now apply (Qcle_trans _ (snd y)).
Qed.

(** C3. Given a label list and a list of numbers of the same positive
    length - whole or fractional, of either sign - [sortBarData] returns:
    the values are non-increasing over every pair of positions i < j,
    entries of equal value stand in their input order, and the returned
    pairs are a rearrangement of the input pairs. *)
Theorem sortBarData_stable_descending (labels : list value) (nums : list Qc) :
  List.length labels = List.length nums ->
  (0 < List.length labels)%nat ->
  exists ls ns,
    sortBarData (VArr labels) (VArr (map VNum nums))
    = Ok {| sortedLabels := VArr ls; sortedData := VArr (map VNum ns) |}
    /\ List.length ls = List.length ns
    /\ (forall i j, (i < j < List.length ns)%nat ->
          (nth j ns 0 <= nth i ns 0)%Qc)
    /\ (forall v, filter (has_value v) (combine ls ns)
                  = filter (has_value v) (combine labels nums))
    /\ Permutation (combine ls ns) (combine labels nums).
Proof.
  intros Hlen Hpos.
  set (sorted := isort smaller (combine labels nums)).
  exists (map fst sorted), (map snd sorted).
  split; [now apply sortBarData_numeric|].
  split; [now rewrite !length_map|].
  rewrite combine_fst_snd.
  split; [|split].
  - intros i j Hij. rewrite length_map in Hij.
    pose proof (StronglySorted_nth (before smaller) (VUndefined, 0%Qc) sorted
                  (isort_sorted smaller smaller_asym before_smaller_trans _)
                  i j Hij) as H.
    unfold before, smaller in H. apply num_ltb_ge in H.
    change 0%Qc with (snd (VUndefined, 0%Qc)). now rewrite !map_nth.
  - intros v. apply isort_filter.
    intros x y Hx Hy. unfold has_value in *. unfold smaller.
    apply num_eqb_eq in Hx, Hy. apply num_ltb_ge. rewrite Hx, Hy.
    apply Qcle_refl.
  - apply isort_perm.
Qed.

Lemma sortBarData_stable_descending_witness :
  exists ls ns,
    sortBarData (VArr [VStr "al"; VStr "bo"; VStr "cy"; VStr "di"])
                (VArr (map VNum [rational 0.5; rational 2.5; rational 0.5;
                                 rational 2.5]))
    = Ok {| sortedLabels := VArr ls; sortedData := VArr (map VNum ns) |}
    /\ List.length ls = List.length ns
    /\ (forall i j, (i < j < List.length ns)%nat ->
          (nth j ns 0 <= nth i ns 0)%Qc)
    /\ (forall v, filter (has_value v) (combine ls ns)
                  = filter (has_value v)
                      (combine [VStr "al"; VStr "bo"; VStr "cy"; VStr "di"]
                               [rational 0.5; rational 2.5; rational 0.5;
                                rational 2.5]))
    /\ Permutation (combine ls ns)
         (combine [VStr "al"; VStr "bo"; VStr "cy"; VStr "di"]
                  [rational 0.5; rational 2.5; rational 0.5; rational 2.5]).
Proof.
  apply (sortBarData_stable_descending
           [VStr "al"; VStr "bo"; VStr "cy"; VStr "di"]
           [rational 0.5; rational 2.5; rational 0.5; rational 2.5]).
  - reflexivity.
  - simpl. lia.
Defined.

Example sortBarData_ties :
  sortBarData (VArr [VStr "al"; VStr "bo"; VStr "cy"; VStr "di"])
              (VArr [VNum (rational 0.5); VNum (rational 2.5);
                     VNum (rational 0.5); VNum (rational 2.5)])
  = Ok {| sortedLabels := VArr [VStr "bo"; VStr "di"; VStr "al"; VStr "cy"];
          sortedData := VArr [VNum (rational 2.5); VNum (rational 2.5);
                              VNum (rational 0.5); VNum (rational 0.5)] |}.
Proof. vm_compute. reflexivity. Qed.

Lemma falsy_values (v : value) :
  truthy v = false <->
  v = VUndefined \/ v = VNull \/ v = VBool false \/ v = VNum 0
  \/ v = VStr EmptyString.
Proof.
  destruct v as [| |[]|n|s| |]; simpl; split; intros H;
    repeat (destruct H as [H|H]); try discriminate; auto 6.
  - apply negb_false_iff, num_eqb_eq in H. subst. auto 6.
  - injection H as ->. reflexivity.
  - apply negb_false_iff, String.eqb_eq in H. subst. auto 6.
  - injection H as ->. reflexivity.
Qed.

(** C9, as the code has it.  When the labels and the values are not both
    non-empty arrays of the same length, [sortBarData] does not raise and
    does not sort: it returns [labels || []] and [data || []].  An input
    that is truthy comes back as it is - every array does, whatever its
    length; a falsy input ([undefined], [null], [false], [0], the empty
    string) comes back as the empty array. *)
Theorem sortBarData_guard (labels data : value) :
  isValidArray labels && isValidArray data
    && (List.length (elems_of labels) =? List.length (elems_of data))%nat = false ->
  exists ls ds,
    sortBarData labels data = Ok {| sortedLabels := ls; sortedData := ds |}
    /\ (truthy labels = true -> ls = labels)
    /\ (truthy labels = false -> ls = VArr [])
    /\ (truthy data = true -> ds = data)
    /\ (truthy data = false -> ds = VArr [])
    /\ (forall v, is_array v = true -> truthy v = true)
    /\ (forall v, truthy v = false <->
                  v = VUndefined \/ v = VNull \/ v = VBool false \/ v = VNum 0
                  \/ v = VStr EmptyString).
Proof.
  intros H. exists (or_else labels (VArr [])), (or_else data (VArr [])).
  split; [|repeat split].
  - unfold sortBarData.
    destruct (isValidArray labels), (isValidArray data),
      (List.length (elems_of labels) =? List.length (elems_of data))%nat;
      simpl in *; try reflexivity; discriminate H.
  - unfold or_else. now intros ->.
  - unfold or_else. now intros ->.
  - unfold or_else. now intros ->.
  - unfold or_else. now intros ->.
  - intros [] Hv; try discriminate Hv; reflexivity.
  - apply falsy_values.
  - apply falsy_values.
Qed.

Lemma sortBarData_guard_witness :
  exists ls ds,
    sortBarData (VArr [VStr "al"; VStr "bo"]) (VNum 0)
    = Ok {| sortedLabels := ls; sortedData := ds |}
    /\ ls = VArr [VStr "al"; VStr "bo"] /\ ds = VArr [].
Proof.
  destruct (sortBarData_guard (VArr [VStr "al"; VStr "bo"]) (VNum 0) eq_refl)
    as (ls & ds & E & L & _ & _ & D & _).
  exists ls, ds. split; [exact E|]. split; [now apply L | now apply D].
Defined.

(** C9 as stated fails on a falsy input that is neither [null] nor
    [undefined]: the empty string given as labels is not returned as it is
    but replaced by the empty array, and so are [0] and [false]. *)
Lemma falsy_input_is_replaced :
  sortBarData (VStr EmptyString) (VArr [VNum 2; VNum 1])
  = Ok {| sortedLabels := VArr []; sortedData := VArr [VNum 2; VNum 1] |}
  /\ nullish (VStr EmptyString) = false
  /\ VArr [] <> VStr EmptyString
  /\ sortBarData (VNum 0) (VBool false)
     = Ok {| sortedLabels := VArr []; sortedData := VArr [] |}.
Proof. repeat split; discriminate. Qed.

Lemma to_number_scalar (v : value) :
  scalar v = true -> exists n, to_number v = Ok n.
Proof. destruct v as [| |[]| | | |]; simpl; try discriminate; eauto. Qed.

Lemma sortBarData_total (labels values : list value) :
  Forall (fun v => scalar v = true) values ->
  exists r, sortBarData (VArr labels) (VArr values) = Ok r.
Proof.
  intros Hs. unfold sortBarData.
  destruct (negb (isValidArray (VArr labels)) || negb (isValidArray (VArr values)))
    eqn:G; simpl; [eauto|].
  destruct (Nat.eqb_spec (List.length labels) (List.length values)) as [E|];
    simpl; [|eauto].
  rewrite mapi_combine by exact E.
  destruct (sort_by_total by_value_desc (fun p => scalar (snd p) = true))
    with (l := combine labels values) as (r & -> & _).
  - intros x y Hx Hy. unfold by_value_desc.
    destruct (to_number_scalar _ Hy) as [ny ->].
    destruct (to_number_scalar _ Hx) as [nx ->]. simpl. eauto.
  - rewrite Forall_forall in *. intros [a b] Hab. simpl.
    apply Hs. eapply in_combine_r. exact Hab.
  - simpl. eauto.
Qed.
(* ================================================================== *)
(** * groupBySender *)
(* ================================================================== *)

Lemma mapi_from_proj {A B} (f : A -> nat -> B) (g : B -> A) (i : nat) (l : list A) :
  (forall x j, g (f x j) = x) -> map g (mapi_from i f l) = l.
Proof.
  intros H. revert i. induction l as [|x l IH]; intros i; simpl; [reflexivity|].
  now rewrite H, IH.
Qed.

Lemma mapi_from_In {A B} (f : A -> nat -> B) (i : nat) (l : list A) (y : B) :
  In y (mapi_from i f l) -> exists x j, In x l /\ y = f x j.
Proof.
  revert i. induction l as [|x l IH]; intros i; simpl; [tauto|].
  intros [<-|H]; [now exists x, i; auto|].
  destruct (IH _ H) as (x' & j & Hx & ->). exists x', j. auto.
Qed.

Lemma mapi_from_nth {A B} (f : A -> nat -> B) (i k : nat) (l : list A) :
  nth_error (mapi_from i f l) k
  = match nth_error l k with
    | Some x => Some (f x (i + k)%nat)
    | None => None
    end.
Proof.
  revert i k. induction l as [|x l IH]; intros i [|k]; simpl; auto.
  - now rewrite Nat.add_0_r.
  - rewrite IH. now rewrite Nat.add_succ_r.
Qed.

Lemma mapi_from_length {A B} (f : A -> nat -> B) (i : nat) (l : list A) :
  List.length (mapi_from i f l) = List.length l.
Proof. revert i. induction l; intros i; simpl; auto. Qed.

Lemma mapi_from_map {A B C} (f : A -> nat -> B) (g : B -> C) (i : nat) (l : list A) :
  map g (mapi_from i f l) = mapi_from i (fun x j => g (f x j)) l.
Proof. revert i. induction l as [|x l IH]; intros i; simpl; [|rewrite IH]; auto. Qed.

Lemma mapi_from_app {A B} (f : A -> nat -> B) (i : nat) (l m : list A) :
  mapi_from i f (l ++ m)
  = (mapi_from i f l ++ mapi_from (i + List.length l) f m)%list.
Proof.
  revert i. induction l as [|x l IH]; intros i; simpl.
  - now rewrite Nat.add_0_r.
  - rewrite IH. now rewrite Nat.add_succ_r.
Qed.

Lemma find_absent {A} (p : A -> bool) (l : list A) :
  (forall x, In x l -> p x = false) -> find p l = None.
Proof.
  induction l as [|x l IH]; simpl; intros H; [reflexivity|].
  rewrite (H x) by now left. apply IH. intros y Hy. apply H. now right.
Qed.

(** ** Rows at their places *)

Lemma placed_nth (data : list value) (i : nat) :
  nth_error (placed data) i
  = match nth_error data i with
    | Some d => Some {| place := i; held := d |}
    | None => None
    end.
Proof. unfold placed, mapi. now rewrite mapi_from_nth. Qed.

Lemma placed_In (data : list value) (r : cell) :
  In r (placed data) -> nth_error data (place r) = Some (held r).
Proof.
  intros H. apply In_nth_error in H as [i H]. rewrite placed_nth in H.
  destruct (nth_error data i) as [d|] eqn:E; [|discriminate H].
  injection H as <-. exact E.
Qed.

Lemma placed_held (data : list value) (r : cell) :
  In r (placed data) -> In (held r) data.
Proof. intros H. apply placed_In in H. now apply nth_error_In in H. Qed.

Lemma In_placed (data : list value) (d : value) :
  In d data -> exists r, In r (placed data) /\ held r = d.
Proof.
  intros H. apply In_nth_error in H as [i H].
  exists {| place := i; held := d |}. split; [|reflexivity].
  apply (nth_error_In _ i). rewrite placed_nth, H. reflexivity.
Qed.

Lemma placed_same_place (data : list value) (a b : cell) :
  In a (placed data) -> In b (placed data) -> place a = place b -> a = b.
Proof.
  intros Ha Hb E. apply placed_In in Ha, Hb. rewrite E in Ha.
  destruct a, b; simpl in *. subst. congruence.
Qed.

(** Two cells of one field that are the same value hold equal values. *)
Lemma field_cells_same (data : list value) (field : string) (a b : cell) :
  In a (placed data) -> In b (placed data) ->
  same_cell (field_cell field a) (field_cell field b) = true ->
  held (field_cell field a) = held (field_cell field b).
Proof.
  intros Ha Hb E. apply same_cell_spec in E as [[_ E]|(_ & _ & E)]; [exact E|].
  simpl in E. now rewrite (placed_same_place data a b Ha Hb E).
Qed.

Lemma same_cell_truthy (a b : cell) :
  same_cell a b = true -> truthy (held a) = truthy (held b).
Proof.
  intros E. apply same_cell_spec in E as [[_ E]|(A & B & _)].
  - now rewrite E.
  - destruct (held a), (held b); try discriminate; reflexivity.
Qed.

(** A scalar is the same value as exactly the cells that hold it. *)
Lemma same_cell_scalar (a b : cell) :
  scalar (held b) = true -> (same_cell a b = true <-> held a = held b).
Proof.
  intros B. rewrite same_cell_spec. split.
  - intros [[_ E]|(_ & B' & _)]; congruence.
  - intros E. left. split; congruence.
Qed.

(** ** Sets of cells *)

Lemma ForallOrdPairs_snoc {A} (R : A -> A -> Prop) (l : list A) (x : A) :
  ForallOrdPairs R l -> Forall (fun a => R a x) l -> ForallOrdPairs R (l ++ [x]).
Proof.
  induction 1 as [|a l Ha Hl IH]; intros Hx; simpl.
  - repeat constructor.
  - inversion Hx as [|? ? Hax Hlx]; subst. constructor; [|now apply IH].
    apply Forall_app. split; [exact Ha | now constructor].
Qed.

Lemma ForallOrdPairs_filter {A} (R : A -> A -> Prop) (p : A -> bool) (l : list A) :
  ForallOrdPairs R l -> ForallOrdPairs R (filter p l).
Proof.
  induction 1 as [|a l Ha Hl IH]; simpl; [constructor|].
  destruct (p a); [|exact IH]. constructor; [|exact IH].
  rewrite Forall_forall in *. intros x Hx. apply Ha.
  now apply filter_In in Hx as [Hx _].
Qed.

Lemma set_add_fold (l seen : list cell) :
  ForallOrdPairs (fun a b => same_cell a b = false) seen ->
  ForallOrdPairs (fun a b => same_cell a b = false) (fold_left set_add l seen)
  /\ (forall c, In c (fold_left set_add l seen) -> In c seen \/ In c l)
  /\ (forall c, In c seen \/ In c l ->
                exists c', In c' (fold_left set_add l seen)
                           /\ same_cell c c' = true).
Proof.
  revert seen. induction l as [|y l IH]; intros seen Hnd; simpl.
  - split; [exact Hnd|]. split; [tauto|].
    intros c [H|[]]. exists c. split; [exact H | apply same_cell_refl].
  - unfold set_add at 2 4 6. destruct (existsb (same_cell y) seen) eqn:E.
    + destruct (IH seen Hnd) as (N & I & C). split; [exact N|]. split.
      * intros c H. destruct (I c H); auto.
      * intros c [H|[<-|H]]; [apply C; auto | | apply C; auto].
        apply existsb_exists in E as (a & Ha & E).
        destruct (C a (or_introl Ha)) as (c' & Hc' & E').
        exists c'. split; [exact Hc'|]. now apply (same_cell_trans _ a).
    + destruct (IH (seen ++ [y])%list) as (N & I & C).
      * apply ForallOrdPairs_snoc; [exact Hnd|].
        apply Forall_forall. intros a Ha. rewrite same_cell_sym.
        destruct (same_cell y a) eqn:F; [|reflexivity].
        assert (existsb (same_cell y) seen = true)
          by (apply existsb_exists; eauto).
        congruence.
      * split; [exact N|]. split.
        -- intros c H. destruct (I c H) as [H'|H']; auto.
           apply in_app_iff in H' as [H'|[<-|[]]]; auto.
        -- intros c [H|[<-|H]]; apply C; rewrite ?in_app_iff; simpl; auto.
Qed.

Lemma new_Set_spec (l : list cell) :
  ForallOrdPairs (fun a b => same_cell a b = false) (new_Set l)
  /\ (forall c, In c (new_Set l) -> In c l)
  /\ (forall c, In c l -> exists c', In c' (new_Set l) /\ same_cell c c' = true).
Proof.
  destruct (set_add_fold l [] (FOP_nil _)) as (N & I & C).
  split; [exact N|]. split.
  - intros c H. destruct (I c H) as [[]|H']. exact H'.
  - intros c H. apply C. now right.
Qed.

Lemma distinct_truthy_new_Set (l : list cell) :
  distinct_truthy l (filter truthy_cell (new_Set l)).
Proof.
  destruct (new_Set_spec l) as (N & I & C). split; [|split].
  - now apply ForallOrdPairs_filter.
  - intros c H. apply filter_In in H as [H T]. split; [now apply I | exact T].
  - intros c H T. destruct (C c H) as (c' & Hc' & E).
    exists c'. split; [|exact E]. apply filter_In. split; [exact Hc'|].
    unfold truthy_cell. now rewrite <- (same_cell_truthy c c' E).
Qed.

Lemma set_add_extends (l seen : list cell) :
  is_prefix seen (fold_left set_add l seen).
Proof.
  revert seen. induction l as [|x l IH]; intros seen; simpl.
  - exists []. now rewrite app_nil_r.
  - unfold set_add at 2. destruct (existsb (same_cell x) seen); [apply IH|].
    destruct (IH (seen ++ [x])%list) as [extra ->].
    exists (x :: extra). now rewrite <- app_assoc.
Qed.

Lemma new_Set_prefix (l more : list cell) :
  is_prefix (new_Set l) (new_Set (l ++ more)).
Proof.
  unfold new_Set. fold set_add. rewrite fold_left_app. apply set_add_extends.
Qed.

(** ** The date sort *)

Lemma string_le_trans (a b c : string) :
  String.compare a b <> Gt -> String.compare b c <> Gt -> String.compare a c <> Gt.
Proof.
  revert b c. induction a as [|x a IH]; intros [|y b] [|z c]; simpl;
    try congruence.
  unfold Ascii.compare.
  destruct (N.compare_spec (N_of_ascii x) (N_of_ascii y)) as [Exy|Lxy|Gxy];
    destruct (N.compare_spec (N_of_ascii y) (N_of_ascii z)) as [Eyz|Lyz|Gyz];
    destruct (N.compare_spec (N_of_ascii x) (N_of_ascii z)) as [Exz|Lxz|Gxz];
    try congruence; try lia.
  apply IH.
Qed.

Lemma default_compare_ok (x y : value) (c : number) :
  default_compare x y = Ok c ->
  exists sx sy,
    to_string x = Ok sx /\ to_string y = Ok sy
    /\ c = of_comparison (String.compare sx sy).
Proof.
  unfold default_compare.
  destruct (to_string x) as [sx|]; simpl; [|discriminate].
  destruct (to_string y) as [sy|]; simpl; [|discriminate].
  intros [= <-]. now exists sx, sy.
Qed.

Lemma positive_of_comparison (c : comparison) :
  positive (of_comparison c) = match c with Gt => true | _ => false end.
Proof. destruct c; reflexivity. Qed.

Lemma insert_by_default_ok (x : value) (l r : list value) :
  StronglySorted date_le l ->
  insert_by default_compare x l = Ok r ->
  StronglySorted date_le r.
Proof.
  intros Hs. revert r. induction Hs as [|y l Hl IH Hy]; intros r; simpl.
  - intros [= <-]. repeat constructor.
  - destruct (default_compare x y) as [c|] eqn:E; simpl; [|discriminate].
    apply default_compare_ok in E as (sx & sy & Hx & Hy' & ->).
    rewrite positive_of_comparison.
    assert (K : String.compare sx sy <> Gt ->
                StronglySorted date_le (x :: y :: l)).
    { intros C. constructor; [now constructor|]. constructor.
      - now exists sx, sy.
      - eapply Forall_impl; [|exact Hy].
        intros z (sy0 & sz & Hy0 & Hz & Hle).
        exists sx, sz. repeat split; auto.
        apply (string_le_trans sx sy sz); congruence. }
    destruct (String.compare sx sy) eqn:C.
    + intros [= <-]. apply K. discriminate.
    + intros [= <-]. apply K. discriminate.
    + destruct (insert_by default_compare x l) as [r'|] eqn:R; simpl;
        [|discriminate].
      intros [= <-]. specialize (IH r' eq_refl).
      constructor; [exact IH|].
      assert (P : Permutation r' (x :: l)).
      { clear - R. revert r' R. induction l as [|z l IHl]; intros r' R; simpl in R.
        - injection R as <-. reflexivity.
        - destruct (default_compare x z) as [c|]; simpl in R; [|discriminate].
          destruct (positive c).
          + destruct (insert_by default_compare x l) as [r''|]; simpl in R;
              [|discriminate].
            injection R as <-. rewrite (IHl r'' eq_refl). apply perm_swap.
          + injection R as <-. reflexivity. }
      apply (Permutation_Forall (Permutation_sym P)).
      constructor; [|exact Hy].
      exists sy, sx. repeat split; auto.
      rewrite String.compare_antisym, C. discriminate.
Qed.

Lemma sort_by_default_ok (l r : list value) :
  sort_by default_compare l = Ok r -> StronglySorted date_le r.
Proof.
  revert r. induction l as [|x l IH]; intros r; simpl.
  - intros [= <-]. constructor.
  - destruct (sort_by default_compare l) as [s|] eqn:E; simpl; [|discriminate].
    apply insert_by_default_ok. now apply IH.
Qed.

(** Sorting by a key is sorting the keys. *)
Section SortByKey.
Context {A B : Type}.
Variable key : A -> B.
Variable cmp : B -> B -> result number.

Lemma insert_by_key (x : A) (l : list A) :
  insert_by cmp (key x) (map key l)
  = match insert_by (fun a b => cmp (key a) (key b)) x l with
    | Ok r => Ok (map key r)
    | Throw e => Throw e
    end.
Proof.
  induction l as [|y l IH]; simpl; [reflexivity|].
  destruct (cmp (key x) (key y)) as [c|e]; simpl; [|reflexivity].
  destruct (positive c); [|reflexivity].
  rewrite IH. now destruct (insert_by _ x l).
Qed.

Lemma sort_by_key (l : list A) :
  sort_by cmp (map key l)
  = match sort_by (fun a b => cmp (key a) (key b)) l with
    | Ok r => Ok (map key r)
    | Throw e => Throw e
    end.
Proof.
  induction l as [|x l IH]; simpl; [reflexivity|].
  rewrite IH. destruct (sort_by _ l) as [s|e]; simpl; [|reflexivity].
  apply insert_by_key.
Qed.
End SortByKey.

Lemma has_string_form_false (v : value) :
  has_string_form v = false <-> exists e, to_string v = Throw e.
Proof.
  unfold has_string_form. destruct (to_string v) as [s|e]; split;
    try discriminate; eauto.
  intros [e H]. discriminate H.
Qed.

Lemma has_string_form_true (v : value) :
  has_string_form v = true <-> exists s, to_string v = Ok s.
Proof.
  unfold has_string_form. destruct (to_string v) as [s|e]; split;
    try discriminate; eauto.
  intros [s H]. discriminate H.
Qed.
(** Whatever the comparator, a sort that returns has rearranged its input,
    and one that raises has met a comparison that raises. *)
Section AnyComparator.
Context {A : Type}.
Variable cmp : A -> A -> result number.

Lemma insert_by_perm (x : A) (l r : list A) :
  insert_by cmp x l = Ok r -> Permutation r (x :: l).
Proof.
  revert r. induction l as [|y l IH]; intros r; simpl.
  - intros [= <-]. reflexivity.
  - destruct (cmp x y) as [c|]; simpl; [|discriminate].
    destruct (positive c).
    + destruct (insert_by cmp x l) as [r'|]; simpl; [|discriminate].
      intros [= <-]. rewrite (IH r' eq_refl). apply perm_swap.
    + intros [= <-]. reflexivity.
Qed.

Lemma sort_by_perm (l r : list A) : sort_by cmp l = Ok r -> Permutation r l.
Proof.
  revert r. induction l as [|x l IH]; intros r; simpl.
  - intros [= <-]. reflexivity.
  - destruct (sort_by cmp l) as [s|] eqn:E; simpl; [|discriminate].
    intros H. rewrite (insert_by_perm _ _ _ H). constructor. now apply IH.
Qed.

Lemma insert_by_throw (x : A) (l : list A) (e : exn) :
  insert_by cmp x l = Throw e ->
  exists y e', In y l /\ cmp x y = Throw e'.
Proof.
  revert e. induction l as [|y l IH]; intros e; simpl; [discriminate|].
  destruct (cmp x y) as [c|e0] eqn:C; simpl.
  - destruct (positive c); [|discriminate].
    destruct (insert_by cmp x l) as [r|e1]; simpl; [discriminate|].
    intros _. destruct (IH e1 eq_refl) as (z & e' & Hz & Tz). eauto.
  - intros _. eauto.
Qed.

Lemma sort_by_throw (l : list A) (e : exn) :
  sort_by cmp l = Throw e ->
  exists x y e', In x l /\ In y l /\ cmp x y = Throw e'.
Proof.
  revert e. induction l as [|x l IH]; intros e; simpl; [discriminate|].
  destruct (sort_by cmp l) as [s|e0] eqn:E; simpl.
  - intros H. apply insert_by_throw in H as (y & e' & Hy & Ty).
    exists x, y, e'. repeat split; auto.
    right. apply (Permutation_in _ (sort_by_perm _ _ E) Hy).
  - intros _. destruct (IH e0 eq_refl) as (a & b & e' & Ha & Hb & T).
    exists a, b, e'. auto.
Qed.
End AnyComparator.

Lemma sort_by_short {A} (cmp : A -> A -> result number) (l : list A) :
  (List.length l <= 1)%nat -> sort_by cmp l = Ok l.
Proof. destruct l as [|x [|y l]]; simpl; auto. lia. Qed.

Lemma sort_by_default_total (l : list value) :
  Forall (fun v => has_string_form v = true) l ->
  exists r, sort_by default_compare l = Ok r.
Proof.
  intros H.
  destruct (sort_by_total default_compare (fun v => has_string_form v = true))
    with (l := l) as (r & E & _); [|exact H|eauto].
  intros x y Hx Hy. apply has_string_form_true in Hx as [sx Hx], Hy as [sy Hy].
  unfold default_compare. rewrite Hx, Hy. simpl. eauto.
Qed.

(** With two elements or more, every element is compared at least once: an
    element without a string form makes the sort raise. *)
Lemma sort_by_default_raises (l : list value) :
  (2 <= List.length l)%nat ->
  (exists y, In y l /\ has_string_form y = false) ->
  exists e, sort_by default_compare l = Throw e.
Proof.
  induction l as [|x l IH]; simpl; [lia|].
  intros Hlen (z & Hz & Tz).
  destruct (sort_by default_compare l) as [s|e] eqn:E; simpl; [|eauto].
  pose proof (Permutation_length (sort_by_perm _ _ _ E)) as L.
  destruct s as [|y s]; [simpl in L; lia|]. simpl.
  unfold default_compare at 1.
  destruct (to_string x) as [sx|ex] eqn:Hx; simpl; [|eauto].
  destruct Hz as [<-|Hz].
  { apply has_string_form_false in Tz as [e Tz]. congruence. }
  destruct l as [|a [|b l]].
  - destruct Hz.
  - destruct Hz as [<-|[]]. simpl in E. injection E as <- <-.
    apply has_string_form_false in Tz as [e ->]. simpl. eauto.
  - destruct IH as [e IH]; [simpl; lia | eauto |]. congruence.
Qed.

Lemma forallb_false {A} (p : A -> bool) (l : list A) :
  forallb p l = false -> exists x, In x l /\ p x = false.
Proof.
  induction l as [|x l IH]; simpl; [discriminate|].
  destruct (p x) eqn:E; simpl; [|eauto].
  intros H. destruct (IH H) as (y & Hy & Py). eauto.
Qed.

(** What the date sort does. *)
Lemma sort_cells (l : list cell) :
  if sort_raises l then exists e, sort_by compare_cells l = Throw e
  else exists r,
         sort_by compare_cells l = Ok r
         /\ Permutation r l
         /\ StronglySorted date_le (map held r).
Proof.
  pose proof (sort_by_key held default_compare l) as K.
  change (fun a b => default_compare (held a) (held b)) with compare_cells in K.
  unfold sort_raises.
  destruct (Nat.leb_spec 2 (List.length l)) as [L|L]; simpl.
  - destruct (forallb _ l) eqn:F; simpl.
    + destruct (sort_by_default_total (map held l)) as [r0 R].
      { apply Forall_map. apply Forall_forall. rewrite forallb_forall in F. exact F. }
      rewrite R in K.
      destruct (sort_by compare_cells l) as [r|] eqn:E; [|discriminate K].
      exists r. split; [reflexivity|]. split; [now apply sort_by_perm in E|].
      injection K as ->. now apply sort_by_default_ok in R.
    + apply forallb_false in F as (c & Hc & Tc).
      destruct (sort_by_default_raises (map held l)) as [e R].
      { now rewrite length_map. }
      { exists (held c). split; [now apply in_map | exact Tc]. }
      rewrite R in K.
      destruct (sort_by compare_cells l) as [r|e']; [discriminate K | eauto].
  - exists l. rewrite sort_by_short by lia. split; [reflexivity|].
    split; [reflexivity|].
    destruct l as [|x [|y l]]; simpl in *; try lia; repeat constructor.
Qed.

Lemma sort_raises_perm (l m : list cell) :
  Permutation l m -> sort_raises l = sort_raises m.
Proof.
  intros P. unfold sort_raises. rewrite (Permutation_length P). f_equal. f_equal.
  destruct (forallb _ l) eqn:F, (forallb _ m) eqn:G; auto.
  - apply forallb_false in G as (c & Hc & Tc). rewrite forallb_forall in F.
    rewrite F in Tc; [discriminate|]. now apply (Permutation_in _ (Permutation_sym P)).
  - apply forallb_false in F as (c & Hc & Tc). rewrite forallb_forall in G.
    rewrite G in Tc; [discriminate|]. now apply (Permutation_in _ P).
Qed.

Lemma ForallOrdPairs_perm {A} (R : A -> A -> Prop) (l m : list A) :
  (forall a b, R a b -> R b a) ->
  Permutation l m -> ForallOrdPairs R l -> ForallOrdPairs R m.
Proof.
  intros Hsym P. induction P as [|x l m P IH|x y l|l m n P1 IH1 P2 IH2]; intros H.
  - constructor.
  - inversion H as [|? ? Hx Hl]; subst. constructor; [|auto].
    now apply (Permutation_Forall P).
  - inversion H as [|? ? Hy Hl]; subst. inversion Hl as [|? ? Hx Hl']; subst.
    inversion Hy as [|? ? Hyx Hyl]; subst.
    constructor; [constructor; auto|]. now constructor.
  - auto.
Qed.

Lemma distinct_truthy_perm (all picked sorted : list cell) :
  Permutation sorted picked -> distinct_truthy all picked ->
  distinct_truthy all sorted.
Proof.
  intros P (N & I & C). split; [|split].
  - apply (ForallOrdPairs_perm _ picked); [| now apply Permutation_sym | exact N].
    intros a b H. now rewrite same_cell_sym.
  - intros c H. apply I. now apply (Permutation_in _ P).
  - intros c H T. destruct (C c H T) as (c' & Hc' & E).
    exists c'. split; [|exact E]. now apply (Permutation_in _ (Permutation_sym P)).
Qed.

(** How [groupBySender] runs: the guard, then the [try] block, whose only
    possible exception is that of the date sort. *)
Lemma groupBySender_run (data : value) (dateField valueField : string) (w : world) :
  exists g w',
    groupBySender data dateField valueField w = (Ok g, w')
    /\ (g = no_groups
        /\ (isValidArray data = false
            \/ exists e, groupBySender_try (elems_of data) dateField valueField
                         = Throw e)
        \/ groupBySender_try (elems_of data) dateField valueField = Ok g).
Proof.
  unfold groupBySender. destruct (isValidArray data) eqn:V; simpl.
  - unfold try_catch, lift.
    destruct (groupBySender_try (elems_of data) dateField valueField) as [g|e] eqn:E.
    + exists g, w. auto.
    + eexists no_groups, _. split; [reflexivity|]. left. split; eauto.
  - exists no_groups, w. auto.
Qed.

Lemma not_valid_no_rows (data : value) :
  isValidArray data = false -> elems_of data = [].
Proof.
  unfold isValidArray. destruct data; try reflexivity.
  destruct elems; [reflexivity | discriminate].
Qed.

Section Grouping.
Variable data : list value.
Variables dateField valueField : string.

Let rows : list cell := placed data.
Let senders : list cell :=
  filter truthy_cell (new_Set (map (field_cell "sender") rows)).
Let raw_dates : list cell :=
  filter truthy_cell (new_Set (map (field_cell dateField) rows)).

(** The series of a sender over an axis. *)
Let series (axis : list cell) (sender : cell) (index : nat) : dataset :=
  {| ds_label := held sender;
     ds_data := VArr (map (point rows dateField valueField sender) axis);
     ds_borderColor :=
       nth_error (generateDistinctColors (List.length senders)) index;
     ds_backgroundColor :=
       nth_error (generateDistinctColors (List.length senders)) index;
     ds_fill := Some true |}.

Lemma groupBySender_try_cases :
  if sort_raises raw_dates
  then exists e, groupBySender_try data dateField valueField = Throw e
  else exists sorted,
         Permutation sorted raw_dates
         /\ StronglySorted date_le (map held sorted)
         /\ groupBySender_try data dateField valueField
            = Ok {| dates := map held sorted;
                    datasets := mapi (series sorted) senders |}.
Proof.
  pose proof (sort_cells raw_dates) as S.
  unfold groupBySender_try. fold rows senders raw_dates.
  destruct (sort_raises raw_dates).
  - destruct S as [e ->]. simpl. eauto.
  - destruct S as (sorted & -> & P & R). exists sorted.
    split; [exact P|]. split; [exact R | reflexivity].
Qed.

Lemma senders_distinct :
  distinct_truthy (map (field_cell "sender") rows) senders.
Proof. apply distinct_truthy_new_Set. Qed.

Lemma raw_dates_distinct :
  distinct_truthy (map (field_cell dateField) rows) raw_dates.
Proof. apply distinct_truthy_new_Set. Qed.

Lemma series_labels (axis : list cell) :
  map ds_label (mapi (series axis) senders) = map held senders.
Proof.
  unfold mapi. rewrite mapi_from_map. simpl.
  generalize 0%nat. induction senders as [|s l IH]; intros i; simpl;
    [|rewrite IH]; reflexivity.
Qed.

Lemma series_nth (axis : list cell) (i : nat) :
  nth_error (mapi (series axis) senders) i
  = match nth_error senders i with
    | Some s => Some (series axis s i)
    | None => None
    end.
Proof. unfold mapi. now rewrite mapi_from_nth. Qed.

Lemma series_In (axis : list cell) (ds : dataset) :
  In ds (mapi (series axis) senders) ->
  exists s i, nth_error senders i = Some s /\ ds = series axis s i.
Proof.
  intros H. apply In_nth_error in H as [i H]. rewrite series_nth in H.
  destruct (nth_error senders i) as [s|] eqn:E; [|discriminate H].
  injection H as <-. now exists s, i.
Qed.

(** Without a row of that sender and date, the point is [0]. *)
Lemma point_absent (sender dt : cell) :
  (forall r, In r rows ->
             same_cell (field_cell "sender" r) sender = true ->
             same_cell (field_cell dateField r) dt = false) ->
  point rows dateField valueField sender dt
  = safeGet VUndefined valueField (VNum 0).
Proof.
  intros H. unfold point. rewrite find_absent; [reflexivity|].
  intros x Hx. apply filter_In in Hx as [Hx Es]. now apply H.
Qed.

(** A sender is the sender of a row. *)
Lemma sender_of_row (s : cell) :
  In s senders ->
  truthy (held s) = true
  /\ exists d, In d data /\ safeGet d "sender" (VStr EmptyString) = held s.
Proof.
  intros H. destruct senders_distinct as (_ & I & _).
  destruct (I s H) as [Hin T]. split; [exact T|].
  apply in_map_iff in Hin as (r & <- & Hr).
  exists (held r). split; [now apply placed_held | reflexivity].
Qed.
End Grouping.

Lemma safeGet_undefined (path : string) (d : value) :
  safeGet VUndefined path d = coalesce VUndefined d.
Proof.
  unfold safeGet. generalize (split_on "." path). intros l.
  induction l as [|k l IH]; simpl; auto.
Qed.

(** What [groupBySender] returns, when the date sort does not raise. *)
Lemma groupBySender_grouped
    (data : value) (dateField valueField : string) (w : world) :
  let rows := placed (elems_of data) in
  let senders := filter truthy_cell (new_Set (map (field_cell "sender") rows)) in
  let raw_dates := filter truthy_cell (new_Set (map (field_cell dateField) rows)) in
  exists g w',
    groupBySender data dateField valueField w = (Ok g, w')
    /\ (sort_raises raw_dates = true /\ g = no_groups
        \/ sort_raises raw_dates = false
           /\ exists sorted,
                Permutation sorted raw_dates
                /\ StronglySorted date_le (map held sorted)
                /\ dates g = map held sorted
                /\ map ds_label (datasets g) = map held senders
                /\ forall i ds,
                     nth_error (datasets g) i = Some ds ->
                     exists s,
                       nth_error senders i = Some s
                       /\ ds_label ds = held s
                       /\ ds_data ds
                          = VArr (map (point rows dateField valueField s) sorted)
                       /\ ds_borderColor ds
                          = nth_error (generateDistinctColors (List.length senders)) i
                       /\ ds_backgroundColor ds
                          = nth_error (generateDistinctColors (List.length senders)) i
                       /\ ds_fill ds = Some true).
Proof.
  intros rows senders raw_dates.
  destruct (groupBySender_run data dateField valueField w)
    as (g & w' & E & H).
  exists g, w'. split; [exact E|].
  pose proof (groupBySender_try_cases (elems_of data) dateField valueField) as C.
  fold rows in C. fold senders in C. fold raw_dates in C.
  destruct (sort_raises raw_dates).
  - left. split; [reflexivity|]. destruct C as [e C].
    destruct H as [[-> _]|O]; [reflexivity | congruence].
  - right. split; [reflexivity|].
    destruct C as (sorted & P & S & C). exists sorted.
    assert (G : Ok g = groupBySender_try (elems_of data) dateField valueField).
    { destruct H as [[-> [V|[e T]]]|O]; [| congruence | now symmetry].
      now rewrite (not_valid_no_rows data V). }
    rewrite C in G. injection G as ->. cbn [dates datasets].
    split; [exact P|]. split; [exact S|]. split; [reflexivity|].
    split; [apply series_labels|].
    intros i ds Hds. unfold rows in Hds. rewrite series_nth in Hds.
    fold rows in Hds. fold senders in Hds.
    destruct (nth_error senders i) as [s|]; [|discriminate Hds].
    injection Hds as <-. exists s. simpl. auto 10.
Qed.

Example groupBySender_quarterly_rows :
  exists g,
    fst (groupBySender (VArr quarterly_rows) "date" "message_count" blank_world)
    = Ok g
    /\ dates g = [VStr "2024-01"; VStr "2024-04"; VStr "2024-07"]
    /\ map ds_label (datasets g) = [VStr "bo"; VStr "al"]
    /\ map ds_data (datasets g)
       = [ VArr [VNum 1; VNum 3; VNum 0]; VArr [VNum 7; VNum 0; VNum 0] ].
Proof. eexists. split; [vm_compute; reflexivity|]. repeat split. Qed.

(** Senders that are objects are distinct values, also when they look
    alike: each row has a series of its own. *)
Example object_senders_are_distinct :
  exists g,
    fst (groupBySender
           (VArr [ row [ ("sender", VObj [("id", VNum 1)]);
                         ("date", VStr "2024-01"); ("message_count", VNum 1) ];
                   row [ ("sender", VObj [("id", VNum 1)]);
                         ("date", VStr "2024-01"); ("message_count", VNum 2) ] ])
           "date" "message_count" blank_world)
    = Ok g
    /\ map ds_label (datasets g)
       = [VObj [("id", VNum 1)]; VObj [("id", VNum 1)]]
    /\ map ds_data (datasets g) = [VArr [VNum 1]; VArr [VNum 2]].
Proof. eexists. split; [vm_compute; reflexivity|]. repeat split. Qed.

(** A single date is never compared, so it needs no string form. *)
Example single_date_is_not_compared :
  exists g,
    fst (groupBySender
           (VArr [ row [ ("sender", VStr "al");
                         ("date", VObj [("toString", VNum 1)]);
                         ("message_count", VNum 4) ] ])
           "date" "message_count" blank_world)
    = Ok g
    /\ dates g = [VObj [("toString", VNum 1)]]
    /\ map ds_data (datasets g) = [VArr [VNum 4]].
Proof. eexists. split; [vm_compute; reflexivity|]. repeat split. Qed.

(** C4, as the code has it.  [groupBySender] returns for every row list.
    [senders] are the distinct truthy sender values of the rows and [axis]
    their distinct truthy date values, values being distinct as the engine
    tells them apart: scalars by value, objects by identity.  When there
    are two dates or more and one of them has no string form, the date sort
    raises and nothing is grouped.  Otherwise there is one series per
    sender, named after it and in the same order; the shared axis holds
    the dates in ascending order of their string forms; and a series has
    the value 0 at every date for which no row of its sender exists. *)
Theorem groupBySender_series (data : value) (w : world) :
  exists g w' senders axis,
    groupBySender data "date" "message_count" w = (Ok g, w')
    /\ distinct_truthy (map sender_cell (placed (elems_of data))) senders
    /\ distinct_truthy (map date_cell (placed (elems_of data))) axis
    /\ (sort_raises axis = true -> g = no_groups)
    /\ (sort_raises axis = false ->
        map ds_label (datasets g) = map held senders
        /\ dates g = map held axis
        /\ StronglySorted date_le (dates g)
        /\ forall i s ds,
             nth_error senders i = Some s ->
             nth_error (datasets g) i = Some ds ->
             exists values,
               ds_data ds = VArr values
               /\ List.length values = List.length axis
               /\ forall k dt,
                    nth_error axis k = Some dt ->
                    (forall r, In r (placed (elems_of data)) ->
                               same_cell (sender_cell r) s = true ->
                               same_cell (date_cell r) dt = false) ->
                    nth_error values k = Some (VNum 0)).
Proof.
  destruct (groupBySender_grouped data "date" "message_count" w)
    as (g & w' & E & H).
  pose proof (senders_distinct (elems_of data)) as DS.
  pose proof (raw_dates_distinct (elems_of data) "date") as DD.
  cbv zeta in H.
  set (rows := placed (elems_of data)) in *.
  set (senders := filter truthy_cell (new_Set (map (field_cell "sender") rows))) in *.
  set (raw_dates := filter truthy_cell (new_Set (map (field_cell "date") rows))) in *.
  destruct H as [[R ->] | (R & sorted & P & S & Hd & Hl & Hs)].
  - exists no_groups, w', senders, raw_dates.
    split; [exact E|]. split; [exact DS|]. split; [exact DD|].
    split; [reflexivity|]. congruence.
  - exists g, w', senders, sorted.
    split; [exact E|]. split; [exact DS|].
    split; [exact (distinct_truthy_perm _ _ _ P DD)|].
    rewrite (sort_raises_perm _ _ P). split; [congruence|]. intros _.
    split; [exact Hl|]. split; [exact Hd|].
    split; [now rewrite Hd|].
    intros i s ds Hi Hds. destruct (Hs i ds Hds) as (s' & Hi' & _ & Hv & _).
    assert (s' = s) by congruence. subst s'.
    eexists. split; [exact Hv|]. split; [apply length_map|].
    intros k dt Hk Hnone. erewrite map_nth_error by exact Hk.
    f_equal. exact (point_absent (elems_of data) "date" "message_count" s dt Hnone).
Qed.

(** C4 as stated fails on a row whose sender is the empty string: that
    sender value occurs in the rows, and no series carries it. *)
Lemma empty_sender_has_no_series :
  exists g,
    fst (groupBySender (VArr rows_with_empty_sender) "date" "message_count"
           blank_world) = Ok g
    /\ In (VStr EmptyString) (map sender_of rows_with_empty_sender)
    /\ ~ In (VStr EmptyString) (map ds_label (datasets g))
    /\ map ds_label (datasets g) = [VStr "al"]
    /\ dates g = [VStr "2024-01"; VStr "2024-04"].
Proof.
  eexists. split; [vm_compute; reflexivity|]. simpl.
  split; [now left|]. split; [|split; reflexivity].
  intros [H|[]]. discriminate H.
Qed.

(** C10. Whatever [groupBySender] returns is aligned: the value list of
    every dataset is as long as the date list.  Every dataset is named after
    the truthy sender value of some row, so a row whose sender is missing or
    empty (for which [safeGet] gives the empty string) has no series. *)
Theorem groupBySender_aligned
    (data : value) (dateField valueField : string) (w : world) :
  exists g w',
    groupBySender data dateField valueField w = (Ok g, w')
    /\ (forall ds, In ds (datasets g) ->
          exists values,
            ds_data ds = VArr values
            /\ List.length values = List.length (dates g))
    /\ (forall ds, In ds (datasets g) ->
          truthy (ds_label ds) = true
          /\ exists d, In d (elems_of data) /\ sender_of d = ds_label ds)
    /\ (forall d ds, In d (elems_of data) -> truthy (sender_of d) = false ->
          In ds (datasets g) -> ds_label ds <> sender_of d)
    /\ ~ In (VStr EmptyString) (map ds_label (datasets g)).
Proof.
  destruct (groupBySender_grouped data dateField valueField w)
    as (g & w' & E & H).
  exists g, w'. split; [exact E|].
  destruct H as [[_ ->] | (_ & sorted & _ & _ & Hd & _ & Hs)].
  { simpl. repeat split; try tauto; intros; contradiction. }
  assert (Hl : forall ds, In ds (datasets g) ->
               truthy (ds_label ds) = true
               /\ exists d, In d (elems_of data) /\ sender_of d = ds_label ds).
  { intros ds Hds. apply In_nth_error in Hds as [i Hds].
    destruct (Hs i ds Hds) as (s & Hi & -> & _).
    apply (sender_of_row (elems_of data)). now apply nth_error_In in Hi. }
  split; [|split; [exact Hl | split]].
  - intros ds Hds. apply In_nth_error in Hds as [i Hds].
    destruct (Hs i ds Hds) as (s & _ & _ & Hv & _).
    eexists. split; [exact Hv|]. now rewrite Hd, !length_map.
  - intros d ds _ Hf Hds Heq. destruct (Hl ds Hds) as [Ht _]. congruence.
  - intros Hin. apply in_map_iff in Hin as (ds & Hlab & Hds).
    destruct (Hl ds Hds) as [Ht _]. rewrite Hlab in Ht. discriminate Ht.
Qed.
(* ================================================================== *)
(** * The assembler does not look at the world *)
(* ================================================================== *)

Lemma same_random_refl (w : world) : same_random w w.
Proof. split; reflexivity. Qed.

Lemma same_random_trans (w1 w2 w3 : world) :
  same_random w1 w2 -> same_random w2 w3 -> same_random w1 w3.
Proof. intros [? ?] [? ?]; split; congruence. Qed.

Lemma world_blind_ret {A} (a : A) : world_blind (ret a).
Proof. intros w1 w2; split; [reflexivity | apply same_random_refl]. Qed.

Lemma world_blind_lift {A} (r : result A) : world_blind (lift r).
Proof. intros w1 w2; split; [reflexivity | apply same_random_refl]. Qed.

Lemma world_blind_console_write lvl msg : world_blind (console_write lvl msg).
Proof. intros w1 w2; split; [reflexivity | split; reflexivity]. Qed.

Lemma world_blind_bind {A B} (m : M world A) (k : A -> M world B) :
  world_blind m -> (forall a, world_blind (k a)) -> world_blind (bind m k).
Proof.
  intros Hm Hk w1 w2. unfold bind.
  destruct (Hm w1 w2) as [E R1].
  destruct (m w1) as [r1 w1'], (m w2) as [r2 w2']; simpl in *. subst r2.
  destruct r1 as [a|e]; simpl.
  - destruct (Hk a w1' w2') as [E' R']. split; [exact E'|].
    eapply same_random_trans; eauto.
  - split; [reflexivity | exact R1].
Qed.

Lemma world_blind_try_catch {A} (m : M world A) (h : exn -> M world A) :
  world_blind m -> (forall e, world_blind (h e)) -> world_blind (try_catch m h).
Proof.
  intros Hm Hh w1 w2. unfold try_catch.
  destruct (Hm w1 w2) as [E R1].
  destruct (m w1) as [r1 w1'], (m w2) as [r2 w2']; simpl in *. subst r2.
  destruct r1 as [a|e]; simpl.
  - split; [reflexivity | exact R1].
  - destruct (Hh e w1' w2') as [E' R']. split; [exact E'|].
    eapply same_random_trans; eauto.
Qed.

Lemma world_blind_groupBySender data dateField valueField :
  world_blind (groupBySender data dateField valueField).
Proof.
  unfold groupBySender. destruct (negb (isValidArray data)).
  - apply world_blind_ret.
  - apply world_blind_try_catch; [apply world_blind_lift|].
    intros e. apply world_blind_bind.
    + apply world_blind_console_write.
    + intros _. apply world_blind_ret.
Qed.

Lemma blind_ret {A} (a : A) : blind (ret a).
Proof. intros ds w1 w2; repeat split; reflexivity. Qed.

Lemma blind_lift {A} (r : result A) : blind (lift r).
Proof. intros ds w1 w2; repeat split; reflexivity. Qed.

Lemma blind_push (it : item) : blind (push it).
Proof. intros ds w1 w2; repeat split; reflexivity. Qed.

Lemma blind_in_world {A} (m : M world A) : world_blind m -> blind (in_world m).
Proof.
  intros Hm ds w1 w2. unfold in_world; simpl.
  destruct (Hm w1 w2) as [E R].
  destruct (m w1) as [r1 w1'], (m w2) as [r2 w2']; simpl in *.
  repeat split; auto; apply R.
Qed.

Lemma blind_bind {A B} (m : Build A) (k : A -> Build B) :
  blind m -> (forall a, blind (k a)) -> blind (bind m k).
Proof.
  intros Hm Hk ds w1 w2. unfold bind.
  destruct (Hm ds w1 w2) as (E & D & R1).
  destruct (m (ds, w1)) as [r1 [ds1 w1']], (m (ds, w2)) as [r2 [ds2 w2']];
    simpl in *. subst r2 ds2.
  destruct r1 as [a|e]; simpl.
  - destruct (Hk a ds1 w1' w2') as (E' & D' & R'). repeat split; auto.
    + eapply eq_trans; [apply R1 | apply R'].
    + eapply eq_trans; [apply R1 | apply R'].
  - repeat split; auto; apply R1.
Qed.

Lemma blind_try_catch {A} (m : Build A) (h : exn -> Build A) :
  blind m -> (forall e, blind (h e)) -> blind (try_catch m h).
Proof.
  intros Hm Hh ds w1 w2. unfold try_catch.
  destruct (Hm ds w1 w2) as (E & D & R1).
  destruct (m (ds, w1)) as [r1 [ds1 w1']], (m (ds, w2)) as [r2 [ds2 w2']];
    simpl in *. subst r2 ds2.
  destruct r1 as [a|e]; simpl.
  - repeat split; auto; apply R1.
  - destruct (Hh e ds1 w1' w2') as (E' & D' & R'). repeat split; auto.
    + eapply eq_trans; [apply R1 | apply R'].
    + eapply eq_trans; [apply R1 | apply R'].
Qed.

Ltac blind_step :=
  first
    [ apply blind_ret
    | apply blind_lift
    | apply blind_push
    | apply blind_in_world; first [ apply world_blind_groupBySender
                                  | apply world_blind_console_write ]
    | apply blind_bind; [| intros ? ]
    | match goal with
      | |- blind (if ?c then _ else _) => destruct c
      end ].

Lemma blind_barChart a metric lf vf t sl bg : blind (barChart a metric lf vf t sl bg).
Proof. unfold barChart. repeat blind_step. Qed.

Lemma blind_lineChart a metric lf vf t sl bd : blind (lineChart a metric lf vf t sl bd).
Proof. unfold lineChart. repeat blind_step. Qed.

Lemma blind_quarterlyContributionChart a : blind (quarterlyContributionChart a).
Proof. unfold quarterlyContributionChart. repeat blind_step. Qed.

Lemma blind_daySummariesGrid a : blind (daySummariesGrid a).
Proof. unfold daySummariesGrid. repeat blind_step. Qed.

Lemma blind_metricCharts a : blind (metricCharts a).
Proof.
  unfold metricCharts, dayOfWeekChart, monthlyMessagesChart, avgMessagesSentChart,
    yearlyComparisonChart, topTenDaysChart, manicChart, mostIgnoredChart,
    novelistChart, swearsChart, hangoutChart.
  repeat (apply blind_bind; [| intros _ ]);
    first [ apply blind_barChart | apply blind_lineChart
          | apply blind_quarterlyContributionChart | apply blind_daySummariesGrid ].
Qed.

Lemma blind_buildChartDataSets_try a : blind (buildChartDataSets_try a).
Proof.
  unfold buildChartDataSets_try.
  apply blind_bind; [apply blind_metricCharts | intros _; apply blind_push].
Qed.

Lemma world_blind_buildChartDataSets a : world_blind (buildChartDataSets a).
Proof.
  unfold buildChartDataSets. destruct (negb (truthy a)).
  - apply world_blind_ret.
  - intros w1 w2.
    pose proof (blind_try_catch (buildChartDataSets_try a)
                  (fun _ => in_world (console_error "Error building chart datasets:"))
                  (blind_buildChartDataSets_try a)
                  (fun _ => blind_in_world _ (world_blind_console_write _ _))
                  [] w1 w2) as (E & D & R).
    destruct (try_catch _ _ ([], w1)) as [r1 [ds1 w1']].
    destruct (try_catch _ _ ([], w2)) as [r2 [ds2 w2']].
    simpl in *. subst. split; [reflexivity | exact R].
Qed.

Lemma buildChartDataSets_total a w :
  exists items, fst (buildChartDataSets a w) = Ok items.
Proof.
  unfold buildChartDataSets. destruct (negb (truthy a)).
  - now exists [].
  - destruct (try_catch _ _ ([], w)) as [r [ds w']]. now exists ds.
Qed.

Lemma buildChartDataSets_returns a w :
  fst (buildChartDataSets a w) = Ok (assemble a).
Proof.
  unfold assemble, returned.
  destruct (world_blind_buildChartDataSets a w blank_world) as [E _].
  rewrite <- E.
  destruct (buildChartDataSets_total a w) as [items ->]. reflexivity.
Qed.

(** A computation that does look at the world: [getRandomColor]. *)
Lemma getRandomColor_not_world_blind : ~ world_blind getRandomColor.
Proof.
  intros H.
  destruct (H blank_world
              {| console := []; entropy := fun _ => (1 # 2)%Q; drawn := 0%nat |})
    as [E _].
  vm_compute in E. discriminate E.
Qed.

(** C6. The assembler is deterministic: whatever the console already holds
    and whatever [Math.random] is about to return, two invocations on the
    same payload return the same sequence of items, each of them does
    return, and no random number is drawn. *)
Theorem buildChartDataSets_deterministic (analysisData : value) (w1 w2 : world) :
  fst (buildChartDataSets analysisData w1) = fst (buildChartDataSets analysisData w2)
  /\ (exists items, fst (buildChartDataSets analysisData w1) = Ok items)
  /\ same_random w1 (snd (buildChartDataSets analysisData w1)).
Proof.
  destruct (world_blind_buildChartDataSets analysisData w1 w2) as [E R].
  split; [exact E|]. split; [|exact R].
  apply buildChartDataSets_total.
Qed.

(** C8. For the payload whose only content is the two [day_of_week] rows
    Mon/5 and Tue/10, the assembler returns exactly one item, the bar chart
    of that metric, with labels [Tue, Mon] and values [10, 5]. *)
Theorem day_of_week_scenario (w : world) :
  fst (buildChartDataSets payload_day_of_week_only w)
  = Ok [ Chart "Average Messages by Day of Week" Bar
           {| cd_labels := VArr [VStr "Tue"; VStr "Mon"];
              cd_datasets :=
                [ {| ds_label := VStr "Avg Messages by Day of Week";
                     ds_data := VArr [VNum 10; VNum 5];
                     ds_backgroundColor := Some (Css "rgba(54, 162, 235, 0.6)");
                     ds_borderColor := None;
                     ds_fill := None |} ] |}
           VUndefined ].
Proof. rewrite buildChartDataSets_returns. vm_compute. reflexivity. Qed.

(* ================================================================== *)
(** * The closing card *)
(* ================================================================== *)

Lemma truthy_not_nullish (v : value) : truthy v = true -> nullish v = false.
Proof. destruct v; simpl; congruence. Qed.

Lemma get_prop_present (v : value) (k : string) :
  nullish v = false -> get_prop v k = Ok (opt_get v k).
Proof.
  unfold opt_get. destruct v; simpl; try discriminate; auto;
    destruct (k =? "length")%string; reflexivity.
Qed.

Section NoRows.
Variable analysisData : value.
Variable metric : string.
Hypothesis Htruthy : truthy analysisData = true.
Hypothesis Hpresent : present analysisData metric = true.
Hypothesis Hrows : has_rows analysisData metric = false.

Lemma metric_data_read (s : list item * world) :
  lift (get_prop analysisData metric) s = (Ok (opt_get analysisData metric), s)
  /\ lift (get_prop (opt_get analysisData metric) "data") s
     = (Ok (opt_get (opt_get analysisData metric) "data"), s).
Proof.
  unfold lift. rewrite !get_prop_present; auto.
  - unfold present in Hpresent. now apply negb_true_iff in Hpresent.
  - now apply truthy_not_nullish.
Qed.

Lemma barChart_no_rows lf vf t sl bg s :
  barChart analysisData metric lf vf t sl bg s = (Ok tt, s).
Proof.
  unfold barChart, bind. destruct (metric_data_read s) as [-> E].
  rewrite E. unfold has_rows in Hrows. now rewrite Hrows.
Qed.

Lemma lineChart_no_rows lf vf t sl bd s :
  lineChart analysisData metric lf vf t sl bd s = (Ok tt, s).
Proof.
  unfold lineChart, bind. destruct (metric_data_read s) as [-> E].
  rewrite E. unfold has_rows in Hrows. now rewrite Hrows.
Qed.
End NoRows.

Lemma quarterlyContributionChart_no_rows analysisData s :
  truthy analysisData = true ->
  present analysisData "quarterly_contribution" = true ->
  has_rows analysisData "quarterly_contribution" = false ->
  quarterlyContributionChart analysisData s = (Ok tt, s).
Proof.
  intros Ht Hp Hr. unfold quarterlyContributionChart, bind.
  destruct (metric_data_read analysisData _ Ht Hp s) as [-> E].
  rewrite E. unfold has_rows in Hr. now rewrite Hr.
Qed.

Lemma daySummariesGrid_no_days analysisData s :
  truthy analysisData = true ->
  elems_of (opt_get (opt_get analysisData "top_ten_days") "day_summaries") = [] ->
  daySummariesGrid analysisData s = (Ok tt, s).
Proof.
  intros Ht Hd. unfold daySummariesGrid, bind, lift.
  rewrite get_prop_present by now apply truthy_not_nullish.
  destruct (truthy _ && is_array _); [|reflexivity].
  rewrite Hd. reflexivity.
Qed.

Lemma metricCharts_no_rows analysisData s :
  truthy analysisData = true ->
  (forall k, In k metric_keys ->
             present analysisData k = true /\ has_rows analysisData k = false) ->
  elems_of (opt_get (opt_get analysisData "top_ten_days") "day_summaries") = [] ->
  metricCharts analysisData s = (Ok tt, s).
Proof.
  intros Ht Hk Hd.
  assert (K : forall k, In k metric_keys ->
                        present analysisData k = true) by (intros; now apply Hk).
  assert (R : forall k, In k metric_keys ->
                        has_rows analysisData k = false) by (intros; now apply Hk).
  unfold metricCharts, dayOfWeekChart, monthlyMessagesChart, avgMessagesSentChart,
    yearlyComparisonChart, topTenDaysChart, manicChart, mostIgnoredChart,
    novelistChart, swearsChart, hangoutChart, bind.
  repeat first
    [ rewrite barChart_no_rows by (auto; first [apply K | apply R]; simpl; tauto)
    | rewrite lineChart_no_rows by (auto; first [apply K | apply R]; simpl; tauto)
    | rewrite quarterlyContributionChart_no_rows
        by (auto; first [apply K | apply R]; simpl; tauto)
    | rewrite daySummariesGrid_no_days by auto ].
  reflexivity.
Qed.

Lemma succeeds_then (m k : Build unit) :
  succeeds m -> succeeds k -> succeeds (m ;; k).
Proof.
  intros Hm Hk s. unfold bind. destruct (Hm s) as [s1 ->]. apply Hk.
Qed.

Lemma day_ok_converts (dayData : value) :
  day_ok dayData = true -> exists s, daySummary dayData = Ok s.
Proof.
  unfold day_ok. intros H.
  apply andb_prop in H as [H Hs]. apply andb_prop in H as [H Hd].
  apply andb_prop in H as [Hn Hc]. apply negb_true_iff in Hn, Hc.
  apply has_string_form_true in Hd as [t Hd], Hs as [u Hs].
  unfold daySummary. rewrite !(get_prop_present dayData) by exact Hn.
  simpl. rewrite Hd. simpl. rewrite (get_prop_present _ "summary") by exact Hc.
  simpl. rewrite Hs. simpl. eauto.
Qed.

Lemma rmap_converts (l : list value) :
  forallb day_ok l = true -> exists r, rmap daySummary l = Ok r.
Proof.
  induction l as [|x l IH]; simpl; [eauto|].
  intros H. apply andb_prop in H as [Hx Hl].
  destruct (day_ok_converts x Hx) as [y ->].
  destruct (IH Hl) as [r ->]. simpl. eauto.
Qed.

Section Succeeds.
Variable analysisData : value.
Hypothesis Htruthy : truthy analysisData = true.

Lemma barChart_succeeds metric lf vf t sl bg :
  present analysisData metric = true ->
  forallb (fun d => scalar (safeGet d vf (VNum 0))) (rows_of analysisData metric)
  = true ->
  succeeds (barChart analysisData metric lf vf t sl bg).
Proof.
  intros Hp Hs s. unfold barChart, bind.
  destruct (metric_data_read analysisData metric Htruthy Hp s) as [-> E].
  rewrite E. destruct (isValidArray _); [|eexists; reflexivity].
  unfold lift.
  edestruct sortBarData_total as [r ->].
  { apply Forall_map. rewrite forallb_forall in Hs. apply Forall_forall. exact Hs. }
  rewrite get_prop_present
    by (unfold present in Hp; now apply negb_true_iff in Hp).
  eexists. reflexivity.
Qed.

Lemma lineChart_succeeds metric lf vf t sl bd :
  present analysisData metric = true ->
  succeeds (lineChart analysisData metric lf vf t sl bd).
Proof.
  intros Hp s. unfold lineChart, bind.
  destruct (metric_data_read analysisData metric Htruthy Hp s) as [-> E].
  rewrite E. destruct (isValidArray _); [|eexists; reflexivity].
  unfold lift.
  rewrite get_prop_present
    by (unfold present in Hp; now apply negb_true_iff in Hp).
  eexists. reflexivity.
Qed.

Lemma quarterlyContributionChart_succeeds :
  present analysisData "quarterly_contribution" = true ->
  succeeds (quarterlyContributionChart analysisData).
Proof.
  intros Hp s. unfold quarterlyContributionChart, bind.
  destruct (metric_data_read analysisData _ Htruthy Hp s) as [-> E].
  rewrite E. destruct (isValidArray _); [|eexists; reflexivity].
  unfold in_world.
  destruct (groupBySender_run (opt_get (opt_get analysisData "quarterly_contribution") "data")
              "date" "message_count" (snd s)) as (g & w' & -> & _).
  destruct (_ && _); [|eexists; reflexivity].
  unfold lift.
  rewrite get_prop_present
    by (unfold present in Hp; now apply negb_true_iff in Hp).
  eexists. reflexivity.
Qed.

Lemma daySummariesGrid_succeeds :
  forallb day_ok (day_summaries_of analysisData) = true ->
  succeeds (daySummariesGrid analysisData).
Proof.
  intros Hc s. unfold daySummariesGrid, bind, lift.
  rewrite get_prop_present by now apply truthy_not_nullish.
  destruct (truthy _ && is_array _); [|eexists; reflexivity].
  destruct (rmap_converts _ Hc) as [r E]. unfold day_summaries_of in E.
  rewrite E. destruct (0 <? _); eexists; reflexivity.
Qed.
End Succeeds.

Lemma metricCharts_succeeds (analysisData : value) :
  well_formed analysisData = true -> succeeds (metricCharts analysisData).
Proof.
  unfold well_formed. intros H.
  apply andb_prop in H as [H Hd]. apply andb_prop in H as [H Hs].
  apply andb_prop in H as [Ht Hp].
  rewrite forallb_forall in Hp, Hs.
  assert (S : forall k vf, In (k, vf) bar_metrics ->
             forallb (fun d => scalar (safeGet d vf (VNum 0)))
                     (rows_of analysisData k) = true).
  { intros k vf Hin. exact (Hs (k, vf) Hin). }
  unfold metricCharts, dayOfWeekChart, monthlyMessagesChart, avgMessagesSentChart,
    yearlyComparisonChart, topTenDaysChart, manicChart, mostIgnoredChart,
    novelistChart, swearsChart, hangoutChart.
  repeat apply succeeds_then;
    first [ apply barChart_succeeds;
              [exact Ht | apply Hp; simpl; tauto | apply S; simpl; tauto]
          | apply lineChart_succeeds; [exact Ht | apply Hp; simpl; tauto]
          | apply quarterlyContributionChart_succeeds;
              [exact Ht | apply Hp; simpl; tauto]
          | apply daySummariesGrid_succeeds; [exact Ht | exact Hd] ].
Qed.

Lemma well_formed_completes (analysisData : value) (w : world) :
  well_formed analysisData = true -> completes analysisData w.
Proof.
  intros H. unfold completes, buildChartDataSets_try, bind.
  destruct (metricCharts_succeeds analysisData H ([], w)) as [s' ->].
  reflexivity.
Qed.


Lemma buildChartDataSets_completes analysisData w :
  truthy analysisData = true ->
  completes analysisData w ->
  exists front,
    fst (buildChartDataSets analysisData w) = Ok (front ++ [closingCard])%list.
Proof.
  intros Ht Hc. unfold completes, buildChartDataSets_try, bind in Hc.
  unfold buildChartDataSets, try_catch, buildChartDataSets_try, bind.
  rewrite Ht; simpl.
  destruct (metricCharts analysisData ([], w)) as [[[]|e] [ds w']]; simpl in *.
  - now exists ds.
  - discriminate Hc.
Qed.

(** C2, as the code has it.  A falsy payload (null, absent) gives the empty
    sequence.  For any other payload on which the [try] block runs to its
    end, the sequence is not empty and the closing card is its last element.
    The block does run to its end on every well-formed payload: every
    metric key is present (not null), the values to be sorted are scalars,
    and every day summary is an object with a [content] object whose date
    and summary text are falsy or have a string form.  And when every
    metric key is present, none has rows and there are no day summaries, the
    sequence is the closing card alone. *)
Theorem closing_card_last (analysisData : value) (w : world) :
  (truthy analysisData = false ->
   fst (buildChartDataSets analysisData w) = Ok [])
  /\ (truthy analysisData = true ->
      completes analysisData w ->
      exists front,
        fst (buildChartDataSets analysisData w) = Ok (front ++ [closingCard])%list)
  /\ (well_formed analysisData = true ->
      exists front,
        fst (buildChartDataSets analysisData w) = Ok (front ++ [closingCard])%list)
  /\ (truthy analysisData = true ->
      (forall k, In k metric_keys ->
                 present analysisData k = true /\ has_rows analysisData k = false) ->
      day_summaries_of analysisData = [] ->
      fst (buildChartDataSets analysisData w) = Ok [closingCard]).
Proof.
  split; [|split; [|split]].
  - intros Hf. unfold buildChartDataSets. now rewrite Hf.
  - apply buildChartDataSets_completes.
  - intros H. apply buildChartDataSets_completes.
    + unfold well_formed in H. now repeat (apply andb_prop in H as [H _]).
    + now apply well_formed_completes.
  - intros Ht Hk Hd.
    unfold buildChartDataSets, try_catch, buildChartDataSets_try, bind.
    rewrite Ht; simpl.
    now rewrite metricCharts_no_rows.
Qed.

Lemma closing_card_last_witness :
  fst (buildChartDataSets VNull blank_world) = Ok []
  /\ (exists front,
        fst (buildChartDataSets payload_with_empty_day_of_week blank_world)
        = Ok (front ++ [closingCard])%list)
  /\ fst (buildChartDataSets payload_all_empty blank_world) = Ok [closingCard].
Proof.
  split; [|split].
  - apply (closing_card_last VNull blank_world). reflexivity.
  - destruct (closing_card_last payload_with_empty_day_of_week blank_world)
      as (_ & _ & Hwf & _).
    apply Hwf. vm_compute. reflexivity.
  - apply (closing_card_last payload_all_empty blank_world).
    + reflexivity.
    + intros k Hk. simpl in Hk.
      repeat (destruct Hk as [<-|Hk]; [split; vm_compute; reflexivity|]).
      destruct Hk.
    + vm_compute. reflexivity.
Defined.

(** C2 as stated fails on the null payload: the sequence returned is empty,
    so it has no last element. *)
Lemma null_payload_has_no_closing_card :
  fst (buildChartDataSets VNull blank_world) = Ok []
  /\ ~ (exists front,
          fst (buildChartDataSets VNull blank_world)
          = Ok (front ++ [closingCard])%list).
Proof.
  split; [reflexivity|].
  intros [front E]. vm_compute in E.
  destruct front; discriminate E.
Qed.

(* ================================================================== *)
(** * An absent metric key *)
(* ================================================================== *)

(** The first metric read raises when its key is absent, and nothing has
    been pushed yet. *)
Lemma absent_day_of_week_empties (analysisData : value) (w : world) :
  truthy analysisData = true ->
  present analysisData "day_of_week" = false ->
  fst (buildChartDataSets analysisData w) = Ok [].
Proof.
  intros Ht Hp. unfold buildChartDataSets. rewrite Ht. simpl.
  unfold try_catch, buildChartDataSets_try, metricCharts, dayOfWeekChart,
    barChart, bind, lift.
  rewrite get_prop_present by now apply truthy_not_nullish.
  unfold present in Hp. apply negb_false_iff in Hp.
  destruct (opt_get analysisData "day_of_week"); try discriminate Hp;
    reflexivity.
Qed.

(** C1, evaluated.  With the key [day_of_week] absent the assembler returns
    the empty sequence: the monthly chart and the closing card, which it
    builds when the key is present with an empty row list, are lost. *)
Theorem absent_key_aborts_assembly (w : world) :
  fst (buildChartDataSets payload_without_day_of_week w) = Ok []
  /\ fst (buildChartDataSets payload_with_empty_day_of_week w)
     = Ok [monthlyMessagesItem; closingCard].
Proof.
  rewrite !buildChartDataSets_returns. split; vm_compute; reflexivity.
Qed.

(* ================================================================== *)
(** * Ranking charts *)
(* ================================================================== *)

(** A sorted bar chart over rows with numeric values pushes exactly what
    [sortBarData] returns for them: the pairs of the rows in descending,
    stable order. *)
Lemma barChart_pushes_sorted
    (analysisData : value) (metric lf vf t sl bg : string)
    (nums : list Qc) (s : list item * world) :
  truthy analysisData = true ->
  present analysisData metric = true ->
  has_rows analysisData metric = true ->
  map (fun d => safeGet d vf (VNum 0)) (rows_of analysisData metric)
  = map VNum nums ->
  let labels :=
    map (fun d => safeGet d lf (VStr EmptyString)) (rows_of analysisData metric) in
  let sorted := isort smaller (combine labels nums) in
  barChart analysisData metric lf vf t sl bg s
  = (Ok tt,
     ((fst s ++
       [ Chart t Bar
           {| cd_labels := VArr (map fst sorted);
              cd_datasets :=
                [ {| ds_label := VStr sl;
                     ds_data := VArr (map VNum (map snd sorted));
                     ds_backgroundColor := Some (Css bg);
                     ds_borderColor := None;
                     ds_fill := None |} ] |}
           (opt_get (opt_get analysisData metric) "caption") ])%list,
      snd s)).
Proof.
  intros Ht Hp Hr Hv labels sorted. unfold barChart, bind.
  destruct (metric_data_read analysisData metric Ht Hp s) as [-> E].
  rewrite E. unfold has_rows in Hr. rewrite Hr.
  unfold rows_of in *. unfold lift. rewrite Hv.
  assert (Hlen : List.length labels = List.length nums).
  { unfold labels. rewrite length_map.
    rewrite <- (length_map VNum nums), <- Hv. now rewrite length_map. }
  assert (Hpos : (0 < List.length labels)%nat).
  { unfold labels. rewrite length_map. unfold isValidArray in Hr.
    apply andb_prop in Hr as [_ Hr]. apply Z.ltb_lt in Hr. lia. }
  fold labels. rewrite (sortBarData_numeric labels nums Hlen Hpos).
  rewrite get_prop_present
    by (unfold present in Hp; now apply negb_true_iff in Hp).
  reflexivity.
Qed.
(* ================================================================== *)
(** * Navigation *)
(* ================================================================== *)

Lemma buildChartDataSets_run a w :
  exists w', buildChartDataSets a w = (Ok (assemble a), w').
Proof.
  pose proof (buildChartDataSets_returns a w) as E.
  destruct (buildChartDataSets a w) as [r w']. simpl in E. subst r.
  now exists w'.
Qed.

(** What a wheel event does: whether it is accepted, and which way it
    steps, is decided on the state its handler saw; the step itself is
    taken on the cells. *)
Lemma handleScroll_run (deltaY : Q) (seen st : app_state) (w : world) :
  exists st' w',
    handleScroll deltaY seen st w = (Ok st', w')
    /\ same_session st st'
    /\ if accepts seen
       then isScrolling st' = true
            /\ currentChartIndex st' = currentChartIndex st + direction deltaY seen
       else st' = st.
Proof.
  unfold handleScroll, accepts, direction, item_count, same_session.
  destruct (isScrolling seen || negb (truthy (analysisData seen))) eqn:G; simpl.
  { exists st, w. repeat split; auto. }
  unfold bind. destruct (buildChartDataSets_run (analysisData seen) w) as [w' ->].
  destruct (_ =? 0); simpl.
  { exists st, w'. repeat split; auto. }
  destruct (negb (Qle_bool deltaY 0) && _).
  { eexists _, w'. split; [reflexivity|]. simpl. repeat split; auto. }
  destruct (negb (Qle_bool 0 deltaY) && _);
    eexists _, w'; (split; [reflexivity|]); simpl; repeat split; auto; lia.
Qed.

Lemma render_returns (st : app_state) (w : world) :
  exists v w', render st w = (Ok v, w').
Proof.
  unfold render. destruct (phase st); try (eexists _, _; reflexivity).
  unfold bind. destruct (buildChartDataSets_run (analysisData st) w) as [w' ->].
  destruct (_ =? 0); eexists _, _; reflexivity.
Qed.

Lemma step_run (ev : scroll_event) (pg : page) (w : world) :
  exists pg' w',
    step ev pg w = (Ok pg', w')
    /\ match ev with
       | Wheel deltaY =>
           seen pg' = seen pg
           /\ same_session (cells pg) (cells pg')
           /\ if accepts (seen pg)
              then isScrolling (cells pg') = true
                   /\ currentChartIndex (cells pg')
                      = currentChartIndex (cells pg) + direction deltaY (seen pg)
              else cells pg' = cells pg
       | DebounceElapsed =>
           seen pg' = seen pg /\ cells pg' = setIsScrolling false (cells pg)
       | Render => pg' = rendered (cells pg)
       end.
Proof.
  destruct ev as [deltaY| |]; simpl.
  - unfold bind.
    destruct (handleScroll_run deltaY (seen pg) (cells pg) w)
      as (st' & w' & -> & S & H).
    eexists _, w'. split; [reflexivity|]. simpl. auto.
  - eexists _, w. split; [reflexivity|]. simpl. auto.
  - unfold bind. destruct (render_returns (cells pg) w) as (v & w' & ->).
    eexists _, w'. split; reflexivity.
Qed.

(** C5, evaluated.  The sequence for this payload has two items.  Three
    forward wheel events that arrive before the component re-renders are all
    accepted, because each handler still sees the cursor at 0 and the
    debounce flag down, and each adds one: the cursor ends at 3, outside
    [0, 1].  With a re-render after every event the same events, spaced by
    timer expiries, leave it at 1. *)
Theorem wheel_burst_overruns_cursor (w : world) :
  item_count (visualizing payload_with_empty_day_of_week) = 2
  /\ (exists pg w',
        run [Wheel 120; Wheel 120; Wheel 120]
            (rendered (visualizing payload_with_empty_day_of_week)) w
        = (Ok pg, w')
        /\ currentChartIndex (cells pg) = 3)
  /\ (exists pg w',
        run [ Wheel 120; Render; DebounceElapsed; Render;
              Wheel 120; Render; DebounceElapsed; Render;
              Wheel 120; Render ]
            (rendered (visualizing payload_with_empty_day_of_week)) w
        = (Ok pg, w')
        /\ currentChartIndex (cells pg) = 1).
Proof.
  split; [reflexivity|].
  split; eexists _, _; (split; [vm_compute; reflexivity | reflexivity]).
Qed.

(* ================================================================== *)
(** * Year change *)
(* ================================================================== *)

(** C7. A year change whose request fails (rejected fetch, non-2xx status or
    unparsable body) ends in phase [error] with the payload and the cursor
    as they were, and the view is the error screen, not the visualization;
    one whose request succeeds ends in phase [visualize] with the new
    payload and the cursor at 0. *)
Theorem year_change_outcomes
    (year : value) (outcome : fetch_outcome) (st : app_state) (w : world) :
  exists st' w',
    handleYearChange year outcome st w = (Ok st', w')
    /\ selectedYear st' = year
    /\ match outcome with
       | Response true (Json json) =>
           phase st' = PhVisualize
           /\ analysisData st' = json
           /\ currentChartIndex st' = 0
       | _ =>
           phase st' = PhError
           /\ analysisData st' = analysisData st
           /\ currentChartIndex st' = currentChartIndex st
           /\ forall w0,
                fst (render st' w0) = Ok (ErrorScreen "Failed to fetch data for year")
       end.
Proof.
  destruct outcome as [|[|] [json|]]; eexists _, _;
    (split; [reflexivity|]); simpl; repeat split.
Qed.

Example year_change_http_500 :
  exists w',
    handleYearChange (VStr "2023") (Response false Malformed)
      (setCurrentChartIndex (fun _ => 1)
         (visualizing payload_with_empty_day_of_week)) blank_world
    = (Ok {| phase := PhError;
             analysisData := payload_with_empty_day_of_week;
             selectedYear := VStr "2023";
             transcript := VStr "1/1/24, 10:00 - al: happy new year";
             currentChartIndex := 1;
             isScrolling := false;
             error := Some "Failed to fetch data for year" |}, w').
Proof. eexists. vm_compute. reflexivity. Qed.

(* ================================================================== *)
(** * safeGet *)
(* ================================================================== *)

Lemma split_on_dot_free (k : string) :
  dot_free k = true -> split_on "." k = [k].
Proof.
  induction k as [|c k IH]; simpl; [reflexivity|].
  intros H. apply andb_prop in H as [Hc Hk].
  apply negb_true_iff in Hc. rewrite Hc, (IH Hk). reflexivity.
Qed.

Lemma split_on_cons (c : ascii) (s : string) :
  exists w ws, split_on c s = w :: ws.
Proof.
  induction s as [|a s (w & ws & IH)]; simpl; [eauto|].
  destruct (Ascii.eqb a c); [eauto|]. rewrite IH. eauto.
Qed.

Lemma split_on_app (c : ascii) (p q : string) :
  split_on c (p ++ String c q) = (split_on c p ++ split_on c q)%list.
Proof.
  induction p as [|a p IH]; simpl.
  - now rewrite Ascii.eqb_refl.
  - destruct (Ascii.eqb a c); [now rewrite IH|].
    rewrite IH. destruct (split_on_cons c p) as (w & ws & ->). reflexivity.
Qed.

Lemma walk_undefined (l : list string) : fold_left opt_get l VUndefined = VUndefined.
Proof. induction l as [|k l IH]; simpl; auto. Qed.

(** X1. [safeGet] on a plain object, with a one-segment key and a default
    that is not null: a field that is present and not null is returned as it
    is, also when it is falsy (0, false, the empty string); a field that is
    missing - and whose name no object inherits - or null gives the default;
    so does a null or undefined row; and the result is never null or
    undefined, whatever the path. *)
Theorem safeGet_field
    (fields : list (string * value)) (k : string) (d : value) :
  dot_free k = true ->
  nullish d = false ->
  (forall v, assoc k fields = Some v -> nullish v = false ->
             safeGet (VObj fields) k d = v)
  /\ (inherited k = false -> assoc k fields = None ->
      safeGet (VObj fields) k d = d)
  /\ (assoc k fields = Some VNull -> safeGet (VObj fields) k d = d)
  /\ (forall obj path, nullish obj = true -> safeGet obj path d = d)
  /\ (forall obj path, nullish (safeGet obj path d) = false).
Proof.
  intros Hk Hd. unfold safeGet. rewrite (split_on_dot_free k Hk). simpl.
  unfold opt_get at 1 2 3. simpl.
  split; [|split; [|split; [|split]]].
  - intros v -> Hv. unfold coalesce. now rewrite Hv.
  - intros _ ->. reflexivity.
  - intros ->. reflexivity.
  - intros obj path Hn. destruct (split_on_cons "." path) as (w & ws & ->).
    simpl. replace (opt_get obj w) with VUndefined
      by (destruct obj; try discriminate Hn; reflexivity).
    now rewrite walk_undefined.
  - intros obj path. unfold coalesce.
    destruct (nullish (fold_left _ _ _)) eqn:E; [exact Hd | exact E].
Qed.

Lemma safeGet_field_witness :
  safeGet (row [("chats", VNum 0); ("day", VNull)]) "chats" (VNum 7) = VNum 0
  /\ safeGet (row [("chats", VNum 0); ("day", VNull)]) "day" (VStr "?") = VStr "?"
  /\ safeGet (row [("chats", VNum 0); ("day", VNull)]) "sender" (VStr "?")
     = VStr "?".
Proof.
  split; [|split].
  - destruct (safeGet_field [("chats", VNum 0); ("day", VNull)] "chats" (VNum 7)
                eq_refl eq_refl) as (H & _).
    apply H; reflexivity.
  - destruct (safeGet_field [("chats", VNum 0); ("day", VNull)] "day" (VStr "?")
                eq_refl eq_refl) as (_ & _ & H & _).
    apply H. reflexivity.
  - destruct (safeGet_field [("chats", VNum 0); ("day", VNull)] "sender"
                (VStr "?") eq_refl eq_refl) as (_ & H & _).
    apply H; reflexivity.
Defined.

(** X2. On a plain object a dotted path is walked segment by segment:
    for a first segment [p] that names no inherited member, reading [p.q]
    from the object is reading [q] from what its field [p] holds, and when
    that field is missing or null the result is the default instead of an
    exception. *)
Theorem safeGet_path
    (fields : list (string * value)) (p q : string) (d : value) :
  dot_free p = true ->
  inherited p = false ->
  safeGet (VObj fields) (p ++ String "." q) d
  = safeGet (opt_get (VObj fields) p) q d
  /\ (nullish (opt_get (VObj fields) p) = true ->
      safeGet (VObj fields) (p ++ String "." q) d = d).
Proof.
  intros Hp _.
  assert (E : safeGet (VObj fields) (p ++ String "." q) d
              = safeGet (opt_get (VObj fields) p) q d).
  { unfold safeGet. rewrite split_on_app, fold_left_app.
    now rewrite (split_on_dot_free p Hp). }
  split; [exact E|].
  intros Hn. rewrite E. unfold safeGet.
  destruct (split_on_cons "." q) as (w & ws & ->). simpl.
  replace (opt_get (opt_get (VObj fields) p) w) with VUndefined
    by (destruct (opt_get (VObj fields) p); try discriminate Hn; reflexivity).
  now rewrite walk_undefined.
Qed.

Lemma safeGet_path_witness :
  safeGet (row [("content", row [("summary", VStr "a long day")])])
          "content.summary" (VStr EmptyString)
  = safeGet (row [("summary", VStr "a long day")]) "summary" (VStr EmptyString)
  /\ safeGet (row [("content", VNull)]) "content.summary" (VStr "none")
     = VStr "none".
Proof.
  split.
  - destruct (safeGet_path [("content", row [("summary", VStr "a long day")])]
                "content" "summary" (VStr EmptyString) eq_refl eq_refl) as [H _].
    exact H.
  - destruct (safeGet_path [("content", VNull)]
                "content" "summary" (VStr "none") eq_refl eq_refl) as [_ H].
    apply H. reflexivity.
Defined.

(* ================================================================== *)
(** * sortBarData on arbitrary values *)
(* ================================================================== *)

Lemma isort_of_sorted {A} (after : A -> A -> bool) (l : list A) :
  StronglySorted (before after) l -> isort after l = l.
Proof.
  induction 1 as [|x l Hl IH Hx]; simpl; [reflexivity|].
  rewrite IH. destruct l as [|y l]; [reflexivity|]. simpl.
  inversion Hx as [|? ? Hxy _]; subst. unfold before in Hxy. now rewrite Hxy.
Qed.

(** X3. Whatever the values are, when [sortBarData] returns for two arrays
    it returns arrays of the lengths it was given, and for arrays of equal
    length the returned (label, value) pairs are a rearrangement of the
    input pairs: no row is lost, duplicated or paired with another row's
    value. *)
Theorem sortBarData_keeps_rows (labels values : list value) (r : sorted_bar) :
  sortBarData (VArr labels) (VArr values) = Ok r ->
  exists ls vs,
    sortedLabels r = VArr ls /\ sortedData r = VArr vs
    /\ List.length ls = List.length labels
    /\ List.length vs = List.length values
    /\ (List.length labels = List.length values ->
        Permutation (combine ls vs) (combine labels values)).
Proof.
  unfold sortBarData.
  destruct (negb (isValidArray (VArr labels)) || negb (isValidArray (VArr values)))
    eqn:G; simpl.
  { intros [= <-]. exists labels, values. simpl. auto. }
  destruct (Nat.eqb_spec (List.length labels) (List.length values)) as [E|NE];
    simpl.
  - rewrite mapi_combine by exact E.
    destruct (sort_by by_value_desc (combine labels values)) as [s|] eqn:S;
      simpl; [|discriminate].
    intros [= <-]. exists (map fst s), (map snd s). simpl.
    pose proof (sort_by_perm _ _ _ S) as P.
    pose proof (Permutation_length P) as L.
    rewrite length_combine, <- E, Nat.min_id in L.
    rewrite !length_map, combine_fst_snd. repeat split; auto; congruence.
  - intros [= <-]. exists labels, values. simpl. auto.
Qed.

Lemma sortBarData_keeps_rows_witness :
  exists ls vs,
    VArr [VStr "bo"; VStr "al"] = VArr ls
    /\ VArr [VStr "12"; VNum 5] = VArr vs
    /\ List.length ls = 2%nat /\ List.length vs = 2%nat
    /\ (2%nat = 2%nat ->
        Permutation (combine ls vs)
          (combine [VStr "al"; VStr "bo"] [VNum 5; VStr "12"])).
Proof.
  exact (sortBarData_keeps_rows
           [VStr "al"; VStr "bo"] [VNum 5; VStr "12"]
           {| sortedLabels := VArr [VStr "bo"; VStr "al"];
              sortedData := VArr [VStr "12"; VNum 5] |}
           eq_refl).
Defined.

(** X4. [sortBarData] raises only when there are at least two rows and
    some value has no numeric form (an object, or an array holding one,
    with a [toString] key of its own); on scalar values it always
    returns. *)
Theorem sortBarData_raises_only_on_unconvertible
    (labels values : list value) (e : exn) :
  sortBarData (VArr labels) (VArr values) = Throw e ->
  (2 <= List.length values)%nat
  /\ exists v e', In v values /\ scalar v = false /\ to_number v = Throw e'.
Proof.
  unfold sortBarData.
  destruct (negb (isValidArray (VArr labels)) || negb (isValidArray (VArr values)));
    simpl; [discriminate|].
  destruct (Nat.eqb_spec (List.length labels) (List.length values)) as [E|NE];
    simpl; [|discriminate].
  rewrite mapi_combine by exact E.
  destruct (sort_by by_value_desc (combine labels values)) as [s|e0] eqn:S;
    simpl; [discriminate|].
  intros _. split.
  - destruct labels as [|a [|b labels]], values as [|v [|v' values]];
      simpl in *; try discriminate; lia.
  - apply sort_by_throw in S as ([a x] & [b y] & e' & Hx & Hy & T).
    apply in_combine_r in Hx, Hy. unfold by_value_desc in T. simpl in T.
    destruct (to_number y) as [ny|ey] eqn:Ty; simpl in T.
    + destruct (to_number x) as [nx|ex] eqn:Tx; simpl in T; [discriminate|].
      exists x, ex. repeat split; auto.
      destruct x as [| |[]| | | |]; simpl in Tx; try discriminate; reflexivity.
    + exists y, ey. repeat split; auto.
      destruct y as [| |[]| | | |]; simpl in Ty; try discriminate; reflexivity.
Qed.

Lemma sortBarData_raises_only_on_unconvertible_witness :
  (2 <= List.length [VNum 1; VObj [("toString", VNum 0)]])%nat
  /\ exists v e', In v [VNum 1; VObj [("toString", VNum 0)]]
                  /\ scalar v = false /\ to_number v = Throw e'.
Proof.
  exact (sortBarData_raises_only_on_unconvertible
           [VStr "al"; VStr "bo"] [VNum 1; VObj [("toString", VNum 0)]]
           TypeError eq_refl).
Defined.

(** X5. Sorting is idempotent on numeric series, whole or fractional:
    giving [sortBarData] its own output returns that output unchanged. *)
Theorem sortBarData_idempotent
    (labels : list value) (nums : list Qc) (r : sorted_bar) :
  List.length labels = List.length nums ->
  (0 < List.length labels)%nat ->
  sortBarData (VArr labels) (VArr (map VNum nums)) = Ok r ->
  sortBarData (sortedLabels r) (sortedData r) = Ok r.
Proof.
  intros Hlen Hpos. rewrite (sortBarData_numeric labels nums Hlen Hpos).
  intros [= <-]. simpl.
  set (sorted := isort smaller (combine labels nums)).
  assert (L : List.length sorted = List.length labels).
  { unfold sorted. rewrite (Permutation_length (isort_perm smaller _)).
    rewrite length_combine, <- Hlen. apply Nat.min_id. }
  rewrite (sortBarData_numeric (map fst sorted) (map snd sorted))
    by (rewrite !length_map; lia).
  rewrite combine_fst_snd.
  rewrite (isort_of_sorted smaller sorted)
    by apply (isort_sorted smaller smaller_asym before_smaller_trans).
  reflexivity.
Qed.

Lemma sortBarData_idempotent_witness :
  sortBarData (VArr [VStr "bo"; VStr "al"])
              (VArr [VNum (rational 3); VNum (rational 1.5)])
  = Ok {| sortedLabels := VArr [VStr "bo"; VStr "al"];
          sortedData := VArr [VNum (rational 3); VNum (rational 1.5)] |}.
Proof.
  exact (sortBarData_idempotent [VStr "al"; VStr "bo"]
           [rational 1.5; rational 3]
           {| sortedLabels := VArr [VStr "bo"; VStr "al"];
              sortedData := VArr [VNum (rational 3); VNum (rational 1.5)] |}
           eq_refl (Nat.lt_0_succ 1) eq_refl).
Defined.

Lemma map_combine_eq {A B} (l : list A) (m : list B) :
  List.length l = List.length m ->
  map fst (combine l m) = l /\ map snd (combine l m) = m.
Proof.
  revert m. induction l as [|x l IH]; intros [|y m]; simpl; try discriminate;
    auto.
  intros [= H]. destruct (IH m H) as [-> ->]. auto.
Qed.

Lemma sort_by_not_a_number (l : list (value * value)) :
  Forall (fun p => not_a_number (snd p)) l -> sort_by by_value_desc l = Ok l.
Proof.
  induction 1 as [|x l Hx Hl IH]; simpl; [reflexivity|].
  rewrite IH. simpl. destruct Hl as [|y l Hy Hl]; [reflexivity|].
  simpl. unfold by_value_desc. unfold not_a_number in Hx, Hy.
  rewrite Hy, Hx. reflexivity.
Qed.

(** X6. When no value has a numeric form (each coerces to NaN: a word, a
    plain object, [undefined], an array of two elements or more), every
    comparison is undecided and [sortBarData] returns the rows in their
    input order.  A string that spells a number, such as "1.5", is not such
    a value. *)
Theorem sortBarData_keeps_order_without_numbers (labels values : list value) :
  List.length labels = List.length values ->
  Forall not_a_number values ->
  sortBarData (VArr labels) (VArr values)
  = Ok {| sortedLabels := VArr labels; sortedData := VArr values |}.
Proof.
  intros Hlen Hnan. unfold sortBarData.
  destruct (negb (isValidArray (VArr labels)) || negb (isValidArray (VArr values)));
    simpl; [reflexivity|].
  rewrite Hlen, Nat.eqb_refl. simpl.
  rewrite mapi_combine by exact Hlen.
  rewrite sort_by_not_a_number.
  - simpl. destruct (map_combine_eq labels values Hlen) as [-> ->]. reflexivity.
  - rewrite Forall_forall in *. intros [a b] Hab. simpl.
    apply Hnan. eapply in_combine_r. exact Hab.
Qed.

Lemma sortBarData_keeps_order_without_numbers_witness :
  sortBarData (VArr [VStr "al"; VStr "bo"]) (VArr [VStr "few"; VStr "many"])
  = Ok {| sortedLabels := VArr [VStr "al"; VStr "bo"];
          sortedData := VArr [VStr "few"; VStr "many"] |}.
Proof.
  apply (sortBarData_keeps_order_without_numbers
           [VStr "al"; VStr "bo"] [VStr "few"; VStr "many"]).
  - reflexivity.
  - repeat constructor.
Defined.


Example numerals_in_strings_are_numbers :
  to_number (VStr "1.5") = Ok (Fin (rational 1.5))
  /\ to_number (VStr " 0x10 ") = Ok (Fin 16)
  /\ to_number (VStr "2e3") = Ok (Fin 2000)
  /\ to_number (VStr "-Infinity") = Ok (Inf true)
  /\ to_number (VStr "1.5 kg") = Ok NaN
  /\ sortBarData (VArr [VStr "al"; VStr "bo"]) (VArr [VStr "1.5"; VStr "2.5"])
     = Ok {| sortedLabels := VArr [VStr "bo"; VStr "al"];
             sortedData := VArr [VStr "2.5"; VStr "1.5"] |}.
Proof. repeat split; vm_compute; reflexivity. Qed.

(* ================================================================== *)
(** * Colours of the series *)
(* ================================================================== *)

Lemma generateDistinctColors_nth (count i : nat) :
  (i < count)%nat ->
  nth_error (generateDistinctColors count) i = Some (Hsla (hue_of count i)).
Proof.
  intros H. unfold generateDistinctColors.
  erewrite map_nth_error; [reflexivity|].
  rewrite nth_error_nth' with (d := 0%nat) by (rewrite length_seq; exact H).
  now rewrite seq_nth.
Qed.

Lemma hue_of_value (count i : nat) :
  (0 < count)%nat ->
  (hue_of count i == (Z.of_nat i * 360) # Pos.of_nat count)%Q.
Proof.
  intros H. unfold hue_of. destruct count as [|n]; [lia|].
  rewrite <- Pos.of_nat_succ.
  unfold Qeq, Qdiv, Qmult, Qinv, inject_Z. simpl Z.of_nat.
  cbn [Qnum Qden]. lia.
Qed.

Lemma hue_of_range (count i : nat) :
  (i < count)%nat -> (0 <= hue_of count i /\ hue_of count i < 360)%Q.
Proof.
  intros H. assert (Hc : (0 < count)%nat) by lia.
  rewrite (hue_of_value count i Hc). unfold Qle, Qlt. cbn [Qnum Qden].
  assert (Z.pos (Pos.of_nat count) = Z.of_nat count).
  { destruct count; [lia|]. rewrite <- Pos.of_nat_succ. lia. }
  lia.
Qed.

Lemma hue_of_distinct (count i j : nat) :
  (i < count)%nat -> (j < count)%nat -> i <> j ->
  ~ (hue_of count i == hue_of count j)%Q.
Proof.
  intros Hi Hj Hij E. assert (Hc : (0 < count)%nat) by lia.
  rewrite !(hue_of_value count _ Hc) in E.
  unfold Qeq in E. cbn [Qnum Qden] in E. nia.
Qed.

(** X7. [generateDistinctColors count] returns exactly [count] colours;
    the [i]-th has hue [i * 360 / count], which lies in [0, 360), and two
    different positions never get the same hue. *)
Theorem generateDistinctColors_distinct (count : nat) :
  List.length (generateDistinctColors count) = count
  /\ (forall i, (i < count)%nat ->
        nth_error (generateDistinctColors count) i = Some (Hsla (hue_of count i))
        /\ (hue_of count i == (Z.of_nat i * 360) # Pos.of_nat count)%Q
        /\ (0 <= hue_of count i /\ hue_of count i < 360)%Q)
  /\ (forall i j, (i < count)%nat -> (j < count)%nat -> i <> j ->
        ~ (hue_of count i == hue_of count j)%Q).
Proof.
  split; [|split].
  - unfold generateDistinctColors. now rewrite length_map, length_seq.
  - intros i Hi. split; [now apply generateDistinctColors_nth|].
    split; [apply hue_of_value; lia | now apply hue_of_range].
  - apply hue_of_distinct.
Qed.


(** X8. In what [groupBySender] returns, the [k]-th series of [n] is
    drawn, border and fill alike, in the [k]-th distinct colour, of hue
    [k * 360 / n]; so no two series share a colour, and every series is
    filled. *)
Theorem groupBySender_colours
    (data : value) (dateField valueField : string) (w : world) :
  exists g w',
    groupBySender data dateField valueField w = (Ok g, w')
    /\ forall k ds,
         nth_error (datasets g) k = Some ds ->
         let n := List.length (datasets g) in
         ds_borderColor ds = Some (Hsla (hue_of n k))
         /\ ds_backgroundColor ds = Some (Hsla (hue_of n k))
         /\ ds_fill ds = Some true
         /\ forall k' ds',
              nth_error (datasets g) k' = Some ds' -> k <> k' ->
              exists h', ds_borderColor ds' = Some (Hsla h')
                         /\ ~ (hue_of n k == h')%Q.
Proof.
  destruct (groupBySender_grouped data dateField valueField w)
    as (g & w' & E & H).
  exists g, w'. split; [exact E|].
  destruct H as [[_ ->] | (_ & sorted & _ & _ & _ & Hl & Hs)].
  { intros [|k] ds H; discriminate H. }
  assert (K : forall k ds,
             nth_error (datasets g) k = Some ds ->
             (k < List.length (datasets g))%nat
             /\ ds_borderColor ds
                = Some (Hsla (hue_of (List.length (datasets g)) k))
             /\ ds_backgroundColor ds
                = Some (Hsla (hue_of (List.length (datasets g)) k))
             /\ ds_fill ds = Some true).
  { intros k ds Hk. destruct (Hs k ds Hk) as (s & _ & _ & _ & B & G & F).
    assert (L : (k < List.length (datasets g))%nat)
      by (apply nth_error_Some; congruence).
    assert (N : List.length (datasets g)
                = List.length
                    (filter truthy_cell
                       (new_Set (map (field_cell "sender")
                                     (placed (elems_of data)))))).
    { rewrite <- (length_map ds_label), Hl. apply length_map. }
    rewrite <- N in B, G.
    rewrite (generateDistinctColors_nth _ _ L) in B, G. auto. }
  intros k ds Hk n. destruct (K k ds Hk) as (L & B & G & F).
  repeat split; auto.
  intros k' ds' Hk' Hkk'. destruct (K k' ds' Hk') as (L' & B' & _).
  eexists. split; [exact B'|]. now apply hue_of_distinct.
Qed.

(* ================================================================== *)
(** * Values and order of the series *)
(* ================================================================== *)

Lemma find_filter_first {A} (p q : A -> bool) (pre post : list A) (r : A) :
  q r = true -> p r = true ->
  (forall d, In d pre -> q d = true -> p d = false) ->
  find p (filter q (pre ++ r :: post)) = Some r.
Proof.
  intros Hq Hp. induction pre as [|d pre IH]; intros Hpre; simpl.
  - now rewrite Hq; simpl; rewrite Hp.
  - destruct (q d) eqn:Qd; simpl.
    + rewrite (Hpre d (or_introl eq_refl) Qd). apply IH.
      intros d' Hd'. apply Hpre. now right.
    + apply IH. intros d' Hd'. apply Hpre. now right.
Qed.

Lemma placed_app (l m : list value) :
  placed (l ++ m)
  = (placed l
     ++ mapi_from (List.length l) (fun d i => {| place := i; held := d |}) m)%list.
Proof. unfold placed, mapi. now rewrite mapi_from_app. Qed.

Lemma to_string_scalar (v : value) :
  scalar v = true -> exists s, to_string v = Ok s.
Proof. destruct v as [| |[]| | | |]; simpl; try discriminate; eauto. Qed.

(** X9. When several rows have the same sender and the same date, both
    scalars, the first of them in input order supplies the point of that
    series: its [message_count], or 0 when that cell is missing or null. *)
Theorem groupBySender_first_row_wins
    (data : value) (w w' : world) (g : grouped)
    (ds : dataset) (k : nat) (dt r : value) (pre post : list value) :
  groupBySender data "date" "message_count" w = (Ok g, w') ->
  In ds (datasets g) ->
  nth_error (dates g) k = Some dt ->
  elems_of data = (pre ++ r :: post)%list ->
  scalar (sender_of r) = true ->
  scalar (date_of r) = true ->
  sender_of r = ds_label ds ->
  date_of r = dt ->
  (forall d, In d pre -> sender_of d = ds_label ds -> date_of d <> dt) ->
  exists values,
    ds_data ds = VArr values
    /\ nth_error values k = Some (safeGet r "message_count" (VNum 0)).
Proof.
  intros E Hds Hk Hrows Ss Sd Hs Hd Hpre.
  destruct (groupBySender_grouped data "date" "message_count" w)
    as (g0 & w0 & E0 & H).
  rewrite E in E0. injection E0 as <- <-.
  destruct H as [[_ ->] | (_ & sorted & _ & _ & Hdates & _ & Hser)];
    [destruct Hds|].
  apply In_nth_error in Hds as [i Hds].
  destruct (Hser i ds Hds) as (s & _ & Hlab & Hv & _).
  rewrite Hdates, nth_error_map in Hk.
  destruct (nth_error sorted k) as [c|] eqn:Hc; [|discriminate Hk].
  simpl in Hk. injection Hk as Hk.
  eexists. split; [exact Hv|].
  erewrite map_nth_error by exact Hc. f_equal.
  unfold point. rewrite Hrows, placed_app. simpl mapi_from.
  rewrite find_filter_first
    with (r := {| place := List.length pre; held := r |}); [reflexivity | | |].
  - apply same_cell_scalar; simpl; [congruence|]. fold (sender_of r). congruence.
  - apply same_cell_scalar; simpl; [congruence|]. fold (date_of r). congruence.
  - intros d Hin Hq.
    assert (Sc : scalar (held s) = true) by congruence.
    apply (same_cell_scalar _ s Sc) in Hq. simpl in Hq. fold (sender_of (held d)) in Hq.
    destruct (same_cell (field_cell "date" d) c) eqn:F; [|reflexivity].
    assert (Dc : scalar (held c) = true) by congruence.
    apply (same_cell_scalar _ c Dc) in F. simpl in F. fold (date_of (held d)) in F.
    exfalso. apply (Hpre (held d)); [now apply placed_held | congruence | congruence].
Qed.

Lemma groupBySender_first_row_wins_witness :
  exists values,
    VArr [VNum 1; VNum 3; VNum 0] = VArr values
    /\ nth_error values 0 = Some (VNum 1).
Proof.
  assert (H : exists g w',
             groupBySender
               (VArr (quarterly_rows
                      ++ [row [ ("sender", VStr "bo"); ("date", VStr "2024-01");
                                ("message_count", VNum 50) ]]))
               "date" "message_count" blank_world = (Ok g, w')
             /\ nth_error (datasets g) 0
                = Some {| ds_label := VStr "bo";
                          ds_data := VArr [VNum 1; VNum 3; VNum 0];
                          ds_backgroundColor := Some (Hsla (hue_of 2 0));
                          ds_borderColor := Some (Hsla (hue_of 2 0));
                          ds_fill := Some true |}
             /\ nth_error (dates g) 0 = Some (VStr "2024-01")).
  { eexists _, _. split; [vm_compute; reflexivity|]. split; reflexivity. }
  destruct H as (g & w' & E & Hds & Hk).
  exact (groupBySender_first_row_wins _ _ _ _ _ 0%nat (VStr "2024-01")
           (row [ ("sender", VStr "bo"); ("date", VStr "2024-01");
                  ("message_count", VNum 1) ])
           (firstn 3 quarterly_rows)
           [row [ ("sender", VStr "bo"); ("date", VStr "2024-01");
                  ("message_count", VNum 50) ]]
           E (nth_error_In _ _ Hds) Hk eq_refl eq_refl eq_refl eq_refl eq_refl
           ltac:(intros d [<-|[<-|[<-|[]]]] Hs; vm_compute in *; congruence)).
Defined.

Lemma is_prefix_map {A B} (f : A -> B) (l m : list A) :
  is_prefix l m -> is_prefix (map f l) (map f m).
Proof. intros [extra ->]. exists (map f extra). apply map_app. Qed.

Lemma is_prefix_filter {A} (p : A -> bool) (l m : list A) :
  is_prefix l m -> is_prefix (filter p l) (filter p m).
Proof. intros [extra ->]. exists (filter p extra). apply filter_app. Qed.

Lemma groupBySender_scalar_dates (rows : list value) (w : world) :
  Forall (fun d => scalar (date_of d) = true) rows ->
  exists g w',
    groupBySender (VArr rows) "date" "message_count" w = (Ok g, w')
    /\ map ds_label (datasets g)
       = map held
           (filter truthy_cell (new_Set (map (field_cell "sender") (placed rows)))).
Proof.
  intros Hs.
  destruct (groupBySender_grouped (VArr rows) "date" "message_count" w)
    as (g & w' & E & H).
  exists g, w'. split; [exact E|]. simpl in H.
  destruct H as [[R _] | (_ & sorted & _ & _ & _ & Hl & _)]; [|exact Hl].
  exfalso. unfold sort_raises in R. apply andb_prop in R as [_ R].
  apply negb_true_iff, forallb_false in R as (c & Hc & Tc).
  apply filter_In in Hc as [Hc _].
  destruct (new_Set_spec (map (field_cell "date") (placed rows))) as (_ & I & _).
  apply I, in_map_iff in Hc as (r & <- & Hr).
  rewrite Forall_forall in Hs. specialize (Hs _ (placed_held _ _ Hr)).
  apply has_string_form_false in Tc as [e Tc].
  destruct (to_string_scalar _ Hs) as [t Ht]. unfold date_of in Ht.
  simpl in Tc. congruence.
Qed.

(** X10. The series come in the order in which their senders first appear:
    appending rows never reorders or removes the series already there, it
    can only add new ones behind them (dates being scalars, so that the
    date sort cannot raise). *)
Theorem groupBySender_series_order (rows more : list value) (w1 w2 : world) :
  Forall (fun d => scalar (date_of d) = true) (rows ++ more) ->
  exists g1 w1' g2 w2',
    groupBySender (VArr rows) "date" "message_count" w1 = (Ok g1, w1')
    /\ groupBySender (VArr (rows ++ more)) "date" "message_count" w2
       = (Ok g2, w2')
    /\ is_prefix (map ds_label (datasets g1)) (map ds_label (datasets g2)).
Proof.
  intros Hs.
  assert (Hr : Forall (fun d => scalar (date_of d) = true) rows).
  { rewrite Forall_app in Hs. apply Hs. }
  destruct (groupBySender_scalar_dates rows w1 Hr) as (g1 & w1' & E1 & L1).
  destruct (groupBySender_scalar_dates (rows ++ more) w2 Hs)
    as (g2 & w2' & E2 & L2).
  exists g1, w1', g2, w2'. split; [exact E1|]. split; [exact E2|].
  rewrite L1, L2, placed_app, map_app.
  apply is_prefix_map, is_prefix_filter, new_Set_prefix.
Qed.

Lemma groupBySender_series_order_witness :
  exists g1 w1' g2 w2',
    groupBySender (VArr (firstn 2 quarterly_rows)) "date" "message_count"
      blank_world = (Ok g1, w1')
    /\ groupBySender (VArr (firstn 2 quarterly_rows ++ skipn 2 quarterly_rows))
         "date" "message_count" blank_world = (Ok g2, w2')
    /\ is_prefix (map ds_label (datasets g1)) (map ds_label (datasets g2)).
Proof.
  apply (groupBySender_series_order
           (firstn 2 quarterly_rows) (skipn 2 quarterly_rows)
           blank_world blank_world).
  repeat constructor.
Defined.

(* ================================================================== *)
(** * Shape of the assembled sequence *)
(* ================================================================== *)

Lemma pushed_before_mono (a b : nat) (ds : list item) :
  (a <= b)%nat -> pushed_before a ds -> pushed_before b ds.
Proof.
  intros Hab [S F]. split; [exact S|].
  eapply Forall_impl; [|exact F]. simpl. intros it [H1 H2]. split; [lia|auto].
Qed.

Lemma StronglySorted_snoc (l : list nat) (x : nat) :
  StronglySorted lt l -> Forall (fun y => (y < x)%nat) l ->
  StronglySorted lt (l ++ [x]).
Proof.
  induction 1 as [|y l Hl IH Hy]; intros Hx; simpl.
  - repeat constructor.
  - inversion Hx as [|? ? Hyx Hlx]; subst. constructor; [now apply IH|].
    apply Forall_app. split; [exact Hy | now constructor].
Qed.

Lemma advances_emits (k : nat) (m : Build unit) :
  emits k m -> advances k (S k) m.
Proof.
  intros Hm s J. destruct (Hm s) as [-> | (it & -> & Hs & Hok)].
  - apply (pushed_before_mono k); [lia | exact J].
  - destruct J as [S F]. split.
    + rewrite map_app. simpl. apply StronglySorted_snoc; [exact S|].
      rewrite Forall_map. eapply Forall_impl; [|exact F].
      simpl. intros x [Hx _]. lia.
    + apply Forall_app. split.
      * eapply Forall_impl; [|exact F]. simpl. intros x [Hx Ho]. split; [lia|auto].
      * constructor; [|constructor]. split; [lia | exact Hok].
Qed.

Lemma advances_then (a b c : nat) (m n : Build unit) :
  (b <= c)%nat -> advances a b m -> advances b c n -> advances a c (m ;; n).
Proof.
  intros Hbc Hm Hn s J. unfold bind. specialize (Hm s J).
  destruct (m s) as [[[]|e] s1]; simpl in *.
  - now apply Hn.
  - now apply (pushed_before_mono b).
Qed.

Lemma emits_nothing (k : nat) (m : Build unit) :
  (forall s, fst (snd (m s)) = fst s) -> emits k m.
Proof. intros H s. left. apply H. Qed.

Ltac emits_unchanged := left; reflexivity.

Lemma sortBarData_shape (labels values : list value) (r : sorted_bar) :
  sortBarData (VArr labels) (VArr values) = Ok r ->
  exists ls vs,
    sortedLabels r = VArr ls /\ sortedData r = VArr vs
    /\ List.length ls = List.length labels
    /\ List.length vs = List.length values.
Proof.
  unfold sortBarData.
  destruct (negb (isValidArray (VArr labels)) || negb (isValidArray (VArr values)));
    simpl.
  { intros [= <-]. exists labels, values. simpl. auto. }
  destruct (Nat.eqb_spec (List.length labels) (List.length values)) as [E|NE];
    simpl.
  - rewrite mapi_combine by exact E.
    destruct (sort_by by_value_desc (combine labels values)) as [s|] eqn:S;
      simpl; [|discriminate].
    intros [= <-]. exists (map fst s), (map snd s). simpl.
    pose proof (Permutation_length (sort_by_perm _ _ _ S)) as L.
    rewrite length_combine, <- E, Nat.min_id in L.
    rewrite !length_map. repeat split; auto; congruence.
  - intros [= <-]. exists labels, values. simpl. auto.
Qed.

Lemma isValidArray_rows (d : value) :
  isValidArray d = true -> d = VArr (elems_of d) /\ elems_of d <> [].
Proof.
  unfold isValidArray. destruct d; simpl; try discriminate.
  destruct elems; [discriminate|]. intros _. split; [reflexivity | discriminate].
Qed.

Lemma nonempty_length {A} (l : list A) : l <> [] <-> (0 < List.length l)%nat.
Proof. destruct l; simpl; split; intros; try congruence; lia. Qed.

Lemma emits_barChart (k : nat) a metric lf vf t sl bg :
  index_of t fixed_order = k ->
  emits k (barChart a metric lf vf t sl bg).
Proof.
  intros Hk s. unfold barChart, bind, lift.
  destruct (get_prop a metric) as [m|]; [|emits_unchanged].
  destruct (get_prop m "data") as [d|]; [|emits_unchanged].
  destruct (isValidArray d) eqn:V; [|emits_unchanged].
  destruct (sortBarData _ _) as [r|] eqn:R; [|emits_unchanged].
  destruct (get_prop m "caption") as [c|]; [|emits_unchanged].
  right. eexists. split; [reflexivity|]. split; [exact Hk|].
  apply sortBarData_shape in R as (ls & vs & -> & -> & L1 & L2).
  rewrite length_map in L1, L2.
  destruct (isValidArray_rows d V) as [_ Hne].
  exists ls. simpl. repeat split.
  - apply nonempty_length. apply nonempty_length in Hne. lia.
  - discriminate.
  - constructor; [|constructor]. exists vs. simpl. split; [reflexivity | lia].
Qed.

Lemma emits_lineChart (k : nat) a metric lf vf t sl bd :
  index_of t fixed_order = k ->
  emits k (lineChart a metric lf vf t sl bd).
Proof.
  intros Hk s. unfold lineChart, bind, lift.
  destruct (get_prop a metric) as [m|]; [|emits_unchanged].
  destruct (get_prop m "data") as [d|]; [|emits_unchanged].
  destruct (isValidArray d) eqn:V; [|emits_unchanged].
  destruct (get_prop m "caption") as [c|]; [|emits_unchanged].
  right. eexists. split; [reflexivity|]. split; [exact Hk|].
  destruct (isValidArray_rows d V) as [_ Hne].
  eexists. simpl. repeat split.
  - apply nonempty_length. rewrite length_map. now apply nonempty_length.
  - discriminate.
  - constructor; [|constructor]. eexists. simpl. split; [reflexivity|].
    now rewrite !length_map.
Qed.

Lemma emits_quarterlyContributionChart a :
  emits 3 (quarterlyContributionChart a).
Proof.
  intros s. unfold quarterlyContributionChart, bind, lift.
  destruct (get_prop a _) as [m|]; [|emits_unchanged].
  destruct (get_prop m "data") as [d|]; [|emits_unchanged].
  destruct (isValidArray d) eqn:V; [|emits_unchanged].
  unfold in_world.
  destruct (groupBySender_grouped d "date" "message_count" (snd s))
    as (g & w' & -> & H).
  destruct ((0 <? Z.of_nat (List.length (dates g)))
            && (0 <? Z.of_nat (List.length (datasets g)))) eqn:G;
    [|emits_unchanged].
  destruct (get_prop m "caption") as [c|]; [|emits_unchanged].
  right. eexists. split; [reflexivity|]. split; [reflexivity|].
  apply andb_prop in G as [G1 G2]. apply Z.ltb_lt in G1, G2.
  exists (dates g). simpl. repeat split.
  - apply nonempty_length. lia.
  - apply nonempty_length. lia.
  - destruct H as [[_ ->] | (_ & sorted & _ & _ & Hd & _ & Hs)]; [constructor|].
    apply Forall_forall. intros ds Hds. apply In_nth_error in Hds as [i Hds].
    destruct (Hs i ds Hds) as (s0 & _ & _ & Hv & _).
    eexists. split; [exact Hv|]. now rewrite Hd, !length_map.
Qed.

Lemma emits_daySummariesGrid a : emits 6 (daySummariesGrid a).
Proof.
  intros s. unfold daySummariesGrid, bind, lift.
  destruct (get_prop a _) as [top|]; [|emits_unchanged].
  destruct (truthy _ && is_array _); [|emits_unchanged].
  destruct (rmap daySummary _) as [mapped|]; [|emits_unchanged].
  destruct (0 <? _) eqn:G; [|emits_unchanged].
  right. eexists. split; [reflexivity|]. split; [reflexivity|].
  apply Z.ltb_lt in G. simpl. split.
  - apply nonempty_length. lia.
  - apply Forall_forall. intros x Hx. apply filter_In in Hx as [_ Hx].
    apply andb_prop in Hx as [H1 H2]. unfold nonempty in *.
    apply negb_true_iff in H1, H2. apply String.eqb_neq in H1, H2. auto.
Qed.

Lemma emits_closing : emits 12 (push closingCard).
Proof.
  intros s. right. exists closingCard. split; [reflexivity|].
  split; [reflexivity|]. simpl. discriminate.
Qed.

Lemma advances_metricCharts a : advances 0 12 (metricCharts a).
Proof.
  unfold metricCharts, dayOfWeekChart, monthlyMessagesChart, avgMessagesSentChart,
    yearlyComparisonChart, topTenDaysChart, manicChart, mostIgnoredChart,
    novelistChart, swearsChart, hangoutChart.
  apply (advances_then 0 1 12); [lia | apply advances_emits, emits_barChart; reflexivity|].
  apply (advances_then 1 2 12); [lia | apply advances_emits, emits_lineChart; reflexivity|].
  apply (advances_then 2 3 12); [lia | apply advances_emits, emits_lineChart; reflexivity|].
  apply (advances_then 3 4 12);
    [lia | apply advances_emits, emits_quarterlyContributionChart|].
  apply (advances_then 4 5 12); [lia | apply advances_emits, emits_barChart; reflexivity|].
  apply (advances_then 5 6 12); [lia | apply advances_emits, emits_barChart; reflexivity|].
  apply (advances_then 6 7 12); [lia | apply advances_emits, emits_daySummariesGrid|].
  apply (advances_then 7 8 12); [lia | apply advances_emits, emits_barChart; reflexivity|].
  apply (advances_then 8 9 12); [lia | apply advances_emits, emits_barChart; reflexivity|].
  apply (advances_then 9 10 12); [lia | apply advances_emits, emits_barChart; reflexivity|].
  apply (advances_then 10 11 12); [lia | apply advances_emits, emits_barChart; reflexivity|].
  apply advances_emits, emits_barChart; reflexivity.
Qed.

Lemma pushed_before_nil : pushed_before 0 [].
Proof. split; constructor. Qed.

(** The three ways [buildChartDataSets] can end. *)
Lemma assemble_cases (a : value) (w : world) :
  (truthy a = false /\ assemble a = [])
  \/ (truthy a = true /\ completes a w
      /\ exists front,
           assemble a = (front ++ [closingCard])%list /\ pushed_before 12 front)
  \/ (truthy a = true /\ ~ completes a w /\ pushed_before 12 (assemble a)).
Proof.
  pose proof (buildChartDataSets_returns a w) as R.
  unfold buildChartDataSets in R. destruct (truthy a) eqn:T; simpl in R.
  - right.
    unfold try_catch, buildChartDataSets_try, bind in R.
    pose proof (advances_metricCharts a ([], w) pushed_before_nil) as J.
    unfold completes, buildChartDataSets_try, bind.
    destruct (metricCharts a ([], w)) as [[[]|e] [ds w1]]; simpl in *.
    + left. split; [reflexivity|]. split; [reflexivity|].
      exists ds. injection R as <-. auto.
    + right. split; [reflexivity|]. split; [discriminate|].
      injection R as <-. exact J.
  - left. injection R as <-. auto.
Qed.

Lemma pushed_before_closing (front : list item) :
  pushed_before 12 front -> pushed_before 13 (front ++ [closingCard]).
Proof.
  intros J.
  exact (advances_emits 12 (push closingCard) emits_closing
           (front, blank_world) J).
Qed.

Lemma assemble_pushed_before (a : value) : pushed_before 13 (assemble a).
Proof.
  destruct (assemble_cases a blank_world)
    as [[_ ->] | [(_ & _ & front & -> & J) | (_ & _ & J)]].
  - apply (pushed_before_mono 0); [lia | exact pushed_before_nil].
  - now apply pushed_before_closing.
  - now apply (pushed_before_mono 12); [lia|].
Qed.

Lemma sorted_bounded_length (l : list nat) (a n : nat) :
  StronglySorted lt l -> Forall (fun x => (a <= x < n)%nat) l ->
  (List.length l <= n - a)%nat.
Proof.
  intros S. revert a. induction S as [|x l Sl IH Hx]; intros a F; simpl; [lia|].
  inversion F as [|? ? Hax Fl]; subst.
  assert (Forall (fun y => (S x <= y < n)%nat) l).
  { rewrite Forall_forall in *. intros y Hy. specialize (Hx y Hy).
    specialize (Fl y Hy). lia. }
  specialize (IH (S x) H). lia.
Qed.

Lemma index_of_In (s : string) (l : list string) :
  (index_of s l < List.length l)%nat -> In s l.
Proof.
  induction l as [|x l IH]; simpl; [lia|].
  destruct (String.eqb_spec s x) as [->|_]; [now left|].
  intros H. right. apply IH. lia.
Qed.

(** X11. Whatever the payload, the items come out in the fixed order of
    the blocks: the positions of the returned items in that order are
    strictly increasing.  So no kind of item occurs twice, no item is
    foreign, and there are at most 13 items. *)
Theorem assemble_fixed_order (analysisData : value) :
  StronglySorted lt (map slot (assemble analysisData))
  /\ Forall (fun it => In (item_name it) fixed_order) (assemble analysisData)
  /\ NoDup (map item_name (assemble analysisData))
  /\ (List.length (assemble analysisData) <= 13)%nat.
Proof.
  destruct (assemble_pushed_before analysisData) as [S F].
  assert (B : Forall (fun x => (0 <= x < 13)%nat) (map slot (assemble analysisData))).
  { rewrite Forall_map. eapply Forall_impl; [|exact F]. simpl. intros it [H _]. lia. }
  split; [exact S|]. split; [|split].
  - eapply Forall_impl; [|exact F]. intros it [H _].
    apply (index_of_In (item_name it) fixed_order). exact H.
  - clear B F. induction (assemble analysisData) as [|it l IH]; simpl;
      [constructor|].
    simpl in S. inversion S as [|? ? Sl Hl]; subst. constructor; [|auto].
    intros Hin. apply in_map_iff in Hin as (it' & E & Hin').
    rewrite Forall_map, Forall_forall in Hl. specialize (Hl it' Hin').
    unfold slot in Hl. rewrite E in Hl. lia.
  - pose proof (sorted_bounded_length _ 0 13 S B) as L.
    rewrite length_map in L. lia.
Qed.

(** X12. Whatever the payload, no returned item is an empty placeholder,
    and every chart is aligned: it has at least one label and one series,
    and each series has exactly one value per label; a day grid has at
    least one day, each with a title and a summary. *)
Theorem assemble_items_well_formed (analysisData : value) :
  Forall item_ok (assemble analysisData).
Proof.
  destruct (assemble_pushed_before analysisData) as [_ F].
  eapply Forall_impl; [|exact F]. simpl. tauto.
Qed.

(** X13. The closing card is in the returned sequence exactly when the
    payload is not null and the [try] block ran to its end; it is then the
    last item and occurs once. *)
Theorem closing_card_iff_completes (analysisData : value) (w : world) :
  (In closingCard (assemble analysisData) <->
   truthy analysisData = true /\ completes analysisData w)
  /\ (In closingCard (assemble analysisData) ->
      exists front,
        assemble analysisData = (front ++ [closingCard])%list
        /\ ~ In closingCard front).
Proof.
  assert (N : forall l, pushed_before 12 l -> ~ In closingCard l).
  { intros l [_ F] Hin. rewrite Forall_forall in F.
    destruct (F _ Hin) as [H _]. vm_compute in H. lia. }
  destruct (assemble_cases analysisData w)
    as [[T E] | [(T & C & front & E & J) | (T & C & J)]].
  - rewrite E. split; [split|]; simpl; try tauto. intros [? _]. congruence.
  - rewrite E. split; [split|].
    + auto.
    + intros _. apply in_or_app. right. now left.
    + intros _. exists front. split; [reflexivity | now apply N].
  - split; [split|].
    + intros Hin. now apply N in Hin.
    + intros [_ C']. contradiction.
    + intros Hin. now apply N in Hin.
Qed.

(* ================================================================== *)
(** * Charts of a well-formed payload *)
(* ================================================================== *)

Lemma metricCharts_chain (a : value) : metricCharts a = chain (blocks a).
Proof. reflexivity. Qed.

Lemma keeps_emits (k : nat) (m : Build unit) : emits k m -> keeps m.
Proof.
  intros H s. destruct (H s) as [-> | (it & -> & _)].
  - exists []. now rewrite app_nil_r.
  - now exists [it].
Qed.

Lemma blocks_keep (a : value) : Forall keeps (blocks a).
Proof.
  unfold blocks, dayOfWeekChart, monthlyMessagesChart, avgMessagesSentChart,
    yearlyComparisonChart, topTenDaysChart, manicChart, mostIgnoredChart,
    novelistChart, swearsChart, hangoutChart.
  repeat constructor;
    first [ eapply keeps_emits, emits_barChart; reflexivity
          | eapply keeps_emits, emits_lineChart; reflexivity
          | eapply keeps_emits, emits_quarterlyContributionChart
          | eapply keeps_emits, emits_daySummariesGrid ].
Qed.

Lemma blocks_succeed (a : value) :
  well_formed a = true -> Forall succeeds (blocks a).
Proof.
  unfold well_formed. intros H.
  apply andb_prop in H as [H Hd]. apply andb_prop in H as [H Hs].
  apply andb_prop in H as [Ht Hp].
  rewrite forallb_forall in Hp, Hs.
  assert (S : forall k vf, In (k, vf) bar_metrics ->
             forallb (fun d => scalar (safeGet d vf (VNum 0)))
                     (rows_of a k) = true).
  { intros k vf Hin. exact (Hs (k, vf) Hin). }
  unfold blocks, dayOfWeekChart, monthlyMessagesChart, avgMessagesSentChart,
    yearlyComparisonChart, topTenDaysChart, manicChart, mostIgnoredChart,
    novelistChart, swearsChart, hangoutChart.
  repeat constructor;
    first [ apply barChart_succeeds;
              [exact Ht | apply Hp; simpl; tauto | apply S; simpl; tauto]
          | apply lineChart_succeeds; [exact Ht | apply Hp; simpl; tauto]
          | apply quarterlyContributionChart_succeeds;
              [exact Ht | apply Hp; simpl; tauto]
          | apply daySummariesGrid_succeeds; [exact Ht | exact Hd] ].
Qed.

Lemma chain_cons (b : Build unit) (bs : list (Build unit)) (s : list item * world) :
  chain (b :: bs) s = (b ;; chain bs) s.
Proof.
  destruct bs; [|reflexivity]. simpl. unfold bind, ret.
  destruct (b s) as [[[]|e] s']; reflexivity.
Qed.

Lemma is_prefix_In {A} (l m : list A) (x : A) :
  is_prefix l m -> In x l -> In x m.
Proof. intros [extra ->] H. apply in_or_app. now left. Qed.

Lemma chain_runs (bs : list (Build unit)) (x : item) :
  Forall succeeds bs -> Forall keeps bs ->
  forall s, exists s',
    chain bs s = (Ok tt, s') /\ (In x (fst s) -> In x (fst s')).
Proof.
  induction bs as [|b bs IH]; intros Hs Hk s.
  - exists s. auto.
  - inversion Hs as [|? ? Hb Hbs]; subst.
    inversion Hk as [|? ? Kb Kbs]; subst.
    destruct (Hb s) as [s1 E1]. pose proof (Kb s) as P.
    rewrite E1 in P. simpl in P.
    destruct (IH Hbs Kbs s1) as (s2 & E2 & P2).
    exists s2. split.
    + rewrite chain_cons. unfold bind. now rewrite E1.
    + intros H. apply P2. now apply (is_prefix_In _ _ _ P).
Qed.

(** What a block pushed is still there at the end of a run in which every
    block returns. *)
Lemma chain_reaches (bs : list (Build unit)) (b : Build unit) (x : item) :
  Forall succeeds bs -> Forall keeps bs -> In b bs ->
  (forall s, In x (fst (snd (b s)))) ->
  forall s, exists s', chain bs s = (Ok tt, s') /\ In x (fst s').
Proof.
  intros Hs Hk Hin Hx.
  induction bs as [|b0 bs IH]; [destruct Hin|]. intros s.
  inversion Hs as [|? ? Hs0 Hs']; subst.
  inversion Hk as [|? ? Hk0 Hk']; subst.
  destruct (Hs0 s) as [s1 E1].
  destruct Hin as [<-|Hin].
  - pose proof (Hx s) as X. rewrite E1 in X. simpl in X.
    destruct (chain_runs bs x Hs' Hk' s1) as (s2 & E2 & P2).
    exists s2. split; [|now apply P2].
    rewrite chain_cons. unfold bind. now rewrite E1.
  - destruct (IH Hs' Hk' Hin s1) as (s2 & E2 & X2).
    exists s2. split; [|exact X2].
    rewrite chain_cons. unfold bind. now rewrite E1.
Qed.

Lemma assemble_reaches (a : value) (b : Build unit) (x : item) :
  well_formed a = true -> In b (blocks a) ->
  (forall s, In x (fst (snd (b s)))) ->
  In x (assemble a).
Proof.
  intros Hw Hb Hx.
  assert (Ht : truthy a = true).
  { unfold well_formed in Hw. now repeat (apply andb_prop in Hw as [Hw _]). }
  destruct (chain_reaches (blocks a) b x (blocks_succeed a Hw) (blocks_keep a)
              Hb Hx ([], blank_world)) as ([ds w1] & E & X).
  pose proof (buildChartDataSets_returns a blank_world) as R.
  unfold buildChartDataSets in R. rewrite Ht in R. cbn [negb] in R.
  unfold try_catch, buildChartDataSets_try, bind in R.
  rewrite metricCharts_chain, E in R. simpl in R. injection R as <-.
  apply in_or_app. now left.
Qed.

Lemma bar_specs_blocks (a : value) (s : chart_spec) :
  In s bar_specs -> In (barChartOf a s) (blocks a).
Proof.
  intros H. simpl in H.
  repeat (destruct H as [<-|H]; [simpl; tauto|]). destruct H.
Qed.

Lemma line_specs_blocks (a : value) (s : chart_spec) :
  In s line_specs -> In (lineChartOf a s) (blocks a).
Proof.
  intros H. simpl in H.
  repeat (destruct H as [<-|H]; [simpl; tauto|]). destruct H.
Qed.

Lemma specs_present (a : value) (s : chart_spec) :
  well_formed a = true -> In s bar_specs \/ In s line_specs ->
  truthy a = true /\ present a (cs_metric s) = true.
Proof.
  unfold well_formed. intros H Hin.
  apply andb_prop in H as [H _]. apply andb_prop in H as [H _].
  apply andb_prop in H as [Ht Hp]. split; [exact Ht|].
  rewrite forallb_forall in Hp. apply Hp.
  destruct Hin as [Hin|Hin]; simpl in Hin;
    repeat (destruct Hin as [<-|Hin]; [simpl; tauto|]); destruct Hin.
Qed.

(** X14. For a well-formed payload, every ranking metric that has rows with
    numeric values - counts, ratios or averages - is in the returned
    sequence as a bar chart under its title, with the rows' (label, value)
    pairs rearranged so that the values are non-increasing, equal values
    keeping the order of the rows. *)
Theorem ranking_chart_sorted
    (analysisData : value) (s : chart_spec) (nums : list Qc) :
  well_formed analysisData = true ->
  In s bar_specs ->
  has_rows analysisData (cs_metric s) = true ->
  values_of analysisData s = map VNum nums ->
  exists ls ns,
    In (Chart (cs_title s) Bar
          {| cd_labels := VArr ls;
             cd_datasets :=
               [ {| ds_label := VStr (cs_seriesLabel s);
                    ds_data := VArr (map VNum ns);
                    ds_backgroundColor := Some (Css (cs_colour s));
                    ds_borderColor := None;
                    ds_fill := None |} ] |}
          (opt_get (opt_get analysisData (cs_metric s)) "caption"))
       (assemble analysisData)
    /\ Permutation (combine ls ns) (combine (labels_of analysisData s) nums)
    /\ (forall i j, (i < j < List.length ns)%nat ->
          (nth j ns 0 <= nth i ns 0)%Qc)
    /\ (forall v, filter (has_value v) (combine ls ns)
                  = filter (has_value v) (combine (labels_of analysisData s) nums)).
Proof.
  intros Hw Hs Hr Hv.
  destruct (specs_present analysisData s Hw (or_introl Hs)) as [Ht Hp].
  set (sorted := isort smaller (combine (labels_of analysisData s) nums)).
  exists (map fst sorted), (map snd sorted). split; [|split; [|split]].
  - apply (assemble_reaches analysisData (barChartOf analysisData s));
      [exact Hw | now apply bar_specs_blocks |].
    intros st. unfold barChartOf.
    rewrite (barChart_pushes_sorted analysisData _ _ _ _ _ _ nums st Ht Hp Hr Hv).
    simpl. apply in_or_app. right. now left.
  - rewrite combine_fst_snd. apply isort_perm.
  - intros i j Hij. rewrite length_map in Hij.
    pose proof (StronglySorted_nth (before smaller) (VUndefined, 0%Qc) sorted
                  (isort_sorted smaller smaller_asym before_smaller_trans _)
                  i j Hij) as H.
    unfold before, smaller in H. apply num_ltb_ge in H.
    change 0%Qc with (snd (VUndefined, 0%Qc)). now rewrite !map_nth.
  - intros v. rewrite combine_fst_snd. apply isort_filter.
    intros x y Hx Hy. unfold has_value in *. unfold smaller.
    apply num_eqb_eq in Hx, Hy. apply num_ltb_ge. rewrite Hx, Hy.
    apply Qcle_refl.
Qed.

Lemma ranking_chart_sorted_witness :
  exists ls ns,
    In (Chart "Most Manic Award" Bar
          {| cd_labels := VArr ls;
             cd_datasets :=
               [ {| ds_label := VStr "% Messages (10pm-4am)";
                    ds_data := VArr (map VNum ns);
                    ds_backgroundColor := Some (Css "rgba(54, 162, 235, 0.6)");
                    ds_borderColor := None;
                    ds_fill := None |} ] |}
          VUndefined)
       (assemble payload_with_ratios)
    /\ (forall i j, (i < j < List.length ns)%nat ->
          (nth j ns 0 <= nth i ns 0)%Qc).
Proof.
  destruct (ranking_chart_sorted payload_with_ratios manic_spec
              [rational 12.5; rational 31.25; rational 12.5])
    as (ls & ns & H & _ & S & _).
  - vm_compute. reflexivity.
  - simpl. tauto.
  - vm_compute. reflexivity.
  - reflexivity.
  - exists ls, ns. split; [exact H | exact S].
Defined.

Example ratios_are_ranked :
  assemble payload_with_ratios
  = [ Chart "Most Manic Award" Bar
        {| cd_labels := VArr [VStr "bo"; VStr "al"; VStr "cy"];
           cd_datasets :=
             [ {| ds_label := VStr "% Messages (10pm-4am)";
                  ds_data := VArr [ VNum (rational 31.25); VNum (rational 12.5);
                                    VNum (rational 12.5) ];
                  ds_backgroundColor := Some (Css "rgba(54, 162, 235, 0.6)");
                  ds_borderColor := None;
                  ds_fill := None |} ] |}
        VUndefined;
      closingCard ].
Proof. vm_compute. reflexivity. Qed.

Example assemble_payload_full :
  map item_name (assemble payload_full)
  = [ "Average Messages by Day of Week"; "Monthly Message Count";
      "Quarterly Message Contribution by Sender"; "Top 10 Most Active Days";
      "SummaryGrid"; "That's all folks!" ].
Proof. vm_compute. reflexivity. Qed.

Lemma lineChart_pushes
    (analysisData : value) (metric lf vf t sl bd : string) (s : list item * world) :
  truthy analysisData = true ->
  present analysisData metric = true ->
  has_rows analysisData metric = true ->
  lineChart analysisData metric lf vf t sl bd s
  = (Ok tt,
     ((fst s ++
       [ Chart t Line
           {| cd_labels :=
                VArr (map (fun d => safeGet d lf (VStr EmptyString))
                          (rows_of analysisData metric));
              cd_datasets :=
                [ {| ds_label := VStr sl;
                     ds_data :=
                       VArr (map (fun d => safeGet d vf (VNum 0))
                                 (rows_of analysisData metric));
                     ds_backgroundColor := None;
                     ds_borderColor := Some (Css bd);
                     ds_fill := Some false |} ] |}
           (opt_get (opt_get analysisData metric) "caption") ])%list,
      snd s)).
Proof.
  intros Ht Hp Hr. unfold lineChart, bind.
  destruct (metric_data_read analysisData metric Ht Hp s) as [-> E].
  rewrite E. unfold has_rows in Hr. rewrite Hr. unfold lift.
  rewrite get_prop_present
    by (unfold present in Hp; now apply negb_true_iff in Hp).
  reflexivity.
Qed.

(** X15. For a well-formed payload, each of the two time-series metrics
    that has rows is in the returned sequence as a line chart whose labels
    and values are those of the rows in the order of the rows (nothing is
    sorted), a missing label reading as the empty string and a missing
    value as 0. *)
Theorem line_chart_keeps_row_order (analysisData : value) (s : chart_spec) :
  well_formed analysisData = true ->
  In s line_specs ->
  has_rows analysisData (cs_metric s) = true ->
  In (Chart (cs_title s) Line
        {| cd_labels := VArr (labels_of analysisData s);
           cd_datasets :=
             [ {| ds_label := VStr (cs_seriesLabel s);
                  ds_data := VArr (values_of analysisData s);
                  ds_backgroundColor := None;
                  ds_borderColor := Some (Css (cs_colour s));
                  ds_fill := Some false |} ] |}
        (opt_get (opt_get analysisData (cs_metric s)) "caption"))
     (assemble analysisData)
  /\ List.length (labels_of analysisData s)
     = List.length (rows_of analysisData (cs_metric s))
  /\ forall i d,
       nth_error (rows_of analysisData (cs_metric s)) i = Some d ->
       nth_error (labels_of analysisData s) i
       = Some (safeGet d (cs_labelField s) (VStr EmptyString))
       /\ nth_error (values_of analysisData s) i
          = Some (safeGet d (cs_valueField s) (VNum 0)).
Proof.
  intros Hw Hs Hr.
  destruct (specs_present analysisData s Hw (or_intror Hs)) as [Ht Hp].
  split; [|split].
  - apply (assemble_reaches analysisData (lineChartOf analysisData s));
      [exact Hw | now apply line_specs_blocks |].
    intros st. unfold lineChartOf.
    rewrite (lineChart_pushes analysisData _ _ _ _ _ _ st Ht Hp Hr).
    simpl. apply in_or_app. right. now left.
  - unfold labels_of. apply length_map.
  - intros i d Hi. unfold labels_of, values_of.
    split; exact (map_nth_error _ _ _ Hi).
Qed.

Lemma line_chart_keeps_row_order_witness :
  In (Chart "Monthly Message Count" Line
        {| cd_labels := VArr [VStr "2024-02"; VStr "2024-01"];
           cd_datasets :=
             [ {| ds_label := VStr "Messages per Month";
                  ds_data := VArr [VNum 42; VNum 17];
                  ds_backgroundColor := None;
                  ds_borderColor := Some (Css "rgba(255, 99, 132, 1)");
                  ds_fill := Some false |} ] |}
        VUndefined)
     (assemble payload_full).
Proof.
  destruct (line_chart_keeps_row_order payload_full monthly_messages_spec)
    as (H & _).
  - vm_compute. reflexivity.
  - simpl. tauto.
  - vm_compute. reflexivity.
  - exact H.
Defined.

(* ================================================================== *)
(** * The view and the wheel *)
(* ================================================================== *)

(** X16. In phase [visualize] the view never points outside the sequence,
    whatever the stored cursor is: either the payload yields no item and
    the no-data screen is shown, or the item shown is the one at the cursor
    clamped into [0, n-1], the counter reads that index of n, and the
    scroll indicator is shown exactly when it is not the last item. *)
Theorem render_visualize (st : app_state) (w : world) :
  phase st = PhVisualize ->
  let items := assemble (analysisData st) in
  let n := Z.of_nat (List.length items) in
  (items = [] /\ fst (render st w) = Ok NoDataScreen)
  \/ (exists i it,
        fst (render st w) = Ok (Visualization i (Some it) (i <? n - 1) n)
        /\ i = safeCurrentIndex (currentChartIndex st) n
        /\ 0 <= i <= n - 1
        /\ nth_error items (Z.to_nat i) = Some it).
Proof.
  intros Hp items n. unfold render. rewrite Hp. unfold bind.
  destruct (buildChartDataSets_run (analysisData st) w) as [w' ->].
  fold items. fold n.
  destruct (Z.eqb_spec n 0) as [E|NE].
  - left. split; [|reflexivity]. destruct items; [reflexivity|].
    unfold n in E. simpl in E. lia.
  - right. set (i := safeCurrentIndex (currentChartIndex st) n).
    assert (Hi : 0 <= i <= n - 1) by (unfold i, safeCurrentIndex; lia).
    destruct (nth_error items (Z.to_nat i)) as [it|] eqn:N.
    + exists i, it. simpl. rewrite N. auto.
    + exfalso. apply nth_error_None in N. unfold n in Hi. lia.
Qed.

Lemma render_visualize_witness :
  exists i it,
    fst (render (setCurrentChartIndex (fun _ => 40) (visualizing payload_full))
           blank_world)
    = Ok (Visualization i (Some it) (i <? 6 - 1) 6)
    /\ i = 5 /\ it = closingCard.
Proof.
  destruct (render_visualize
              (setCurrentChartIndex (fun _ => 40) (visualizing payload_full))
              blank_world eq_refl)
    as [[H _] | (i & it & R & Hi & _ & N)].
  - vm_compute in H. discriminate H.
  - exists i, it. vm_compute in Hi. subst i. vm_compute in N.
    injection N as <-. split; [exact R|]. split; reflexivity.
Defined.


Lemma same_session_refl (st : app_state) : same_session st st.
Proof. unfold same_session. auto. Qed.

Lemma same_session_trans (a b c : app_state) :
  same_session a b -> same_session b c -> same_session a c.
Proof. unfold same_session. intuition congruence. Qed.

Lemma same_session_item_count (a b : app_state) :
  same_session a b -> item_count b = item_count a.
Proof. intros (_ & E & _). unfold item_count. now rewrite E. Qed.

Lemma run_app (evs evs' : list scroll_event) (pg : page) (w : world) :
  run (evs ++ evs') pg w
  = match run evs pg w with
    | (Ok pg', w') => run evs' pg' w'
    | (Throw e, w') => (Throw e, w')
    end.
Proof.
  revert pg w. induction evs as [|ev evs IH]; intros pg w; simpl; [reflexivity|].
  unfold bind. destruct (step ev pg w) as [[pg1|e] w1]; [apply IH | reflexivity].
Qed.

(** An event followed by a re-render, from a page that was just rendered:
    the handler sees the cells as they are. *)
Lemma rendered_step (ev : scroll_event) (st : app_state) (w : world) :
  exists st' w',
    run [ev; Render] (rendered st) w = (Ok (rendered st'), w')
    /\ same_session st st'
    /\ match ev with
       | Wheel deltaY =>
           if accepts st
           then isScrolling st' = true
                /\ currentChartIndex st' = currentChartIndex st + direction deltaY st
           else st' = st
       | DebounceElapsed => st' = setIsScrolling false st
       | Render => st' = st
       end.
Proof.
  cbn [run]. unfold bind at 1.
  destruct (step_run ev (rendered st) w) as (pg1 & w1 & -> & H).
  unfold bind at 1.
  destruct (step_run Render pg1 w1) as (pg2 & w2 & -> & ->).
  exists (cells pg1), w2. split; [reflexivity|].
  destruct ev as [deltaY| |]; simpl in *.
  - destruct H as (_ & S & H). auto.
  - destruct H as [_ ->]. split; [|reflexivity]. unfold same_session. auto.
  - subst pg1. split; [apply same_session_refl | reflexivity].
Qed.

Lemma direction_bounds (deltaY : Q) (st : app_state) :
  0 <= currentChartIndex st <= item_count st - 1 ->
  0 <= currentChartIndex st + direction deltaY st <= item_count st - 1.
Proof.
  unfold direction.
  destruct (negb (Qle_bool deltaY 0)); simpl;
    destruct (currentChartIndex st <? item_count st - 1) eqn:F; simpl;
    destruct (negb (Qle_bool 0 deltaY)); simpl;
    destruct (0 <? currentChartIndex st) eqn:B; simpl;
    rewrite ?Z.ltb_lt, ?Z.ltb_ge in *; lia.
Qed.

Lemma direction_small (deltaY : Q) (st : app_state) :
  -1 <= direction deltaY st <= 1.
Proof.
  unfold direction.
  destruct (negb (Qle_bool deltaY 0) && _); [lia|].
  destruct (negb (Qle_bool 0 deltaY) && _); lia.
Qed.

Lemma rendered_step_in_range (ev : scroll_event) (st : app_state) (w : world) :
  0 <= currentChartIndex st <= item_count st - 1 ->
  exists st' w',
    run [ev; Render] (rendered st) w = (Ok (rendered st'), w')
    /\ item_count st' = item_count st
    /\ 0 <= currentChartIndex st' <= item_count st - 1.
Proof.
  intros Hin. destruct (rendered_step ev st w) as (st' & w' & E & S & H).
  exists st', w'. split; [exact E|].
  split; [now apply same_session_item_count|].
  destruct ev as [deltaY| |].
  - destruct (accepts st).
    + destruct H as [_ ->]. now apply direction_bounds.
    + now subst.
  - subst. simpl. exact Hin.
  - now subst.
Qed.

(** X24. As long as the component re-renders after every event, the
    cursor never leaves the sequence: from a cursor in [0, n-1], every
    sequence of wheel events and timer expiries, each followed by a
    re-render, ends with the cursor in [0, n-1]; in particular a forward
    step at the last item and a backward step at the first leave it where
    it is. *)
Theorem rendered_cursor_stays_in_range
    (evs : list scroll_event) (st : app_state) (w : world) :
  0 <= currentChartIndex st <= item_count st - 1 ->
  (exists st' w',
     run (with_renders evs) (rendered st) w = (Ok (rendered st'), w')
     /\ 0 <= currentChartIndex st' <= item_count st - 1)
  /\ (forall deltaY,
        (0 < deltaY)%Q /\ currentChartIndex st = item_count st - 1
        \/ (deltaY < 0)%Q /\ currentChartIndex st = 0 ->
        direction deltaY st = 0).
Proof.
  intros Hin. split.
  - revert st w Hin. induction evs as [|ev evs IH]; intros st w Hin.
    + exists st, w. split; [reflexivity | exact Hin].
    + change (with_renders (ev :: evs))
        with (([ev; Render] ++ with_renders evs)%list).
      rewrite run_app.
      destruct (rendered_step_in_range ev st w Hin) as (st1 & w1 & -> & N & H1).
      rewrite <- N in H1. destruct (IH st1 w1 H1) as (st2 & w2 & E & H2).
      exists st2, w2. split; [exact E|]. now rewrite <- N.
  - intros deltaY H. unfold direction.
    assert (P : forall a b : Q, (a < b)%Q ->
                  Qle_bool b a = false /\ Qle_bool a b = true).
    { intros a b L. split.
      - destruct (Qle_bool b a) eqn:F; [|reflexivity].
        apply Qle_bool_iff in F. now apply Qlt_not_le in L.
      - apply Qle_bool_iff. now apply Qlt_le_weak. }
    destruct H as [[D C]|[D C]]; destruct (P _ _ D) as [F T]; rewrite F, T, C;
      simpl; rewrite ?Z.ltb_irrefl; reflexivity.
Qed.

Lemma rendered_cursor_stays_in_range_witness :
  (exists st' w',
     run (with_renders [Wheel 120; DebounceElapsed; Wheel 120; Wheel (-120)])
         (rendered (visualizing payload_full)) blank_world
     = (Ok (rendered st'), w')
     /\ 0 <= currentChartIndex st' <= item_count (visualizing payload_full) - 1)
  /\ direction (-120) (visualizing payload_full) = 0.
Proof.
  destruct (rendered_cursor_stays_in_range
              [Wheel 120; DebounceElapsed; Wheel 120; Wheel (-120)]
              (visualizing payload_full) blank_world) as [H D].
  - vm_compute. split; discriminate.
  - split; [exact H|]. apply D. right. split; reflexivity.
Defined.

Lemma rendered_wheels_while_scrolling
    (deltas : list Q) (st : app_state) (w : world) :
  isScrolling st = true ->
  exists w',
    run (with_renders (map Wheel deltas)) (rendered st) w = (Ok (rendered st), w').
Proof.
  intros I. revert w. induction deltas as [|d ds IH]; intros w.
  - exists w. reflexivity.
  - change (with_renders (map Wheel (d :: ds)))
      with (([Wheel d; Render] ++ with_renders (map Wheel ds))%list).
    rewrite run_app.
    destruct (rendered_step (Wheel d) st w) as (st1 & w1 & -> & _ & H).
    unfold accepts in H. rewrite I in H. simpl in H. subst st1. apply IH.
Qed.

(** X17. While the component re-renders after every event, the debounce
    holds: however many wheel events arrive before a timer expires, the
    cursor moves by at most one item, and when a scroll is already in
    flight they change nothing at all. *)
Theorem debounce_one_step (deltas : list Q) (st : app_state) (w : world) :
  exists st' w',
    run (with_renders (map Wheel deltas)) (rendered st) w
    = (Ok (rendered st'), w')
    /\ -1 <= currentChartIndex st' - currentChartIndex st <= 1
    /\ (isScrolling st = true -> st' = st).
Proof.
  revert st w. induction deltas as [|d ds IH]; intros st w.
  - exists st, w. split; [reflexivity|]. split; [lia | auto].
  - change (with_renders (map Wheel (d :: ds)))
      with (([Wheel d; Render] ++ with_renders (map Wheel ds))%list).
    rewrite run_app.
    destruct (rendered_step (Wheel d) st w) as (st1 & w1 & -> & _ & H).
    destruct (accepts st) eqn:A.
    + destruct H as [I1 C1].
      destruct (rendered_wheels_while_scrolling ds st1 w1 I1) as [w2 ->].
      exists st1, w2. split; [reflexivity|].
      pose proof (direction_small d st). split; [lia|].
      intros I. unfold accepts in A. rewrite I in A. discriminate A.
    + subst st1. apply IH.
Qed.

Lemma step_same_session (ev : scroll_event) (pg : page) (w : world) :
  exists pg' w',
    step ev pg w = (Ok pg', w') /\ same_session (cells pg) (cells pg').
Proof.
  destruct (step_run ev pg w) as (pg' & w' & E & H).
  exists pg', w'. split; [exact E|].
  destruct ev as [d| |].
  - apply H.
  - destruct H as [_ ->]. unfold same_session. auto.
  - subst pg'. apply same_session_refl.
Qed.

(** X18. Scrolling touches nothing but the cursor and the debounce flag:
    after any sequence of wheel events, timer expiries and re-renders -
    whether or not a re-render separates the events - the phase, the
    payload, the selected year, the transcript and the error message are
    what they were, and no event raises. *)
Theorem scrolling_keeps_session
    (evs : list scroll_event) (pg : page) (w : world) :
  exists pg' w', run evs pg w = (Ok pg', w') /\ same_session (cells pg) (cells pg').
Proof.
  revert pg w. induction evs as [|ev evs IH]; intros pg w.
  - exists pg, w. split; [reflexivity | apply same_session_refl].
  - cbn [run]. unfold bind at 1.
    destruct (step_same_session ev pg w) as (pg1 & w1 & -> & S1).
    destruct (IH pg1 w1) as (pg2 & w2 & E & S2).
    exists pg2, w2. split; [exact E|]. now apply (same_session_trans _ (cells pg1)).
Qed.

(** X25. Between two renders every wheel event is judged on the same
    snapshot: when that snapshot accepts wheel events, each event of a burst
    takes the step the snapshot asks for, and the steps add up on the
    cursor; when it does not, the burst changes nothing. *)
Theorem wheel_burst_adds_up (deltas : list Q) (pg : page) (w : world) :
  exists pg' w',
    run (map Wheel deltas) pg w = (Ok pg', w')
    /\ seen pg' = seen pg
    /\ if accepts (seen pg)
       then currentChartIndex (cells pg')
            = currentChartIndex (cells pg)
              + fold_right Z.add 0 (map (fun d => direction d (seen pg)) deltas)
       else cells pg' = cells pg.
Proof.
  revert pg w. induction deltas as [|d ds IH]; intros pg w.
  - exists pg, w. split; [reflexivity|]. split; [reflexivity|].
    destruct (accepts (seen pg)); simpl; [lia | reflexivity].
  - cbn [map run fold_right]. unfold bind at 1.
    destruct (step_run (Wheel d) pg w) as (pg1 & w1 & -> & Hs & _ & H).
    destruct (IH pg1 w1) as (pg2 & w2 & E & Hs2 & H2).
    exists pg2, w2. split; [exact E|]. split; [congruence|].
    rewrite Hs in H2. destruct (accepts (seen pg)).
    + destruct H as [_ H]. rewrite H2, H. lia.
    + congruence.
Qed.

(* ================================================================== *)
(** * The day drawer *)
(* ================================================================== *)

Lemma assemble_names_NoDup (a : value) : NoDup (map item_name (assemble a)).
Proof.
  destruct (assemble_pushed_before a) as [S _].
  induction (assemble a) as [|it l IH]; simpl; [constructor|].
  simpl in S. inversion S as [|? ? Sl Hl]; subst. constructor; [|auto].
  intros Hin. apply in_map_iff in Hin as (it' & E & Hin').
  rewrite Forall_map, Forall_forall in Hl. specialize (Hl it' Hin').
  unfold slot in Hl. rewrite E in Hl. lia.
Qed.

Lemma find_grid (l : list item) (ss : list day_summary) :
  NoDup (map item_name l) -> In (SummaryGrid ss) l ->
  find is_grid l = Some (SummaryGrid ss).
Proof.
  induction l as [|it l IH]; simpl; [tauto|].
  intros N [->|Hin]; [reflexivity|].
  inversion N as [|? ? Hn Nl]; subst.
  destruct it as [t ty d c|ss'|t s]; simpl; try now apply IH.
  exfalso. apply Hn. apply in_map_iff. exists (SummaryGrid ss). auto.
Qed.

Lemma find_no_grid (l : list item) :
  (forall ss, ~ In (SummaryGrid ss) l) -> find is_grid l = None.
Proof.
  intros H. apply find_absent. intros [t ty d c|ss|t s] Hin; try reflexivity.
  now apply H in Hin.
Qed.

(** X19. A click on the card at position [i] of the day grid opens the
    drawer with the chat logs of the day shown on that card (an empty list
    when that day has none): the index counts the days that are shown, not
    the days of the payload.  A click on a position that is not there, or
    when the sequence has no grid, changes nothing. *)
Theorem day_click_opens_that_day
    (analysisData : value) (i : nat) (dr : drawer) (w : world) :
  exists dr' w',
    handleDaySummaryClick i analysisData dr w = (Ok dr', w')
    /\ (forall ss, In (SummaryGrid ss) (assemble analysisData) ->
          match nth_error ss i with
          | Some s =>
              drawerOpen dr' = true
              /\ dayLogs dr' = or_else (chat_logs s) (VArr [])
          | None => dr' = dr
          end)
    /\ ((forall ss, ~ In (SummaryGrid ss) (assemble analysisData)) -> dr' = dr).
Proof.
  unfold handleDaySummaryClick, bind.
  destruct (buildChartDataSets_run analysisData w) as [w' ->].
  destruct (find is_grid (assemble analysisData)) as [[t ty d c|ss0|t s]|] eqn:F.
  - apply find_some in F as [_ F]. discriminate F.
  - assert (U : forall ss, In (SummaryGrid ss) (assemble analysisData) -> ss = ss0).
    { intros ss Hin.
      pose proof (find_grid _ ss (assemble_names_NoDup analysisData) Hin) as F'.
      congruence. }
    destruct (nth_error ss0 i) as [s|] eqn:N.
    + eexists _, _. split; [reflexivity|]. split.
      * intros ss Hin. rewrite (U ss Hin), N. simpl. auto.
      * intros H. apply find_some in F as [F _]. now apply H in F.
    + exists dr, w'. split; [reflexivity|]. split; [|reflexivity].
      intros ss Hin. now rewrite (U ss Hin), N.
  - apply find_some in F as [_ F]. discriminate F.
  - exists dr, w'. split; [reflexivity|]. split; [|reflexivity].
    intros ss Hin.
    pose proof (find_grid _ ss (assemble_names_NoDup analysisData) Hin).
    congruence.
Qed.

Example day_click_payload_full :
  exists w',
    handleDaySummaryClick 1 payload_full
      {| drawerOpen := false; dayLogs := VArr [] |} blank_world
    = (Ok {| drawerOpen := true; dayLogs := VArr [] |}, w')
    /\ exists w'',
         handleDaySummaryClick 0 payload_full
           {| drawerOpen := false; dayLogs := VArr [] |} blank_world
         = (Ok {| drawerOpen := true;
                  dayLogs :=
                    VArr [ row [ ("sender", VStr "al");
                                 ("date", VStr "2024-03-09 10:00");
                                 ("message", VStr "who is in?") ] ] |}, w'').
Proof. eexists. split; [vm_compute; reflexivity|]. eexists. vm_compute. reflexivity. Qed.

(* ================================================================== *)
(** * File upload *)
(* ================================================================== *)

(** X20. Ingestion of a selected file always leaves phase [loading]: it
    ends in [visualize] exactly when the file was read, the years request
    returned a non-empty array of years and the analysis request returned a
    payload - then the payload is that one, the cursor is 0, the selected
    year is the first year and the transcript is the file's text; in every
    other case it ends back in [upload] with an error message, and the
    payload and the cursor are what they were.  Without a selected file the
    state does not change. *)
Theorem upload_outcomes
    (read : read_outcome) (years analysis : fetch_outcome)
    (st : upload_state) (w : world) :
  exists st' w',
    handleFileUpload read years analysis (st, w) = (Ok tt, (st', w'))
    /\ selectedFile st' = selectedFile st
    /\ match selectedFile st, ingested read years analysis with
       | None, _ => st' = st
       | Some _, Some (text, first, all_years, json) =>
           phase (app st') = PhVisualize
           /\ analysisData (app st') = json
           /\ currentChartIndex (app st') = 0
           /\ selectedYear (app st') = first
           /\ availableYears st' = VArr all_years
           /\ transcript (app st') = VStr text
       | Some _, None =>
           phase (app st') = PhUpload
           /\ (error (app st') = Some "Analysis failed"
               \/ error (app st') = Some "Failed to read file")
           /\ analysisData (app st') = analysisData (app st)
           /\ currentChartIndex (app st') = currentChartIndex (app st)
       end.
Proof.
  destruct st as [a ys [f|]]; cbn [selectedFile].
  2:{ eexists _, _. split; [reflexivity|]. auto. }
  destruct read as [text|].
  2:{ eexists _, _. split; [reflexivity|]. cbn. auto 10. }
  unfold ingested.
  destruct years as [|[|] [y|]];
    try (eexists _, _; split; [reflexivity|]; cbn; auto 10; fail).
  unfold handleFileUpload, bind, try_catch, onload_try, fetch_json, ret, lift,
    update, with_world, setAvailableYears; cbn -[get_prop].
  destruct (get_prop y "available_years") as [ay|e].
  2:{ destruct analysis as [|[|] [json|]];
        (eexists _, _; split; [reflexivity|]; cbn; auto 10). }
  destruct (negb (truthy ay) || negb (is_array ay)
            || (Z.of_nat (List.length (elems_of ay)) =? 0)) eqn:C.
  - assert (N : match ay with VArr (_ :: _) => False | _ => True end).
    { destruct ay as [| | | | |[|first rest]|]; simpl in *; auto.
      discriminate C. }
    destruct analysis as [|[|] [json|]];
      (eexists _, _; split; [reflexivity|]; cbn;
       try (destruct ay as [| | | | |[|first rest]|]; try contradiction);
       auto 10).
  - assert (N : exists first rest, ay = VArr (first :: rest)).
    { destruct ay as [| | | | |[|first rest]|];
        rewrite ?orb_true_r in C; simpl in C; try discriminate C; eauto. }
    destruct N as (first & rest & ->).
    destruct analysis as [|[|] [json|]];
      (eexists _, _; split; [reflexivity|]; cbn; auto 10).
Qed.

Example upload_two_years :
  exists w',
    handleFileUpload (ReadOk "1/1/24, 10:00 - al: happy new year")
      (Response true (Json (VObj [("available_years", VArr [VNum 2024; VNum 2023])])))
      (Response true (Json payload_full))
      (handleFileChange ["chat.txt"]
         {| app := initial_state; availableYears := VArr []; selectedFile := None |},
       blank_world)
    = (Ok tt,
       ({| app := visualizing payload_full;
           availableYears := VArr [VNum 2024; VNum 2023];
           selectedFile := Some "chat.txt" |}, w')).
Proof. eexists. vm_compute. reflexivity. Qed.

(* ================================================================== *)
(** * Text wrapping *)
(* ================================================================== *)





Lemma raw_lines_fit (measure : string -> Q) (maxWidth : Q)
    (all words : list string) (line : string) :
  incl words all ->
  line = EmptyString \/ fits_or_single measure maxWidth all line ->
  words <> [] \/ line <> EmptyString ->
  Forall (fits_or_single measure maxWidth all)
         (raw_lines measure maxWidth words line).
Proof.
  revert line. induction words as [|word rest IH]; intros line Hin Hl Hne.
  - simpl. constructor; [|constructor].
    destruct Hl as [->|Hl]; [|exact Hl]. destruct Hne; congruence.
  - simpl. assert (Hw : In word all) by (apply Hin; now left).
    assert (Hr : incl rest all) by (intros z Hz; apply Hin; now right).
    destruct (Qle_bool (measure (line ++ word ++ " ")) maxWidth) eqn:W; simpl.
    + apply IH; [exact Hr | | right].
      * right. left. now apply Qle_bool_iff.
      * destruct line; [destruct word|]; discriminate.
    + destruct (String.eqb_spec line EmptyString) as [->|N]; simpl.
      * apply IH; [exact Hr | | right].
        -- right. right. exists word. auto.
        -- destruct word; discriminate.
      * constructor.
        -- destruct Hl as [->|Hl]; [congruence | exact Hl].
        -- apply IH; [exact Hr | | right].
           ++ right. right. exists word. auto.
           ++ destruct word; discriminate.
Qed.


Lemma wrap_words_run (maxWidth : Q) (words : list string)
    (line : string) (lines : list string) (ctx : canvas) (w : world) :
  exists r w',
    wrap_words maxWidth words line lines (ctx, w) = (Ok r, (ctx, w'))
    /\ (snd r ++ [trim (fst r)])%list
       = (lines ++ map trim (raw_lines (measureText ctx) maxWidth words line))%list.
Proof.
  revert line lines w. induction words as [|word rest IH]; intros line lines w.
  - exists (line, lines), w. split; reflexivity.
  - simpl. destruct (_ && _).
    + unfold bind, with_world. simpl.
      destruct (IH (word ++ " ") (lines ++ [trim line])%list
                  {| console := (console w ++ [(LogInfo, "Line exceeds maxWidth:")])%list;
                     entropy := entropy w; drawn := drawn w |})
        as (r & w' & E & L).
      exists r, w'. split; [exact E|]. rewrite L, <- app_assoc. reflexivity.
    + apply IH.
Qed.

Lemma draw_lines_run (raws : list string) (index : nat) (x y lineHeight : Q)
    (ctx : canvas) (w : world) :
  exists w',
    draw_lines (map trim raws) index x y lineHeight (ctx, w)
    = (Ok tt,
       ({| measureText := measureText ctx;
           fillTexts :=
             (fillTexts ctx ++ mapi_from index (draw_call x y lineHeight) raws)%list |},
        w')).
Proof.
  revert index ctx w. induction raws as [|raw raws IH]; intros index ctx w.
  - exists w. simpl. rewrite app_nil_r. destruct ctx; reflexivity.
  - simpl. unfold bind, with_world, fillText. simpl.
    edestruct IH as [w' ->]. exists w'. simpl.
    rewrite <- app_assoc. reflexivity.
Qed.

Lemma wrapText_run (text : string) (x y maxWidth lineHeight : Q)
    (ctx : canvas) (w : world) :
  exists w',
    wrapText text x y maxWidth lineHeight (ctx, w)
    = (Ok tt,
       ({| measureText := measureText ctx;
           fillTexts :=
             (fillTexts ctx
              ++ mapi (draw_call x y lineHeight)
                   (raw_lines (measureText ctx) maxWidth (split_on " " text)
                      EmptyString))%list |},
        w')).
Proof.
  unfold wrapText, bind, with_world. simpl.
  edestruct wrap_words_run as (r & w1 & -> & L). rewrite L. simpl.
  edestruct draw_lines_run as [w2 ->]. exists w2. reflexivity.
Qed.


(** X22. Every line [wrapText] draws was measured, with its trailing
    space, at no more than [maxWidth] - unless it holds a single word, which
    is drawn on a line of its own however wide it is. *)
Theorem wrapText_lines_fit (text : string) (x y maxWidth lineHeight : Q)
    (ctx : canvas) (w : world) :
  exists raws w',
    wrapText text x y maxWidth lineHeight (ctx, w)
    = (Ok tt,
       ({| measureText := measureText ctx;
           fillTexts :=
             (fillTexts ctx ++ mapi (draw_call x y lineHeight) raws)%list |},
        w'))
    /\ Forall (fits_or_single (measureText ctx) maxWidth (split_on " " text)) raws.
Proof.
  destruct (wrapText_run text x y maxWidth lineHeight ctx w) as [w' E].
  eexists _, w'. split; [exact E|].
  apply raw_lines_fit.
  - apply incl_refl.
  - now left.
  - left. destruct (split_on_cons " " text) as (a & b & ->). discriminate.
Qed.

Example wrapText_sample :
  exists w',
    wrapText "a long day for all" 10 100 9 20
      ({| measureText := fun s => inject_Z (Z.of_nat (String.length s));
          fillTexts := [] |}, blank_world)
    = (Ok tt,
       ({| measureText := fun s => inject_Z (Z.of_nat (String.length s));
           fillTexts :=
             [ ("a long", 10, 100); ("day for", 10, 120);
               ("all", 10, 140) ]%Q |},
        w')).
Proof. eexists. vm_compute. reflexivity. Qed.

(* ================================================================== *)
(** * Random colours *)
(* ================================================================== *)

Lemma floor_channel (x : Q) :
  (0 <= x)%Q -> (x < 1)%Q -> channel (Qfloor (x * 255)).
Proof.
  intros H0 H1. unfold channel. split.
  - change 0 with (Qfloor 0). apply Qfloor_resp_le.
    apply Qmult_le_0_compat; [exact H0 | discriminate].
  - assert (L : (Qfloor (x * 255) < 255)%Z); [|lia].
    rewrite Zlt_Qlt. eapply Qle_lt_trans; [apply Qfloor_le|].
    change (inject_Z 255) with (1 * 255)%Q.
    apply Qmult_lt_compat_r; [reflexivity | exact H1].
Qed.

(** X23. With [Math.random] in [[0, 1)], [getRandomColor] returns
    [rgba(r, g, b, 0.6)] with each channel an integer of 0..254 - a channel
    is never 255 - and consumes exactly three random numbers, writing
    nothing to the console. *)
Theorem getRandomColor_channels (w : world) :
  unit_interval w ->
  exists r g b w',
    getRandomColor w = (Ok (rgba r g b), w')
    /\ channel r /\ channel g /\ channel b
    /\ drawn w' = (3 + drawn w)%nat
    /\ console w' = console w.
Proof.
  intros U.
  exists (Qfloor (entropy w (drawn w) * 255)),
         (Qfloor (entropy w (S (drawn w)) * 255)),
         (Qfloor (entropy w (S (S (drawn w))) * 255)).
  eexists. split; [reflexivity|].
  repeat split; try (apply floor_channel; apply U).
Qed.

Lemma getRandomColor_channels_witness :
  unit_interval two_tone_world
  /\ exists r g b w',
       getRandomColor two_tone_world = (Ok (rgba r g b), w')
       /\ channel r /\ channel g /\ channel b
       /\ drawn w' = (3 + drawn two_tone_world)%nat
       /\ console w' = console two_tone_world.
Proof.
  assert (U : unit_interval two_tone_world).
  { intros k. simpl. destruct (Nat.even k); split; try discriminate; reflexivity. }
  split; [exact U|].
  exact (getRandomColor_channels two_tone_world U).
Defined.
